(** * Musafir: rule-based extraction and flight-query core

    A shallow embedding of the decision logic of
      - [nlp_extractor.py]   (entity and passenger extraction),
      - [frame_processor.py] (cross-frame merge),
      - [query_parser.py]    (city, date and flight-query parsing),
      - [main.py]            (the question resolver of [ask_endpoint]),
    together with the parts of the Python runtime they rely on: [str]
    methods, [int()], insertion-ordered [dict]s, the backtracking [re]
    matcher and [datetime] calendar arithmetic.

    Conventions.
      - A Python [str] is a Rocq [string] holding its UTF-8 bytes: one
        character per code point below 128, several for a larger one.
        Character classes, case mapping, white space and lengths are
        Python's on 7-bit text; the bytes of larger code points are
        carried along as unclassified symbols, so a statement that
        depends on them is made for 7-bit text ([seven_bit]).
      - A Python [int] is a [Z].  The interpreter's limit of 4300 digits
        on [int(str)] and [str(int)] is not part of [PyStr.int] and
        [PyStr.of_Z]; a statement that depends on it says so.
      - A Python [dict] is an association list in insertion order.
      - A call that may raise returns [result]: [Ok v] or [Raise e]. *)

From Stdlib Require Import Strings.String Strings.Ascii Lists.List.
From Stdlib Require Import ZArith.ZArith Arith.PeanoNat Bool.Bool micromega.Lia.
From Stdlib Require Import Numbers.DecimalString.
Import ListNotations.

Open Scope list_scope.
Open Scope string_scope.

(* ================================================================== *)
(** * Exceptions *)

Inductive exn : Type :=
| ValueError
| TypeError
| OverflowError
| HTTPException (status_code : nat).

Inductive result (A : Type) : Type :=
| Ok (a : A)
| Raise (e : exn).
Arguments Ok {A} a.
Arguments Raise {A} e.

Definition bind {A B : Type} (r : result A) (k : A -> result B) : result B :=
  match r with
  | Ok a => k a
  | Raise e => Raise e
  end.

Notation "x <- r ;; k" := (bind r (fun x => k))
  (at level 61, r at next level, right associativity).

(* ================================================================== *)
(** * [str] primitives *)

Module PyStr.

Definition code (c : ascii) : nat := nat_of_ascii c.

Definition between (lo hi : nat) (c : ascii) : bool :=
  (lo <=? code c)%nat && (code c <=? hi)%nat.

Definition is_digit (c : ascii) : bool := between 48 57 c.
Definition is_upper (c : ascii) : bool := between 65 90 c.
Definition is_lower (c : ascii) : bool := between 97 122 c.
Definition is_alpha (c : ascii) : bool := is_upper c || is_lower c.

(** [str.isspace] / [\s]: tab, LF, VT, FF, CR, the separators 28..31 and
    the space. *)
Definition is_space (c : ascii) : bool :=
  between 9 13 c || between 28 32 c.

(** [\w] on ASCII: letters, digits and the underscore. *)
Definition is_word (c : ascii) : bool :=
  is_alpha c || is_digit c || (code c =? 95)%nat.

Definition lower_char (c : ascii) : ascii :=
  if is_upper c then ascii_of_nat (code c + 32) else c.

Definition upper_char (c : ascii) : ascii :=
  if is_lower c then ascii_of_nat (code c - 32) else c.

Fixpoint map_str (f : ascii -> ascii) (s : string) : string :=
  match s with
  | EmptyString => EmptyString
  | String c s' => String (f c) (map_str f s')
  end.

(** [s.lower()] and [s.upper()]. *)
Definition lower (s : string) : string := map_str lower_char s.
Definition upper (s : string) : string := map_str upper_char s.

Fixpoint lstrip (s : string) : string :=
  match s with
  | EmptyString => EmptyString
  | String c s' => if is_space c then lstrip s' else s
  end.

(** [s.rstrip()]: a character stays when something stays behind it, or
    when it is itself no white space. *)
Fixpoint rstrip (s : string) : string :=
  match s with
  | EmptyString => EmptyString
  | String c s' =>
      match rstrip s' with
      | EmptyString => if is_space c then EmptyString else String c EmptyString
      | String c' t => String c (String c' t)
      end
  end.

(** [s.strip()]. *)
Definition strip (s : string) : string := rstrip (lstrip s).

(** [s[:n]]. *)
Fixpoint take (n : nat) (s : string) : string :=
  match n, s with
  | S n', String c s' => String c (take n' s')
  | _, _ => EmptyString
  end.

Fixpoint starts_with (p s : string) : bool :=
  match p, s with
  | EmptyString, _ => true
  | String a p', String b s' => Ascii.eqb a b && starts_with p' s'
  | String _ _, EmptyString => false
  end.

(** Every character of [s] passes [ok]. *)
Fixpoint all_chars (ok : ascii -> bool) (s : string) : bool :=
  match s with
  | EmptyString => true
  | String c s' => ok c && all_chars ok s'
  end.

(** The 256 characters; a fact about one character is settled by
    running through them. *)
Definition all_ascii : list ascii := map ascii_of_nat (seq 0 256).

(** [sub in s]. *)
Fixpoint contains (sub s : string) : bool :=
  starts_with sub s ||
  match s with
  | EmptyString => false
  | String _ s' => contains sub s'
  end.

(** [str(n)] for an [int]. *)
Definition of_Z (n : Z) : string := NilZero.string_of_int (Z.to_int n).

(** [', '.join(parts)] and friends. *)
Fixpoint join (sep : string) (parts : list string) : string :=
  match parts with
  | [] => EmptyString
  | [p] => p
  | p :: rest => p ++ sep ++ join sep rest
  end.

(** ** [int(s)]

    White space is stripped, one sign is allowed, then decimal digits;
    a single underscore may separate two digits.  Anything else raises
    [ValueError].  The interpreter's configurable cap on the number of
    digits is left out. *)

Definition digit_val (c : ascii) : Z := Z.of_nat (code c - 48).

(** [digits acc after_digit s]: [after_digit] tells whether the previous
    character was a digit, which is what an underscore and the end of
    the literal both need. *)
Fixpoint digits (acc : Z) (after_digit : bool) (s : string) : option Z :=
  match s with
  | EmptyString => if after_digit then Some acc else None
  | String c s' =>
      if is_digit c then digits (10 * acc + digit_val c) true s'
      else if (code c =? 95)%nat && after_digit then digits acc false s'
      else None
  end.

Definition int_literal (s : string) : option Z :=
  match s with
  | String c s' =>
      if Ascii.eqb c "-" then option_map Z.opp (digits 0 false s')
      else if Ascii.eqb c "+" then digits 0 false s'
      else digits 0 false s
  | EmptyString => None
  end.

Definition int (s : string) : result Z :=
  match int_literal (strip s) with
  | Some n => Ok n
  | None => Raise ValueError
  end.

End PyStr.

(* ================================================================== *)
(** * [dict]: association lists in insertion order *)

Module PyDict.

Section Dict.
Context {V : Type}.

Definition dict : Type := list (string * V).

(** [d.get(k)]. *)
Fixpoint get (k : string) (d : dict) : option V :=
  match d with
  | [] => None
  | (k', v) :: d' => if String.eqb k' k then Some v else get k d'
  end.

(** [k in d]. *)
Definition mem (k : string) (d : dict) : bool :=
  match get k d with
  | Some _ => true
  | None => false
  end.

(** [d[k] = v]: an existing key keeps its place, a new key goes last. *)
Fixpoint set (k : string) (v : V) (d : dict) : dict :=
  match d with
  | [] => [(k, v)]
  | (k', v') :: d' =>
      if String.eqb k' k then (k', v) :: d' else (k', v') :: set k v d'
  end.

Definition keys (d : dict) : list string := map fst d.
Definition values (d : dict) : list V := map snd d.

(** Truth value of a dict: non-empty. *)
Definition truthy (d : dict) : bool :=
  match d with
  | [] => false
  | _ :: _ => true
  end.
End Dict.

Arguments dict V : clear implicits.

End PyDict.

(* ================================================================== *)
(** * The [re] matcher

    Patterns are kept as syntax trees; [m] enumerates, in the order in
    which a backtracking matcher tries them, every way a pattern can
    match at a position.  [search] takes the first way at the leftmost
    position that has one, which is what [re.search] returns. *)

Module Re.

(** Members of a bracketed class; [\d] and [\s] are classes of one item. *)
Inductive item : Type :=
| One (c : ascii)
| Range (lo hi : ascii)
| Digit
| Space.

Inductive regex : Type :=
| Eps
| Chr (c : ascii)
| Cls (items : list item)
| Seq (r1 r2 : regex)
| Alt (r1 r2 : regex)
| Rep (lo : nat) (hi : option nat) (r : regex)   (* greedy r{lo,hi} *)
| Grp (i : nat) (r : regex)                      (* capturing group i *)
| Wb.                                            (* \b *)

(** Position of the matcher: the character just behind it (for [\b]),
    the text still ahead and the groups captured so far, newest first. *)
Record mstate : Type := MState {
  prev : option ascii;
  rest : string;
  caps : list (nat * string)
}.

Definition chr_eq (ic : bool) (p c : ascii) : bool :=
  if ic then Ascii.eqb (PyStr.lower_char p) (PyStr.lower_char c)
  else Ascii.eqb p c.

Definition in_range (lo hi c : ascii) : bool :=
  PyStr.between (PyStr.code lo) (PyStr.code hi) c.

Definition item_match (ic : bool) (c : ascii) (it : item) : bool :=
  match it with
  | One p => chr_eq ic p c
  | Range lo hi =>
      in_range lo hi c
      || (ic && (in_range lo hi (PyStr.lower_char c)
                 || in_range lo hi (PyStr.upper_char c)))
  | Digit => PyStr.is_digit c
  | Space => PyStr.is_space c
  end.

Definition cls_match (ic : bool) (items : list item) (c : ascii) : bool :=
  existsb (item_match ic c) items.

(** Consume one character when [ok] accepts it. *)
Definition step (ok : ascii -> bool) (st : mstate) : list mstate :=
  match rest st with
  | String c s' => if ok c then [MState (Some c) s' (caps st)] else []
  | EmptyString => []
  end.

Definition word_at (o : option ascii) : bool :=
  match o with
  | Some c => PyStr.is_word c
  | None => false
  end.

Definition next_char (s : string) : option ascii :=
  match s with
  | String c _ => Some c
  | EmptyString => None
  end.

Definition at_boundary (st : mstate) : bool :=
  negb (Bool.eqb (word_at (prev st)) (word_at (next_char (rest st)))).

(** The text consumed between [start] and a later position [st]. *)
Definition consumed (start st : mstate) : string :=
  PyStr.take (String.length (rest start) - String.length (rest st)) (rest start).

Definition capture (i : nat) (start st : mstate) : mstate :=
  MState (prev st) (rest st) ((i, consumed start st) :: caps st).

(** [lo] compulsory rounds of [f]. *)
Fixpoint rep_min (f : mstate -> list mstate) (lo : nat) (st : mstate)
  : list mstate :=
  match lo with
  | O => [st]
  | S k => flat_map (rep_min f k) (f st)
  end.

(** Greedy further rounds: one more round is tried before stopping.
    [extra] bounds the number of rounds when the pattern gives an upper
    limit; [fuel] bounds them by the length of the text, every round of
    the patterns below consuming at least one character. *)
Fixpoint rep_more (f : mstate -> list mstate) (fuel : nat)
         (extra : option nat) (st : mstate) : list mstate :=
  match fuel with
  | O => [st]
  | S fuel' =>
      match extra with
      | Some O => [st]
      | _ => flat_map (rep_more f fuel' (option_map pred extra)) (f st) ++ [st]
      end
  end.

Definition extra_rounds (lo : nat) (hi : option nat) : option nat :=
  option_map (fun h => h - lo) hi.

Fixpoint m (ic : bool) (r : regex) (st : mstate) : list mstate :=
  match r with
  | Eps => [st]
  | Chr p => step (chr_eq ic p) st
  | Cls items => step (cls_match ic items) st
  | Seq r1 r2 => flat_map (m ic r2) (m ic r1 st)
  | Alt r1 r2 => m ic r1 st ++ m ic r2 st
  | Rep lo hi r' =>
      flat_map (rep_more (m ic r') (S (String.length (rest st)))
                         (extra_rounds lo hi))
               (rep_min (m ic r') lo st)
  | Grp i r' => map (capture i st) (m ic r' st)
  | Wb => if at_boundary st then [st] else []
  end.

(** A match object: where it starts, what follows it, and its groups. *)
Record rmatch : Type := RMatch {
  m_start : nat;
  m_after : string;
  m_caps : list (nat * string)
}.

Fixpoint lookup (i : nat) (l : list (nat * string)) : option string :=
  match l with
  | [] => None
  | (j, s) :: l' => if Nat.eqb j i then Some s else lookup i l'
  end.

(** [match.group(i)]; [None] when the group took no part in the match. *)
Definition group (i : nat) (mt : rmatch) : option string :=
  lookup i (m_caps mt).

Fixpoint search_from (ic : bool) (r : regex) (before : option ascii)
         (s : string) (pos : nat) : option rmatch :=
  match m ic r (MState before s []) with
  | st :: _ => Some (RMatch pos (rest st) (caps st))
  | [] =>
      match s with
      | EmptyString => None
      | String c s' => search_from ic r (Some c) s' (S pos)
      end
  end.

(** [re.search(pattern, text)] and [re.search(pattern, text, re.IGNORECASE)]. *)
Definition search (ic : bool) (r : regex) (text : string) : option rmatch :=
  search_from ic r None text 0.

(** The loop
<<
    for pattern in patterns:
        match = re.search(pattern, text, flags)
        if match:
            ...
            break
>>
    stops at the first pattern that matches. *)
Fixpoint first_match (ic : bool) (patterns : list regex) (text : string)
  : option rmatch :=
  match patterns with
  | [] => None
  | p :: rest =>
      match search ic p text with
      | Some mt => Some mt
      | None => first_match ic rest text
      end
  end.

(** ** Building patterns *)

Fixpoint lit (s : string) : regex :=
  match s with
  | EmptyString => Eps
  | String c EmptyString => Chr c
  | String c s' => Seq (Chr c) (lit s')
  end.

Fixpoint seq (rs : list regex) : regex :=
  match rs with
  | [] => Eps
  | [r] => r
  | r :: rs' => Seq r (seq rs')
  end.

Fixpoint alt (rs : list regex) : regex :=
  match rs with
  | [] => Cls []
  | [r] => r
  | r :: rs' => Alt r (alt rs')
  end.

Definition plus (r : regex) : regex := Rep 1 None r.
Definition star (r : regex) : regex := Rep 0 None r.
Definition opt (r : regex) : regex := Rep 0 (Some 1) r.
Definition times (n : nat) (r : regex) : regex := Rep n (Some n) r.
Definition upto (lo hi : nat) (r : regex) : regex := Rep lo (Some hi) r.

Definition d : regex := Cls [Digit].           (* \d *)
Definition s : regex := Cls [Space].           (* \s *)

(** [pattern source r]: the tree [r], labelled with the pattern text of
    the source it stands for. *)
Definition pattern (source : string) (r : regex) : regex := r.
Arguments pattern source r /.

(** ** The language of a pattern

    [lang ic r w]: the pattern [r] describes the text [w], letter case
    being ignored when [ic] is set.  A repetition describes [n] pieces
    in a row, [n] within its bounds; [\b] describes the empty text. *)

Fixpoint concat_str (ws : list string) : string :=
  match ws with
  | [] => EmptyString
  | w :: ws' => w ++ concat_str ws'
  end.

#[warnings="-register-all"]
Inductive lang (ic : bool) : regex -> string -> Prop :=
| lang_eps : lang ic Eps ""
| lang_chr (p c : ascii) :
    chr_eq ic p c = true -> lang ic (Chr p) (String c "")
| lang_cls (items : list item) (c : ascii) :
    cls_match ic items c = true -> lang ic (Cls items) (String c "")
| lang_seq (r1 r2 : regex) (a b : string) :
    lang ic r1 a -> lang ic r2 b -> lang ic (Seq r1 r2) (a ++ b)
| lang_alt_l (r1 r2 : regex) (a : string) :
    lang ic r1 a -> lang ic (Alt r1 r2) a
| lang_alt_r (r1 r2 : regex) (b : string) :
    lang ic r2 b -> lang ic (Alt r1 r2) b
| lang_rep (lo : nat) (hi : option nat) (r : regex) (ws : list string) :
    lo <= List.length ws ->
    (forall h, hi = Some h -> List.length ws <= lo + (h - lo)) ->
    Forall (lang ic r) ws ->
    lang ic (Rep lo hi r) (concat_str ws)
| lang_grp (i : nat) (r : regex) (a : string) :
    lang ic r a -> lang ic (Grp i r) a
| lang_wb : lang ic Wb "".

(** A pattern that ends in a group, split into what leads up to the
    group, the group's number and the group's body. *)
Fixpoint lead_and_group (r : regex) : option (regex * nat * regex) :=
  match r with
  | Grp i body => Some (Eps, i, body)
  | Seq a r2 =>
      match lead_and_group r2 with
      | Some (lead, i, body) => Some (Seq a lead, i, body)
      | None => None
      end
  | _ => None
  end.

(** Does every match of [r] consume a character?  And is every
    repeated piece of [r] of that kind, so that the rounds of a
    repetition are bounded by the length of the text? *)
Fixpoint consuming (r : regex) : bool :=
  match r with
  | Eps | Wb => false
  | Chr _ | Cls _ => true
  | Seq r1 r2 => consuming r1 || consuming r2
  | Alt r1 r2 => consuming r1 && consuming r2
  | Rep lo _ r' => (1 <=? lo)%nat && consuming r'
  | Grp _ r' => consuming r'
  end.

Fixpoint bounded (r : regex) : bool :=
  match r with
  | Eps | Wb | Chr _ | Cls _ => true
  | Seq r1 r2 | Alt r1 r2 => bounded r1 && bounded r2
  | Rep _ _ r' => consuming r' && bounded r'
  | Grp _ r' => bounded r'
  end.

(** Does [r] contain capturing group [i]? *)
Fixpoint captures (i : nat) (r : regex) : bool :=
  match r with
  | Eps | Chr _ | Cls _ | Wb => false
  | Seq r1 r2 | Alt r1 r2 => captures i r1 || captures i r2
  | Rep _ _ r' => captures i r'
  | Grp j r' => Nat.eqb j i || captures i r'
  end.

(** Is group [i] filled by every match of [r]? *)
Fixpoint fills (i : nat) (r : regex) : bool :=
  match r with
  | Eps | Chr _ | Cls _ | Wb => false
  | Seq r1 r2 => fills i r1 || fills i r2
  | Alt r1 r2 => fills i r1 && fills i r2
  | Rep lo _ r' => (1 <=? lo)%nat && fills i r'
  | Grp j r' => Nat.eqb j i || fills i r'
  end.

(** A group that holds something keeps holding something. *)
Definition holds (i : nat) (a b : mstate) : Prop :=
  lookup i (caps a) <> None -> lookup i (caps b) <> None.

(** A counting pattern: group 1 around [X+] for a one-character [X]
    accepting [ok], then a tail without group 1. *)
Definition counting (ic : bool) (ok : ascii -> bool) (r : regex) : Prop :=
  exists X tail,
    r = Seq (Grp 1 (plus X)) tail
    /\ (forall st, m ic X st = step ok st)
    /\ captures 1 tail = false.

(** The group text a caller reads with [match.group(i)]: a group that
    took no part in the match yields [None], on which [.strip()] and
    [int()] raise [TypeError]. *)
Definition group_str (i : nat) (mt : rmatch) : result string :=
  match group i mt with
  | Some g => Ok g
  | None => Raise TypeError
  end.

End Re.

(* ================================================================== *)
(** * Values held by the records *)

(** A PassengerCount: category name to count. *)
Definition pdict : Type := PyDict.dict Z.

(** What an EntityRecord or a TravelIntent holds under a key: a string,
    or a nested passenger mapping. *)
Inductive value : Type :=
| VStr (s : string)
| VPax (p : pdict).

Definition is_str (v : value) : bool :=
  match v with
  | VStr _ => true
  | VPax _ => false
  end.

(** [str(v)].  A passenger mapping prints as a dict display; its keys
    are the identifiers written in the source, which [repr] shows
    between single quotes unchanged. *)
Definition pax_item (kv : string * Z) : string :=
  "'" ++ fst kv ++ "': " ++ PyStr.of_Z (snd kv).

Definition py_str (v : value) : string :=
  match v with
  | VStr s => s
  | VPax p => "{" ++ PyStr.join ", " (map pax_item p) ++ "}"
  end.

Definition entities_t : Type := PyDict.dict value.

(** [sum(...)] over a list of ints. *)
Definition py_sum (l : list Z) : Z := fold_left Z.add l 0%Z.

(* ================================================================== *)
(** * nlp_extractor.py *)

Module NlpExtractor.
Import Re.

(** ** Patterns of [extract_passenger_info] *)

Definition adult_male_pattern : regex :=
  pattern "(\d+)\s*(?:adult\s*)?(?:men|man|male)"
    (Seq (Grp 1 (plus d))
      (seq [star s; opt (Seq (lit "adult") (star s));
            alt [lit "men"; lit "man"; lit "male"]])).

Definition adult_female_pattern : regex :=
  pattern "(\d+)\s*(?:adult\s*)?(?:women|woman|female)"
    (Seq (Grp 1 (plus d))
      (seq [star s; opt (Seq (lit "adult") (star s));
            alt [lit "women"; lit "woman"; lit "female"]])).

Definition minor_female_pattern : regex :=
  pattern "(\d+)\s*female\s*minor"
    (Seq (Grp 1 (plus d)) (seq [star s; lit "female"; star s; lit "minor"])).

Definition minor_male_pattern : regex :=
  pattern "(\d+)\s*male\s*minor"
    (Seq (Grp 1 (plus d)) (seq [star s; lit "male"; star s; lit "minor"])).

Definition minor_pattern : regex :=
  pattern "(\d+)\s*(kids|children|child|minor)"
    (Seq (Grp 1 (plus d))
      (seq [star s;
            Grp 2 (alt [lit "kids"; lit "children"; lit "child"; lit "minor"])])).

(** One block of [extract_passenger_info]:
<<
    match = re.search(pattern, text, re.IGNORECASE)
    if match:
        passengers[key] = int(match.group(1))
>> *)
Definition count_into (pattern : regex) (key : string) (text : string)
           (passengers : pdict) : result pdict :=
  match search true pattern text with
  | Some mt =>
      g <- group_str 1 mt ;;
      n <- PyStr.int g ;;
      Ok (PyDict.set key n passengers)
  | None => Ok passengers
  end.

Definition extract_passenger_info (text : string) : result pdict :=
  p <- count_into adult_male_pattern "adult_male" text [] ;;
  p <- count_into adult_female_pattern "adult_female" text p ;;
  p <- count_into minor_female_pattern "minor_female" text p ;;
  p <- count_into minor_male_pattern "minor_male" text p ;;
  p <- count_into minor_pattern "minor" text p ;;
  Ok (if PyDict.truthy p
      then PyDict.set "total" (py_sum (PyDict.values p)) p
      else p).

(** ** Patterns of [extract_entities] *)

Definition upper_az : regex := Cls [Range "A" "Z"].
Definition lower_az : regex := Cls [Range "a" "z"].

(** The separator after a label, a colon or white space, once or more. *)
Definition label_sep : regex := plus (Cls [One ":"; Space]).

(** A capitalised word, and two or more of them. *)
Definition cap_word : regex := Seq upper_az (plus lower_az).
Definition cap_words : regex := Seq cap_word (plus (Seq (plus s) cap_word)).

Definition name_patterns : list regex :=
  [ pattern "(?:Name|Passenger|Customer)[:\s]+([A-Z][a-z]+(?:\s+[A-Z][a-z]+)+)"
      (seq [alt [lit "Name"; lit "Passenger"; lit "Customer"]; label_sep;
            Grp 1 cap_words]);
    pattern "(?:Mr|Mrs|Ms|Dr)\.?\s+([A-Z][a-z]+(?:\s+[A-Z][a-z]+)+)"
      (seq [alt [lit "Mr"; lit "Mrs"; lit "Ms"; lit "Dr"]; opt (Chr ".");
            plus s; Grp 1 cap_words]) ].

Definition slash_or_dash : regex := Cls [One "/"; One "-"].

Definition date_patterns : list regex :=
  [ pattern "\b(\d{4}-\d{2}-\d{2})\b"
      (seq [Wb;
            Grp 1 (seq [times 4 d; Chr "-"; times 2 d; Chr "-"; times 2 d]);
            Wb]);
    pattern "\b(\d{2}/\d{2}/\d{4})\b"
      (seq [Wb;
            Grp 1 (seq [times 2 d; Chr "/"; times 2 d; Chr "/"; times 4 d]);
            Wb]);
    pattern "\b(\d{2}-\d{2}-\d{4})\b"
      (seq [Wb;
            Grp 1 (seq [times 2 d; Chr "-"; times 2 d; Chr "-"; times 4 d]);
            Wb]);
    pattern "(?:Date|Travel|Departure)[:\s]+(\d{1,2}[/-]\d{1,2}[/-]\d{2,4})"
      (seq [alt [lit "Date"; lit "Travel"; lit "Departure"]; label_sep;
            Grp 1 (seq [upto 1 2 d; slash_or_dash; upto 1 2 d; slash_or_dash;
                        upto 2 4 d])]) ].

(** Digits and commas, then optionally a point and two digits. *)
Definition number : regex :=
  Seq (plus (Cls [Digit; One ","])) (opt (Seq (Chr ".") (times 2 d))).

(** The currency class of the source has two members, the rupee sign and
    the dollar sign.  The rupee sign is code point 8377, three bytes in
    a [string]: the class is those three bytes in a row, or the dollar
    sign. *)
Definition currency : regex := Alt (lit "₹") (Cls [One "$"]).

Definition amount_patterns : list regex :=
  [ pattern "[₹$]\s*([\d,]+(?:\.\d{2})?)"
      (seq [currency; star s; Grp 1 number]);
    pattern "(?:Amount|Total|Price|Fare)[:\s]+[₹$]?\s*([\d,]+(?:\.\d{2})?)"
      (seq [alt [lit "Amount"; lit "Total"; lit "Price"; lit "Fare"];
            label_sep; opt currency; star s; Grp 1 number]);
    pattern "(?:Rs\.?|INR)\s*([\d,]+(?:\.\d{2})?)"
      (seq [alt [Seq (lit "Rs") (opt (Chr ".")); lit "INR"]; star s;
            Grp 1 number]) ].

Definition upper_alnum : regex := Cls [Range "A" "Z"; Range "0" "9"].

Definition pnr_label_pattern : regex :=
  pattern "PNR[:\s]+([A-Z0-9]{6,10})"
    (seq [lit "PNR"; label_sep; Grp 1 (upto 6 10 upper_alnum)]).

Definition bare_token_pattern : regex :=
  pattern "\b([A-Z0-9]{6})\b"
    (seq [Wb; Grp 1 (times 6 upper_alnum); Wb]).

Definition pnr_patterns : list regex :=
  [ pnr_label_pattern;
    pattern "Booking[:\s]+([A-Z0-9]{6,12})"
      (seq [lit "Booking"; label_sep; Grp 1 (upto 6 12 upper_alnum)]);
    pattern "ID[:\s]+([A-Z0-9]{6,12})"
      (seq [lit "ID"; label_sep; Grp 1 (upto 6 12 upper_alnum)]);
    bare_token_pattern ].

Definition letters : regex := plus (Cls [Range "A" "Z"; Range "a" "z"]).

Definition route_pattern : regex :=
  pattern "([A-Za-z]+)\s+to\s+([A-Za-z]+)"
    (seq [Grp 1 letters; plus s; lit "to"; plus s; Grp 2 letters]).

Definition extract_entities (text : string) : result entities_t :=
  let entities : entities_t := [] in
  (* NAME *)
  entities <-
    match first_match true name_patterns text with
    | Some mt =>
        g <- group_str 1 mt ;;
        Ok (PyDict.set "name" (VStr (PyStr.strip g)) entities)
    | None => Ok entities
    end ;;
  (* DATE *)
  entities <-
    match first_match false date_patterns text with
    | Some mt =>
        g <- group_str 1 mt ;;
        Ok (PyDict.set "date" (VStr g) entities)
    | None => Ok entities
    end ;;
  (* AMOUNT *)
  entities <-
    match first_match true amount_patterns text with
    | Some mt =>
        g <- group_str 1 mt ;;
        Ok (PyDict.set "amount" (VStr (PyStr.strip g)) entities)
    | None => Ok entities
    end ;;
  (* BOOKING ID / PNR *)
  entities <-
    match first_match false pnr_patterns text with
    | Some mt =>
        g <- group_str 1 mt ;;
        Ok (PyDict.set "booking_id" (VStr g) entities)
    | None => Ok entities
    end ;;
  (* ROUTE *)
  entities <-
    match search true route_pattern text with
    | Some mt =>
        g1 <- group_str 1 mt ;;
        g2 <- group_str 2 mt ;;
        let origin := PyStr.strip g1 in
        let destination := PyStr.strip g2 in
        let entities := PyDict.set "origin" (VStr origin) entities in
        let entities := PyDict.set "destination" (VStr destination) entities in
        Ok (PyDict.set "route" (VStr (origin ++ "-" ++ destination)) entities)
    | None => Ok entities
    end ;;
  (* PASSENGERS *)
  passenger_data <- extract_passenger_info text ;;
  Ok (if PyDict.truthy passenger_data
      then PyDict.set "passengers" (VPax passenger_data) entities
      else entities).

End NlpExtractor.

(* ================================================================== *)
(** * frame_processor.py *)

Module FrameProcessor.

(** A FrameResult: [{"frame": i, "text": t, "entities": e}] after a
    successful extraction, [{"frame": i, "error": msg}] after a failed
    one. *)
Inductive frame_result : Type :=
| FrameOk (frame : nat) (text : string) (entities : entities_t)
| FrameError (frame : nat) (error : string).

(** [frame_data.get('entities', {})]. *)
Definition frame_entities (frame_data : frame_result) : entities_t :=
  match frame_data with
  | FrameOk _ _ entities => entities
  | FrameError _ _ => []
  end.

(** Body of the inner loop, for one [(key, value)] of a frame:
<<
    if key not in merged:
        merged[key] = value
    elif isinstance(value, str) and len(value) > len(str(merged[key])):
        merged[key] = value
>> *)
Definition merge_item (merged : entities_t) (kv : string * value) : entities_t :=
  let (key, value) := kv in
  match PyDict.get key merged with
  | None => PyDict.set key value merged
  | Some current =>
      if is_str value
         && (String.length (py_str current) <? String.length (py_str value))%nat
      then PyDict.set key value merged
      else merged
  end.

Definition merge_frame (merged : entities_t) (frame_data : frame_result)
  : entities_t :=
  fold_left merge_item (frame_entities frame_data) merged.

Definition merge_entities (frame_results : list frame_result) : entities_t :=
  fold_left merge_frame frame_results [].

End FrameProcessor.

(* ================================================================== *)
(** * [datetime]: the proleptic Gregorian calendar *)

Module Datetime.
Local Open Scope Z_scope.

(** A [datetime] as the parser uses it: the time of day is always
    midnight and is left out. *)
Record date : Type := Date { year : Z; month : Z; day : Z }.

Definition MINYEAR : Z := 1.
Definition MAXYEAR : Z := 9999.

Definition is_leap (y : Z) : bool :=
  (y mod 4 =? 0) && (negb (y mod 100 =? 0) || (y mod 400 =? 0)).

Definition DAYS_IN_MONTH : list Z :=
  [-1; 31; 28; 31; 30; 31; 30; 31; 31; 30; 31; 30; 31].

Definition DAYS_BEFORE_MONTH : list Z :=
  [-1; 0; 31; 59; 90; 120; 151; 181; 212; 243; 273; 304; 334].

Definition table (t : list Z) (i : Z) : Z := nth (Z.to_nat i) t 0.

Definition days_in_month (y mo : Z) : Z :=
  if (mo =? 2) && is_leap y then 29 else table DAYS_IN_MONTH mo.

Definition days_before_year (y : Z) : Z :=
  let y1 := y - 1 in y1 * 365 + y1 / 4 - y1 / 100 + y1 / 400.

Definition days_before_month (y mo : Z) : Z :=
  table DAYS_BEFORE_MONTH mo + (if (2 <? mo) && is_leap y then 1 else 0).

(** [date.toordinal()]: 1 for 0001-01-01. *)
Definition toordinal (dt : date) : Z :=
  days_before_year (year dt) + days_before_month (year dt) (month dt) + day dt.

Definition DI400Y : Z := 146097.
Definition DI100Y : Z := 36524.
Definition DI4Y : Z := 1461.

Definition MAXORDINAL : Z := 3652059.

(** [date.fromordinal(n)]. *)
Definition fromordinal (n : Z) : date :=
  let n := n - 1 in
  let n400 := n / DI400Y in
  let n := n mod DI400Y in
  let y := n400 * 400 + 1 in
  let n100 := n / DI100Y in
  let n := n mod DI100Y in
  let n4 := n / DI4Y in
  let n := n mod DI4Y in
  let n1 := n / 365 in
  let n := n mod 365 in
  let y := y + n100 * 100 + n4 * 4 + n1 in
  if (n1 =? 4) || (n100 =? 4) then Date (y - 1) 12 31
  else
    let leapyear := (n1 =? 3) && (negb (n4 =? 24) || (n100 =? 3)) in
    let mo := Z.shiftr (n + 50) 5 in
    let preceding :=
      table DAYS_BEFORE_MONTH mo + (if (2 <? mo) && leapyear then 1 else 0) in
    if n <? preceding then
      let mo := mo - 1 in
      let preceding :=
        preceding
        - (table DAYS_IN_MONTH mo + (if (mo =? 2) && leapyear then 1 else 0)) in
      Date y mo (n - preceding + 1)
    else Date y mo (n - preceding + 1).

(** The dates a [datetime] can hold. *)
Definition valid (dt : date) : bool :=
  (MINYEAR <=? year dt) && (year dt <=? MAXYEAR)
  && (1 <=? month dt) && (month dt <=? 12)
  && (1 <=? day dt) && (day dt <=? days_in_month (year dt) (month dt)).

(** [dt.weekday()]: Monday is 0. *)
Definition weekday (dt : date) : Z := (toordinal dt + 6) mod 7.

(** [dt + timedelta(days=n)]. *)
Definition add_days (dt : date) (n : Z) : result date :=
  let o := toordinal dt + n in
  if (0 <? o) && (o <=? MAXORDINAL) then Ok (fromordinal o)
  else Raise OverflowError.

(** ** [strftime("%Y-%m-%d")]

    [%m] and [%d] are two digits, zero padded.  [%Y] is the year in
    decimal as the C library prints it, without padding: four digits
    from the year 1000 on, fewer before ([999-01-07]). *)

Definition digit_char (k : Z) : ascii := ascii_of_nat (48 + Z.to_nat k).

Definition pad2 (n : Z) (tail : string) : string :=
  String (digit_char (n / 10)) (String (digit_char (n mod 10)) tail).

Definition pad4 (n : Z) (tail : string) : string :=
  String (digit_char (n / 1000))
    (String (digit_char (n / 100 mod 10)) (pad2 (n mod 100) tail)).

(** The year as [%Y] prints it, for the years 1 to 9999 of a [datetime]. *)
Definition year_text (y : Z) (tail : string) : string :=
  if y <? 10 then String (digit_char y) tail
  else if y <? 100 then pad2 y tail
  else if y <? 1000 then String (digit_char (y / 100)) (pad2 (y mod 100) tail)
  else pad4 y tail.

Definition strftime (dt : date) : string :=
  year_text (year dt)
            (String "-" (pad2 (month dt) (String "-" (pad2 (day dt) "")))).

(** ** [strptime(s, "%Y-%m-%d")]

    The year is four digits.  The month is [01]..[12] or [1]..[9], the
    day [01]..[31], [1]..[9] or a space and [1]..[9]; nothing may follow
    the day.  A string of another shape, or one that names no calendar
    day, raises [ValueError]. *)

Definition dv (c : ascii) : Z := PyStr.digit_val c.

Definition parse_year (s : string) : option (Z * string) :=
  match s with
  | String a (String b (String c (String e s'))) =>
      if PyStr.is_digit a && PyStr.is_digit b
         && PyStr.is_digit c && PyStr.is_digit e
      then Some (1000 * dv a + 100 * dv b + 10 * dv c + dv e, s')
      else None
  | _ => None
  end.

Definition dash (s : string) : option string :=
  match s with
  | String c s' => if Ascii.eqb c "-" then Some s' else None
  | EmptyString => None
  end.

(** The month and the dash that ends it. *)
Definition parse_month (s : string) : option (Z * string) :=
  match s with
  | String a (String b s') =>
      if Ascii.eqb b "-" then
        if PyStr.is_digit a && (1 <=? dv a) then Some (dv a, s') else None
      else
        match dash s' with
        | Some s'' =>
            let v := 10 * dv a + dv b in
            if PyStr.is_digit a && PyStr.is_digit b && (1 <=? v) && (v <=? 12)
            then Some (v, s'')
            else None
        | None => None
        end
  | _ => None
  end.

Definition parse_day (s : string) : option Z :=
  match s with
  | String a EmptyString =>
      if PyStr.is_digit a && (1 <=? dv a) then Some (dv a) else None
  | String a (String b EmptyString) =>
      if Ascii.eqb a " " then
        if PyStr.is_digit b && (1 <=? dv b) then Some (dv b) else None
      else
        let v := 10 * dv a + dv b in
        if PyStr.is_digit a && PyStr.is_digit b && (1 <=? v) && (v <=? 31)
        then Some v
        else None
  | _ => None
  end.

Definition strptime (s : string) : result date :=
  match parse_year s with
  | Some (y, s1) =>
      match dash s1 with
      | Some s2 =>
          match parse_month s2 with
          | Some (mo, s3) =>
              match parse_day s3 with
              | Some dd =>
                  if valid (Date y mo dd) then Ok (Date y mo dd)
                  else Raise ValueError
              | None => Raise ValueError
              end
          | None => Raise ValueError
          end
      | None => Raise ValueError
      end
  | None => Raise ValueError
  end.

End Datetime.

(* ================================================================== *)
(** * query_parser.py *)

Module QueryParser.
Import Re Datetime.

Definition CITY_TO_IATA : PyDict.dict string :=
  [("delhi", "DEL"); ("mumbai", "BOM"); ("bangalore", "BLR"); ("chennai", "MAA");
   ("kolkata", "CCU"); ("hyderabad", "HYD"); ("pune", "PNQ"); ("goa", "GOI");
   ("ajman", "AJM"); ("dubai", "DXB"); ("abu dhabi", "AUH"); ("sharjah", "SHJ");
   ("new york", "JFK"); ("london", "LHR"); ("paris", "CDG"); ("singapore", "SIN")].

Definition misspellings : PyDict.dict string :=
  [("delhee", "delhi"); ("deli", "delhi"); ("mumbi", "mumbai");
   ("bangalor", "bangalore"); ("bangaluru", "bangalore")].

(** [d.get(k, default)]. *)
Definition get_or {V : Type} (k : string) (default : V) (dct : PyDict.dict V) : V :=
  match PyDict.get k dct with
  | Some v => v
  | None => default
  end.

Definition normalize_city (city : string) : string :=
  let city := PyStr.strip (PyStr.lower city) in
  let city := get_or city city misspellings in
  get_or city (PyStr.take 3 (PyStr.upper city)) CITY_TO_IATA.

(** [x or 7]. *)
Definition or7 (x : Z) : Z := if (x =? 0)%Z then 7%Z else x.

(** The weekday names of [parse_date], in the order it tests them, each
    with the number [weekday()] gives that day. *)
Definition weekday_names : list (string * Z) :=
  [("monday", 0); ("tuesday", 1); ("wednesday", 2); ("thursday", 3);
   ("friday", 4); ("saturday", 5); ("sunday", 6)]%Z.

(** The [if]/[elif] chain over the weekday names; [days_ahead = 7] when
    none occurs. *)
Fixpoint days_ahead (names : list (string * Z)) (date_text_lower : string)
         (today : Z) : Z :=
  match names with
  | [] => 7%Z
  | (name, target) :: names' =>
      if PyStr.contains name date_text_lower
      then or7 ((target - today + 7) mod 7)%Z
      else days_ahead names' date_text_lower today
  end.

(** ** Patterns of [parse_flight_query]

    The pattern texts of this file carry no backslash: [s+] is the letter
    s once or more, [d+] the letter d once or more, [w+] the letter w
    once or more. *)

Definition ss : regex := plus (Chr "s").        (* s+ *)
Definition s0 : regex := star (Chr "s").        (* s* *)
Definition az : regex := plus (Cls [Range "a" "z"]).
Definition ds : regex := Grp 1 (plus (Chr "d")).   (* (d+) *)

Definition route_patterns : list regex :=
  [ pattern "(?:from|leaving)s+([a-z]+)s+(?:to|for)s+([a-z]+)"
      (seq [alt [lit "from"; lit "leaving"]; ss; Grp 1 az; ss;
            alt [lit "to"; lit "for"]; ss; Grp 2 az]);
    pattern "([a-z]+)s+(?:to|for)s+([a-z]+)"
      (seq [Grp 1 az; ss; alt [lit "to"; lit "for"]; ss; Grp 2 az]) ].

Definition next_day : regex := seq [lit "next"; ss; plus (Chr "w")].  (* nexts+w+ *)
Definition w_day : regex := Seq (plus (Chr "w")) (lit "day").         (* w+day *)

Definition date_patterns : list regex :=
  [ pattern "ons+(nexts+w+|w+day|tomorrow|today|d{1,2}[/-]d{1,2}[/-]d{2,4})"
      (seq [lit "on"; ss;
            Grp 1 (alt [next_day; w_day; lit "tomorrow"; lit "today";
                        seq [upto 1 2 (Chr "d"); NlpExtractor.slash_or_dash;
                             upto 1 2 (Chr "d"); NlpExtractor.slash_or_dash;
                             upto 2 4 (Chr "d")]])]);
    pattern "(nexts+w+|w+day)"
      (Grp 1 (alt [next_day; w_day])) ].

Definition male_patterns : list regex :=
  [ pattern "(d+)s*(?:adults*)?(?:male|man|men)"
      (Seq ds (seq [s0; opt (Seq (lit "adult") s0);
                    alt [lit "male"; lit "man"; lit "men"]]));
    pattern "(d+)s*men"
      (Seq ds (seq [s0; lit "men"])) ].

Definition female_patterns : list regex :=
  [ pattern "(d+)s*(?:adults*)?(?:female|woman|women)"
      (Seq ds (seq [s0; opt (Seq (lit "adult") s0);
                    alt [lit "female"; lit "woman"; lit "women"]]));
    pattern "(d+)s*women"
      (Seq ds (seq [s0; lit "women"])) ].

Definition minor_patterns : list regex :=
  [ pattern "(d+)s*(?:females*)?minor"
      (Seq ds (seq [s0; opt (Seq (lit "female") s0); lit "minor"]));
    pattern "(d+)s*(?:males*)?minor"
      (Seq ds (seq [s0; opt (Seq (lit "male") s0); lit "minor"]));
    pattern "(d+)s*(?:child|children|kid)"
      (Seq ds (seq [s0; alt [lit "child"; lit "children"; lit "kid"]])) ].

Section WithDateutil.

(** [dateutil.parser.parse(text, fuzzy=True)], a library outside the
    repository: [Some dt] when it returns a date, [None] when it
    raises. *)
Variable fuzzy_parse : string -> option date.

Definition parse_date (date_text current_date_str : string) : result string :=
  current_date <- strptime current_date_str ;;
  let date_text_lower := PyStr.lower date_text in
  if PyStr.contains "today" date_text_lower then
    Ok (strftime current_date)
  else if PyStr.contains "tomorrow" date_text_lower then
    dt <- add_days current_date 1 ;;
    Ok (strftime dt)
  else if PyStr.contains "next" date_text_lower then
    dt <- add_days current_date
            (days_ahead weekday_names date_text_lower (weekday current_date)) ;;
    Ok (strftime dt)
  else
    (* try: ... except: return date_text *)
    match fuzzy_parse date_text with
    | Some parsed => Ok (strftime parsed)
    | None => Ok date_text
    end.

(** The route block. *)
Definition query_route (query_lower : string) (res : entities_t)
  : result entities_t :=
  match Re.first_match false route_patterns query_lower with
  | Some mt =>
      g1 <- group_str 1 mt ;;
      g2 <- group_str 2 mt ;;
      let res := PyDict.set "origin" (VStr (normalize_city g1)) res in
      Ok (PyDict.set "destination" (VStr (normalize_city g2)) res)
  | None => Ok res
  end.

(** The round-trip block. *)
Definition query_intent (query_lower : string) (res : entities_t) : entities_t :=
  if existsb (fun word => PyStr.contains word query_lower)
             ["round trip"; "return"; "round-trip"]
  then PyDict.set "travel_intent" (VStr "round_trip") res
  else res.

(** The date block. *)
Definition query_date (query_lower current_date : string) (res : entities_t)
  : result entities_t :=
  match Re.first_match false date_patterns query_lower with
  | Some mt =>
      g <- group_str 1 mt ;;
      dt <- parse_date g current_date ;;
      Ok (PyDict.set "travel_date" (VStr dt) res)
  | None => Ok res
  end.

(** The time-preference block. *)
Definition query_time (query_lower : string) (res : entities_t) : entities_t :=
  if PyStr.contains "morning" query_lower then
    PyDict.set "time_preference" (VStr "morning") res
  else if PyStr.contains "afternoon" query_lower then
    PyDict.set "time_preference" (VStr "afternoon") res
  else if PyStr.contains "evening" query_lower then
    PyDict.set "time_preference" (VStr "evening") res
  else if PyStr.contains "night" query_lower then
    PyDict.set "time_preference" (VStr "night") res
  else res.

(** A loop that stores [int(match.group(1))] under [key] at the first
    pattern that matches. *)
Definition query_count (patterns : list regex) (key : string)
           (query_lower : string) (passengers : pdict) : result pdict :=
  match Re.first_match false patterns query_lower with
  | Some mt =>
      g <- group_str 1 mt ;;
      n <- PyStr.int g ;;
      Ok (PyDict.set key n passengers)
  | None => Ok passengers
  end.

(** The minors loop. *)
Definition query_minors (query_lower : string) (passengers : pdict)
  : result pdict :=
  match Re.first_match false minor_patterns query_lower with
  | Some mt =>
      g <- group_str 1 mt ;;
      count <- PyStr.int g ;;
      if PyStr.contains "female" query_lower
         && PyStr.contains "minor" query_lower then
        Ok (PyDict.set "minor_female" count passengers)
      else if PyStr.contains "male" query_lower
              && PyStr.contains "minor" query_lower then
        Ok (PyDict.set "minor_male" count passengers)
      else
        Ok (PyDict.set "minor" (get_or "minor" 0%Z passengers + count)%Z
                       passengers)
  | None => Ok passengers
  end.

(** The three loops that fill [passengers], before the total. *)
Definition query_passengers (query_lower : string) : result pdict :=
  p <- query_count male_patterns "adult_male" query_lower [] ;;
  p <- query_count female_patterns "adult_female" query_lower p ;;
  query_minors query_lower p.

(** [sum(v for k, v in passengers.items() if k != 'total')]. *)
Definition sum_but_total (passengers : pdict) : Z :=
  py_sum (map snd (filter (fun kv => negb (String.eqb (fst kv) "total"))
                          passengers)).

(** The total and the one-traveller default. *)
Definition finish_passengers (passengers : pdict) : pdict :=
  let passengers := PyDict.set "total" (sum_but_total passengers) passengers in
  if (get_or "total" 0%Z passengers =? 0)%Z then
    PyDict.set "total" 1%Z (PyDict.set "adult_male" 1%Z passengers)
  else passengers.

(** [parse_flight_query(query, current_date)], with the reference date
    given by the caller, as the [/parse-flight-query] endpoint gives it. *)
Definition parse_flight_query (query current_date : string)
  : result entities_t :=
  let query_lower := PyStr.lower query in
  let res : entities_t :=
    [("travel_intent", VStr "one_way"); ("passengers", VPax [("total", 0%Z)])] in
  res <- query_route query_lower res ;;
  let res := query_intent query_lower res in
  res <- query_date query_lower current_date res ;;
  let res := query_time query_lower res in
  passengers <- query_passengers query_lower ;;
  Ok (PyDict.set "passengers" (VPax (finish_passengers passengers)) res).

End WithDateutil.

End QueryParser.

(* ================================================================== *)
(** * main.py: the question resolver of [ask_endpoint] *)

Module Main.

(** A QAAnswer: the [answer] and the [source] that go with it. *)
Record qa : Type := QA { answer : string; source : string }.

(** The local variables [answer] and [source] are assigned together;
    [None] is their initial state. *)
Definition slot : Type := option qa.

(** [not answer]. *)
Definition unanswered (a : slot) : bool :=
  match a with
  | None => true
  | Some r => String.eqb (answer r) ""
  end.

Definition has (word question_lower : string) : bool :=
  PyStr.contains word question_lower.

Definition str_Z (n : Z) : string := PyStr.of_Z n.

(** ['amount' in q or 'total' in q and any(k in q for k in [...])]:
    [and] binds tighter than [or]. *)
Definition amount_keywords (q : string) : bool :=
  has "amount" q
  || (has "total" q && existsb (fun k => has k q) ["price"; "amount"; "fare"]).

Definition name_keywords (q : string) : bool := has "name" q.
Definition date_keywords (q : string) : bool := has "date" q || has "when" q.
Definition id_keywords (q : string) : bool :=
  has "pnr" q || has "booking" q || has "id" q.

(** The [for key in entities.keys()] scan of the PNR rule. *)
Fixpoint id_scan (items : list (string * value)) : slot :=
  match items with
  | [] => None
  | (key, v) :: items' =>
      let k := PyStr.lower key in
      if PyStr.contains "pnr" k || PyStr.contains "id" k
         || PyStr.contains "booking" k
      then Some (QA ("The " ++ key ++ " is " ++ py_str v ++ ".")
                    (key ++ ": " ++ py_str v))
      else id_scan items'
  end.

(** The first [if]/[elif] chain: amount, name, date, booking id. *)
Definition field_rules (entities : entities_t) (q : string) : slot :=
  if amount_keywords q then
    match PyDict.get "amount" entities with
    | Some v => Some (QA ("The amount is " ++ py_str v ++ ".")
                         ("Amount found: " ++ py_str v))
    | None => None
    end
  else if name_keywords q then
    match PyDict.get "name" entities with
    | Some v => Some (QA ("The name is " ++ py_str v ++ ".")
                         ("Name found: " ++ py_str v))
    | None => None
    end
  else if date_keywords q then
    match PyDict.get "date" entities with
    | Some v => Some (QA ("The date is " ++ py_str v ++ ".")
                         ("Date found: " ++ py_str v))
    | None => None
    end
  else if id_keywords q then id_scan entities
  else None.

(** [entities.get('passengers', {})] when that is a dict, else [{}]. *)
Definition passengers_of (entities : entities_t) : pdict :=
  match PyDict.get "passengers" entities with
  | Some (VPax p) => p
  | _ => []
  end.

Definition count (key : string) (passengers : pdict) : Z :=
  QueryParser.get_or key 0%Z passengers.

Definition minor_keywords (q : string) : bool :=
  has "minor" q || has "child" q || has "children" q || has "kid" q.

(** [(A and B) or C or (A and D)], as Python groups the condition. *)
Definition total_keywords (q : string) : bool :=
  (has "total" q && has "passeng" q)
  || has "how many passengers" q
  || (has "total" q && has "pax" q).

(** [passengers[key]] when [guard] holds and the key is there. *)
Definition guarded (guard : bool) (key : string) (passengers : pdict) : option Z :=
  if guard then PyDict.get key passengers else None.

(** The minors branch. *)
Definition minor_rule (passengers : pdict) (q : string) : slot :=
  match guarded (has "male" q && has "minor" q) "minor_male" passengers with
  | Some n => Some (QA ("There are " ++ str_Z n ++ " male minors.")
                       ("minor_male: " ++ str_Z n))
  | None =>
      match guarded (has "female" q && has "minor" q) "minor_female" passengers with
      | Some n => Some (QA ("There are " ++ str_Z n ++ " female minors.")
                           ("minor_female: " ++ str_Z n))
      | None =>
          let minors_total :=
            (count "minor" passengers + count "minor_male" passengers
             + count "minor_female" passengers)%Z in
          if (0 <? minors_total)%Z then
            Some (QA ("There are " ++ str_Z minors_total ++ " minors.")
                     ("minors_total: " ++ str_Z minors_total))
          else None
      end
  end.

(** The total-passengers branch. *)
Definition total_rule (passengers : pdict) : slot :=
  match PyDict.get "total" passengers with
  | Some n => Some (QA ("Total passengers are " ++ str_Z n ++ ".")
                       ("total: " ++ str_Z n))
  | None =>
      let total_sum := QueryParser.sum_but_total passengers in
      if (0 <? total_sum)%Z then
        Some (QA ("Total passengers (inferred) are " ++ str_Z total_sum ++ ".")
                 ("inferred_total: " ++ str_Z total_sum))
      else None
  end.

(** The second [if]/[elif] chain, run when the first left no answer. *)
Definition passenger_rules (passengers : pdict) (q : string) : slot :=
  if has "adult" q && has "male" q then
    match PyDict.get "adult_male" passengers with
    | Some n => Some (QA ("There are " ++ str_Z n ++ " adult males.")
                         ("adult_male: " ++ str_Z n))
    | None => None
    end
  else if has "adult" q && has "female" q then
    match PyDict.get "adult_female" passengers with
    | Some n => Some (QA ("There are " ++ str_Z n ++ " adult females.")
                         ("adult_female: " ++ str_Z n))
    | None => None
    end
  else if has "how many adults" q || (has "how many" q && has "adult" q) then
    let male := count "adult_male" passengers in
    let female := count "adult_female" passengers in
    let total_adults := (male + female)%Z in
    if (0 <? total_adults)%Z then
      Some (QA ("There are " ++ str_Z total_adults ++ " adults ("
                ++ str_Z male ++ " male, " ++ str_Z female ++ " female).")
               ("adult_male: " ++ str_Z male ++ ", adult_female: "
                ++ str_Z female))
    else None
  else if minor_keywords q then minor_rule passengers q
  else if total_keywords q then total_rule passengers
  else None.

(** [f'{k}: {v}'] for one entity. *)
Definition listing_item (kv : string * value) : string :=
  fst kv ++ ": " ++ py_str (snd kv).

(** The final fallback. *)
Definition fallback (entities : entities_t) : qa :=
  if PyDict.truthy entities then
    QA ("Found information: " ++ PyStr.join ", " (map listing_item entities))
       "All extracted entities"
  else
    QA "No relevant information found for this question." "No data".

(** A rule that sets nothing leaves the variables as they were. *)
Definition assign (new old : slot) : slot :=
  match new with
  | Some r => Some r
  | None => old
  end.

(** The resolver: the body of [ask_endpoint] from [question_lower] on,
    on the entity record of the stored result. *)
Definition resolve (entities : entities_t) (question : string) : qa :=
  let question_lower := PyStr.lower question in
  let a := field_rules entities question_lower in
  let a :=
    if unanswered a
    then assign (passenger_rules (passengers_of entities) question_lower) a
    else a in
  if unanswered a then fallback entities
  else match a with
       | Some r => r
       | None => fallback entities
       end.

(** What [/extract] stores under a file id: [entities] for a still
    image, [merged_entities] for a moving one. *)
Record stored : Type := Stored {
  st_entities : option entities_t;
  st_merged_entities : option entities_t
}.

(** [data.get('entities', {}) or data.get('merged_entities', {})]. *)
Definition entities_of (data : stored) : entities_t :=
  let e := match st_entities data with Some e => e | None => [] end in
  if PyDict.truthy e then e
  else match st_merged_entities data with Some e' => e' | None => [] end.

Definition ask_endpoint (extracted_data : PyDict.dict stored)
           (file_id question : string) : result qa :=
  match PyDict.get file_id extracted_data with
  | None => Raise (HTTPException 404)
  | Some data => Ok (resolve (entities_of data) question)
  end.

(** [/parse-flight-query]: any exception of the parser leaves the
    endpoint as an HTTP 500. *)
Definition parse_flight_query_endpoint
           (fuzzy_parse : string -> option Datetime.date)
           (query : string) (current_date : option string) (now : string)
  : result entities_t :=
  let current_date :=
    match current_date with
    | Some c => if String.eqb c "" then now else c
    | None => now
    end in
  match QueryParser.parse_flight_query fuzzy_parse query current_date with
  | Ok r => Ok r
  | Raise _ => Raise (HTTPException 500)
  end.

End Main.


(* ================================================================== *)
(** * frame_processor.py: the frame loop of [process_dynamic_image] *)

Module ProcessDynamic.
Import FrameProcessor.

(** What a call into OpenCV, the OCR engine or the file system does:
    it returns, or it raises an exception with a message. *)
Inductive outcome (A : Type) : Type :=
| Returns (a : A)
| Raises (message : string).
Arguments Returns {A} a.
Arguments Raises {A} message.

(** The DynamicImageResult. *)
Record dynamic_result : Type := DynamicResult {
  frames_processed : nat;
  frame_results : list frame_result;
  merged_entities : entities_t
}.

Section WithExternals.

(** [extract_frames(video_path)]: the paths of the frames written out. *)
Variable extract_frames : string -> list string.

(** [preprocess_image(frame_path)['processed_path']]. *)
Variable preprocess_image : string -> outcome string.

(** [extract_text_from_image(path)['text']]: the OCR wrapper catches its
    own exceptions and returns a text in every case. *)
Variable extract_text_from_image : string -> string.

(** The cleanup of a frame: [os.unlink(frame_path)], then the unlink of
    the processed file when it exists. *)
Variable cleanup : string -> string -> outcome unit.

(** [str(e)] for an exception of the extractor. *)
Variable str_exn : exn -> string.

(** The body of the loop for frame [i]: the entries it appends.  The
    entry of a successful extraction is appended before the cleanup, so
    an exception of the cleanup adds an error entry behind it. *)
Definition process_frame (i : nat) (frame_path : string) : list frame_result :=
  match preprocess_image frame_path with
  | Raises message => [FrameError i message]
  | Returns processed_path =>
      let text := extract_text_from_image processed_path in
      match NlpExtractor.extract_entities text with
      | Raise e => [FrameError i (str_exn e)]
      | Ok entities =>
          FrameOk i text entities
          :: match cleanup frame_path processed_path with
             | Returns _ => []
             | Raises message => [FrameError i message]
             end
      end
  end.

(** [for i, frame_path in enumerate(frame_paths)], from index [i] on. *)
Fixpoint process_frames (i : nat) (frame_paths : list string)
  : list frame_result :=
  match frame_paths with
  | [] => []
  | frame_path :: rest =>
      (process_frame i frame_path ++ process_frames (S i) rest)%list
  end.

Definition process_dynamic_image (video_path : string) : dynamic_result :=
  let frame_paths := extract_frames video_path in
  let frame_results := process_frames 0 frame_paths in
  let merged_entities := merge_entities frame_results in
  DynamicResult (List.length frame_paths) frame_results merged_entities.

End WithExternals.

(** The frame number of an entry. *)
Definition frame_of (r : frame_result) : nat :=
  match r with
  | FrameOk frame _ _ => frame
  | FrameError frame _ => frame
  end.

End ProcessDynamic.

(* ================================================================== *)
(** * ocr_engine.py: the fallback for an unknown OCR result *)

Module OcrEngine.

(** A value as [json.loads] builds it: a string, a list, a dict in
    insertion order, or something else (a number, a boolean, [None]). *)
#[warnings="-register-all"]
Inductive obj : Type :=
| OStr (s : string)
| OList (items : list obj)
| ODict (d : list (string * obj))
| OOther.

(** [_extract_text_from_unknown(obj)]:
<<
    text = ""
    if isinstance(obj, dict):
        for v in obj.values():
            text += _extract_text_from_unknown(v) + " "
    elif isinstance(obj, list):
        for item in obj:
            text += _extract_text_from_unknown(item) + " "
    elif isinstance(obj, str):
        return obj
    return text.strip()
>> *)
Fixpoint _extract_text_from_unknown (o : obj) : string :=
  match o with
  | OStr s => s
  | OList items =>
      PyStr.strip
        (fold_left (fun text item => text ++ (_extract_text_from_unknown item ++ " "))
                   items "")
  | ODict d =>
      PyStr.strip
        (fold_left (fun text kv =>
                      text ++ (_extract_text_from_unknown (snd kv) ++ " "))
                   d "")
  | OOther => PyStr.strip ""
  end.

(** An object that holds no text: every string in it is white space. *)
Fixpoint blank (o : obj) : bool :=
  match o with
  | OStr s => PyStr.all_chars PyStr.is_space s
  | OList items => forallb blank items
  | ODict d => forallb (fun kv => blank (snd kv)) d
  | OOther => true
  end.

End OcrEngine.

(* ================================================================== *)
(** * Vocabulary of the statements *)

(** A [dateutil] stand-in for the worked examples: it recognises no
    date, so [parse_date] hands back the text it was given. *)
Definition fuzzy_none (_ : string) : option Datetime.date := None.

(** The mapping [{adult_male: 1, total: 1}], in the order in which the
    query parser inserts its keys. *)
Definition one_adult_male : pdict := [("total", 1%Z); ("adult_male", 1%Z)].

(** A date as a caller writes the reference date: YYYY-MM-DD, every
    field zero padded. *)
Definition ymd (dt : Datetime.date) : string :=
  Datetime.pad4 (Datetime.year dt)
    (String "-" (Datetime.pad2 (Datetime.month dt)
                   (String "-" (Datetime.pad2 (Datetime.day dt) "")))).

(** The five categories of a passenger mapping, [total] apart. *)
Definition categories : list string :=
  ["adult_male"; "adult_female"; "minor"; "minor_male"; "minor_female"].

(** A mapping as the passenger loops build one: its keys are distinct
    categories, its counts are not negative. *)
Definition count_mapping (p : pdict) : Prop :=
  NoDup (PyDict.keys p)
  /\ Forall (fun kv => In (fst kv) categories /\ (0 <= snd kv)%Z) p.

(** A record whose numbers [str] can print: the counts of each of its
    passenger mappings are not negative and sum to less than 10^4300,
    so that each count and each sum of counts has at most 4300 digits,
    the interpreter's limit for [str(int)]. *)
Definition printable (e : entities_t) : Prop :=
  forall (k : string) (p : pdict),
    In (k, VPax p) e ->
    Forall (fun kv => (0 <= snd kv)%Z) p
    /\ (py_sum (PyDict.values p) < 10 ^ 4300)%Z.

(** A text of 7-bit characters, on which the classes, the case mappings
    and the lengths of this model are those of Python's [str]. *)
Definition seven_bit (s : string) : bool :=
  PyStr.all_chars (fun c => (PyStr.code c <? 128)%nat) s.

(** The date block of [parse_flight_query] cannot raise: the query holds
    no date phrase, or the reference date is one [strptime] accepts and
    lies a week or more before the last day of the calendar. *)
Definition date_block_safe (query_lower current_date : string) : Prop :=
  Re.first_match false QueryParser.date_patterns query_lower = None
  \/ exists d0, Datetime.strptime current_date = Ok d0
                /\ (Datetime.toordinal d0 + 7 <= Datetime.MAXORDINAL)%Z.

(** Does [pattern] occur in [text]?  ([re.search] with IGNORECASE.) *)
Definition occurs (pattern : Re.regex) (text : string) : bool :=
  match Re.search true pattern text with
  | Some _ => true
  | None => false
  end.

(** Did one of the five checks of [extract_passenger_info] match? *)
Definition count_found (text : string) : bool :=
  existsb (fun pattern => occurs pattern text)
          [NlpExtractor.adult_male_pattern; NlpExtractor.adult_female_pattern;
           NlpExtractor.minor_female_pattern; NlpExtractor.minor_male_pattern;
           NlpExtractor.minor_pattern].

(** The sum of the five count fields, an absent field counting 0. *)
Definition count_fields (p : pdict) : Z :=
  (Main.count "adult_male" p + Main.count "adult_female" p
   + Main.count "minor" p + Main.count "minor_male" p
   + Main.count "minor_female" p)%Z.

(** What a first-match loop of [extract_entities] stores: group 1 of
    the first pattern that matches, after [post]. *)
Definition field_of (ic : bool) (patterns : list Re.regex) (text : string)
           (post : string -> string) : option value :=
  match Re.first_match ic patterns text with
  | Some mt => option_map (fun g => VStr (post g)) (Re.group 1 mt)
  | None => None
  end.

(** What [extract_entities] stores under [passengers]. *)
Definition passengers_field (text : string) : option value :=
  match NlpExtractor.extract_passenger_info text with
  | Ok (kv :: p) => Some (VPax (kv :: p))
  | _ => None
  end.

(** [len(str(v))], the measure the merger compares. *)
Definition width (v : value) : nat := String.length (py_str v).

(** [covers merged items]: every key of [items] is in [merged], under a
    value no shorter than any string [items] offers for it, so that
    merging [items] into [merged] changes nothing. *)
Definition covers (merged : entities_t) (items : list (string * value)) : Prop :=
  forall k v, In (k, v) items ->
    exists cur, PyDict.get k merged = Some cur
                /\ (is_str v = true -> width v <= width cur).

(** [grows a b]: from [a] to [b] no key is lost and no value shrinks. *)
Definition grows (a b : entities_t) : Prop :=
  forall k cur, PyDict.get k a = Some cur ->
    exists cur', PyDict.get k b = Some cur' /\ width cur <= width cur'.

(** What the resolver answers once the first chain has left no answer:
    the passenger rules, and failing them the fallback. *)
Definition after_fields (entities : entities_t) (question_lower : string)
  : Main.qa :=
  match Main.passenger_rules (Main.passengers_of entities) question_lower with
  | Some r => r
  | None => Main.fallback entities
  end.

(** The answer of the name rule. *)
Definition name_answer (v : value) : Main.qa :=
  Main.QA ("The name is " ++ py_str v ++ ".") ("Name found: " ++ py_str v).

(** What leads up to the name in the two name patterns: a label and
    its separator; a title, its optional point and white space. *)
Definition name_label : Re.regex :=
  Re.seq [Re.alt [Re.lit "Name"; Re.lit "Passenger"; Re.lit "Customer"];
          NlpExtractor.label_sep; Re.Eps].

Definition name_title : Re.regex :=
  Re.seq [Re.alt [Re.lit "Mr"; Re.lit "Mrs"; Re.lit "Ms"; Re.lit "Dr"];
          Re.opt (Re.Chr "."); Re.plus Re.s; Re.Eps].

(** A word of two or more letters, of either case. *)
Definition name_word (w : string) : Prop :=
  2 <= String.length w /\ PyStr.all_chars PyStr.is_alpha w = true.

(** One or more white-space characters. *)
Definition gap (w : string) : Prop :=
  1 <= String.length w /\ PyStr.all_chars PyStr.is_space w = true.

(** Two or more such words, with white space between them. *)
Definition name_words (g : string) : Prop :=
  exists (w : string) (more : list (string * string)),
    g = w ++ Re.concat_str (map (fun p => fst p ++ snd p) more)
    /\ 1 <= List.length more
    /\ name_word w
    /\ Forall (fun p => gap (fst p) /\ name_word (snd p)) more.

(** An uppercase letter or a digit. *)
Definition is_upper_alnum (c : ascii) : bool :=
  PyStr.is_upper c || PyStr.is_digit c.

(** [token_end post]: the text [post] does not go on with an uppercase
    letter or a digit, so that a token before it ends where it ends. *)
Definition token_end (post : string) : bool :=
  match post with
  | EmptyString => true
  | String c _ => negb (is_upper_alnum c)
  end.

(** The text holds no PNR label. *)
Definition no_pnr_label (pre : string) : bool :=
  negb (PyStr.contains "PNR" pre).

(* ================================================================== *)
(** * Further vocabulary: what a pattern can match *)

Module Shape.

(** The characters that can occur in a text [r] describes. *)
Fixpoint alphabet (ic : bool) (r : Re.regex) (c : ascii) : bool :=
  match r with
  | Re.Eps | Re.Wb => false
  | Re.Chr p => Re.chr_eq ic p c
  | Re.Cls items => Re.cls_match ic items c
  | Re.Seq r1 r2 | Re.Alt r1 r2 => alphabet ic r1 c || alphabet ic r2 c
  | Re.Rep _ _ r' | Re.Grp _ r' => alphabet ic r' c
  end.

(** The least length of a text [r] describes. *)
Fixpoint min_len (r : Re.regex) : nat :=
  match r with
  | Re.Eps | Re.Wb => 0
  | Re.Chr _ | Re.Cls _ => 1
  | Re.Seq r1 r2 => min_len r1 + min_len r2
  | Re.Alt r1 r2 => Nat.min (min_len r1) (min_len r2)
  | Re.Rep lo _ r' => lo * min_len r'
  | Re.Grp _ r' => min_len r'
  end.

(** The greatest length of a text [r] describes, when there is one. *)
Fixpoint max_len (r : Re.regex) : option nat :=
  match r with
  | Re.Eps | Re.Wb => Some 0
  | Re.Chr _ | Re.Cls _ => Some 1
  | Re.Seq r1 r2 =>
      match max_len r1, max_len r2 with
      | Some a, Some b => Some (a + b)
      | _, _ => None
      end
  | Re.Alt r1 r2 =>
      match max_len r1, max_len r2 with
      | Some a, Some b => Some (Nat.max a b)
      | _, _ => None
      end
  | Re.Rep lo (Some h) r' =>
      match max_len r' with
      | Some a => Some ((lo + (h - lo)) * a)
      | None => None
      end
  | Re.Rep _ None _ => None
  | Re.Grp _ r' => max_len r'
  end.

(** Is [r] free of word-boundary tests? *)
Fixpoint wb_free (r : Re.regex) : bool :=
  match r with
  | Re.Wb => false
  | Re.Eps | Re.Chr _ | Re.Cls _ => true
  | Re.Seq r1 r2 | Re.Alt r1 r2 => wb_free r1 && wb_free r2
  | Re.Rep _ _ r' | Re.Grp _ r' => wb_free r'
  end.

(** The bodies of the groups numbered [i] in [r]. *)
Fixpoint bodies (i : nat) (r : Re.regex) : list Re.regex :=
  match r with
  | Re.Eps | Re.Chr _ | Re.Cls _ | Re.Wb => []
  | Re.Seq r1 r2 | Re.Alt r1 r2 => bodies i r1 ++ bodies i r2
  | Re.Rep _ _ r' => bodies i r'
  | Re.Grp j r' => (if Nat.eqb j i then [r'] else []) ++ bodies i r'
  end.

(** [traced i L a b]: the matcher went from [a] to [b] forwards in the
    text, and what group [i] holds at [b] it held at [a] already, or it
    is a text of [L] read on the way. *)
Definition traced (i : nat) (L : string -> Prop) (a b : Re.mstate) : Prop :=
  (exists pre, Re.rest a = pre ++ Re.rest b)
  /\ forall g, Re.lookup i (Re.caps b) = Some g ->
       Re.lookup i (Re.caps a) = Some g
       \/ (L g /\ exists x y, Re.rest a = x ++ g ++ y ++ Re.rest b).

(** The texts a group [i] of [r] can hold. *)
Definition group_lang (ic : bool) (i : nat) (r : Re.regex) (g : string) : Prop :=
  exists body, In body (bodies i r) /\ Re.lang ic body g.

(** Does every text [r] describes hold a character that passes [ok]? *)
Fixpoint needs (ic : bool) (ok : ascii -> bool) (r : Re.regex) : bool :=
  match r with
  | Re.Eps | Re.Wb => false
  | Re.Chr p =>
      forallb (fun c => implb (Re.chr_eq ic p c) (ok c)) PyStr.all_ascii
  | Re.Cls items =>
      forallb (fun c => implb (Re.cls_match ic items c) (ok c)) PyStr.all_ascii
  | Re.Seq r1 r2 => needs ic ok r1 || needs ic ok r2
  | Re.Alt r1 r2 => needs ic ok r1 && needs ic ok r2
  | Re.Rep lo _ r' => (1 <=? lo)%nat && needs ic ok r'
  | Re.Grp _ r' => needs ic ok r'
  end.

(** [w] occurs in [text]: something before it, something after it. *)
Definition occurs_in (w text : string) : Prop :=
  exists before after, text = before ++ w ++ after.

End Shape.

(** ** The layout of an entity record *)

(** One entry of a record, when its block found something. *)
Definition entry (key : string) (v : option value) : entities_t :=
  match v with
  | Some x => [(key, x)]
  | None => []
  end.

(** The three entries of the route block. *)
Definition route_entries (text : string) : entities_t :=
  match Re.search true NlpExtractor.route_pattern text with
  | Some mt =>
      match Re.group 1 mt, Re.group 2 mt with
      | Some g1, Some g2 =>
          [("origin", VStr (PyStr.strip g1));
           ("destination", VStr (PyStr.strip g2));
           ("route", VStr (PyStr.strip g1 ++ "-" ++ PyStr.strip g2))]
      | _, _ => []
      end
  | None => []
  end.

(** The record of a text, block after block. *)
Definition record_of (text : string) : entities_t :=
  (entry "name" (field_of true NlpExtractor.name_patterns text PyStr.strip)
   ++ entry "date" (field_of false NlpExtractor.date_patterns text (fun g => g))
   ++ entry "amount" (field_of true NlpExtractor.amount_patterns text PyStr.strip)
   ++ entry "booking_id" (field_of false NlpExtractor.pnr_patterns text (fun g => g))
   ++ route_entries text
   ++ entry "passengers" (passengers_field text))%list.

(** The keys of an entity record, in the order of the blocks. *)
Definition entity_keys : list string :=
  ["name"; "date"; "amount"; "booking_id"; "origin"; "destination"; "route";
   "passengers"].

(** [subseq l1 l2]: [l1] is [l2] with some members left out. *)
Fixpoint subseq (l1 l2 : list string) : bool :=
  match l1, l2 with
  | [], _ => true
  | _ :: _, [] => false
  | a :: l1', b :: l2' =>
      if String.eqb a b then subseq l1' l2' else subseq l1 l2'
  end.

(** The keys of a parsed query, in the order of the blocks. *)
Definition query_keys : list string :=
  ["travel_intent"; "passengers"; "origin"; "destination"; "travel_date";
   "time_preference"].

(** Does the text name a relative date, as [parse_date] tests it? *)
Definition relative_date (date_text : string) : bool :=
  PyStr.contains "today" (PyStr.lower date_text)
  || PyStr.contains "tomorrow" (PyStr.lower date_text)
  || PyStr.contains "next" (PyStr.lower date_text).

(** The characters of a date as the record holds it, of an amount, and
    the letters of a route. *)
Definition is_date_char (c : ascii) : bool :=
  PyStr.is_digit c || Ascii.eqb c "/" || Ascii.eqb c "-".

Definition is_amount_char (c : ascii) : bool :=
  PyStr.is_digit c || Ascii.eqb c "," || Ascii.eqb c ".".

(** The five checks of [extract_passenger_info], each with its key. *)
Definition passenger_checks : list (Re.regex * string) :=
  [(NlpExtractor.adult_male_pattern, "adult_male");
   (NlpExtractor.adult_female_pattern, "adult_female");
   (NlpExtractor.minor_female_pattern, "minor_female");
   (NlpExtractor.minor_male_pattern, "minor_male");
   (NlpExtractor.minor_pattern, "minor")].

(** No character of [s] is a decimal digit. *)
Definition no_digit (s : string) : bool :=
  PyStr.all_chars (fun c => negb (PyStr.is_digit c)) s.

(* ================================================================== *)
(** * Properties of the runtime model *)

Import NlpExtractor FrameProcessor Datetime QueryParser Main.

(** ** Worked examples

    The model run on the inputs the repository's description works
    through, and on a few texts that exercise backtracking, greedy
    repetition and word boundaries. *)

Example search_count :
  option_map (Re.group 1) (Re.search true adult_male_pattern "for 2 Adult Men")
  = Some (Some "2").
Proof. vm_compute. reflexivity. Qed.

(** The optional decimals are given up when only one digit follows the
    point. *)
Example search_amount_backtracks :
  extract_entities "Fare: $1,200.5"
  = Ok [("amount", VStr "1,200")].
Proof. vm_compute. reflexivity. Qed.

(** A bare token is six characters between word boundaries: seven in a
    row are no token. *)
Example search_bare_token :
  extract_entities "ABCDEFG AI2025"
  = Ok [("booking_id", VStr "AI2025")].
Proof. vm_compute. reflexivity. Qed.

Example extract_ticket :
  extract_entities
    "Passenger: Asha Rao, PNR: QX7Y2Z, Pune to Goa on 2024-03-04, 2 women 1 child, Total: $5,400.00"
  = Ok [("name", VStr "Asha Rao"); ("date", VStr "2024-03-04");
        ("amount", VStr "5,400.00"); ("booking_id", VStr "QX7Y2Z");
        ("origin", VStr "Pune"); ("destination", VStr "Goa");
        ("route", VStr "Pune-Goa");
        ("passengers",
         VPax [("adult_female", 2%Z); ("minor", 1%Z); ("total", 3%Z)])].
Proof. vm_compute. reflexivity. Qed.

Example normalize_city_examples :
  normalize_city "delhee" = "DEL" /\ normalize_city "Nairobi" = "NAI"
  /\ normalize_city " Mumbai " = "BOM".
Proof. repeat split. Qed.

Example merge_longer_string_wins :
  merge_entities [FrameOk 0 "" [("name", VStr "Jo")];
                  FrameOk 1 "" [("name", VStr "John Smith")]]
  = [("name", VStr "John Smith")]
  /\ merge_entities [FrameOk 0 "" [("name", VStr "John Smith")];
                     FrameOk 1 "" [("name", VStr "Jo")]]
     = [("name", VStr "John Smith")]
  /\ merge_entities [FrameError 0 "no text"; FrameOk 1 "" [("name", VStr "Jo")]]
     = [("name", VStr "Jo")]
  /\ merge_entities [] = [].
Proof. repeat split. Qed.

Example resolve_amount_before_total :
  resolve [("amount", VStr "5,400.00");
           ("passengers", VPax [("adult_female", 2%Z); ("total", 2%Z)])]
          "What is the total amount?"
  = QA "The amount is 5,400.00." "Amount found: 5,400.00".
Proof. vm_compute. reflexivity. Qed.

Example resolve_empty_record :
  resolve [] "Who is travelling?"
  = QA "No relevant information found for this question." "No data".
Proof. vm_compute. reflexivity. Qed.

Example resolve_passenger_total :
  resolve [("passengers", VPax [("adult_female", 2%Z); ("minor", 1%Z);
                                ("total", 3%Z)])]
          "How many passengers are there?"
  = QA "Total passengers are 3." "total: 3".
Proof. vm_compute. reflexivity. Qed.

Example parse_date_examples :
  parse_date fuzzy_none "today" "2024-03-04" = Ok "2024-03-04"
  /\ parse_date fuzzy_none "Tomorrow" "2024-02-29" = Ok "2024-03-01"
  /\ parse_date fuzzy_none "next friday" "2024-12-30" = Ok "2025-01-03"
  /\ parse_date fuzzy_none "someday" "2024-03-04" = Ok "someday"
  /\ parse_date fuzzy_none "today" "2024-02-30" = Raise ValueError.
Proof. repeat split. Qed.

(** ** Strings *)

Lemma append_nil_r (s : string) : s ++ "" = s.
Proof. induction s as [|c s IH]; simpl; [reflexivity | now rewrite IH]. Qed.

Lemma append_assoc (a b c : string) : (a ++ b) ++ c = a ++ b ++ c.
Proof. induction a as [|x a IH]; simpl; [reflexivity | now rewrite IH]. Qed.

Lemma length_append (a b : string) :
  String.length (a ++ b) = String.length a + String.length b.
Proof. induction a as [|x a IH]; simpl; [reflexivity | now rewrite IH]. Qed.

Lemma take_append (a b : string) : PyStr.take (String.length a) (a ++ b) = a.
Proof. induction a as [|x a IH]; simpl; [now destruct b | now rewrite IH]. Qed.

(** A string whose characters are no white space is its own [strip]. *)
Lemma rstrip_solid (s : string) :
  PyStr.all_chars (fun c => negb (PyStr.is_space c)) s = true ->
  PyStr.rstrip s = s.
Proof.
  induction s as [|c s IH]; simpl; [reflexivity|].
  intros H. apply andb_prop in H as [Hc Hs].
  rewrite (IH Hs). destruct s; [|reflexivity].
  now destruct (PyStr.is_space c).
Qed.

Lemma lstrip_solid (s : string) :
  PyStr.all_chars (fun c => negb (PyStr.is_space c)) s = true ->
  PyStr.lstrip s = s.
Proof.
  destruct s as [|c s]; simpl; [reflexivity|].
  intros H. apply andb_prop in H as [Hc _].
  now destruct (PyStr.is_space c).
Qed.

Lemma strip_solid (s : string) :
  PyStr.all_chars (fun c => negb (PyStr.is_space c)) s = true ->
  PyStr.strip s = s.
Proof.
  intros H. unfold PyStr.strip. rewrite (lstrip_solid s H). now apply rstrip_solid.
Qed.

Lemma all_chars_weaken (p q : ascii -> bool) (s : string) :
  (forall c, p c = true -> q c = true) ->
  PyStr.all_chars p s = true -> PyStr.all_chars q s = true.
Proof.
  intros Hpq. induction s as [|c s IH]; simpl; [reflexivity|].
  intros H. apply andb_prop in H as [Hc Hs].
  now rewrite (Hpq c Hc), (IH Hs).
Qed.

Lemma in_all_ascii (c : ascii) : In c PyStr.all_ascii.
Proof.
  unfold PyStr.all_ascii. rewrite <- (ascii_nat_embedding c).
  apply in_map, in_seq. pose proof (nat_ascii_bounded c). lia.
Qed.

Lemma for_all_ascii (p : ascii -> bool) :
  forallb p PyStr.all_ascii = true -> forall c, p c = true.
Proof.
  intros H c. rewrite forallb_forall in H. apply H, in_all_ascii.
Qed.

Lemma digit_not_space (c : ascii) :
  PyStr.is_digit c = true -> negb (PyStr.is_space c) = true.
Proof.
  revert c.
  assert (H : forall c, implb (PyStr.is_digit c) (negb (PyStr.is_space c)) = true)
    by (apply for_all_ascii; vm_compute; reflexivity).
  intros c Hc. specialize (H c). now rewrite Hc in H.
Qed.

Lemma digit_not_sign (c : ascii) :
  PyStr.is_digit c = true -> Ascii.eqb c "-" = false /\ Ascii.eqb c "+" = false.
Proof.
  revert c.
  assert (H : forall c, implb (PyStr.is_digit c)
                          (negb (Ascii.eqb c "-") && negb (Ascii.eqb c "+")) = true)
    by (apply for_all_ascii; vm_compute; reflexivity).
  intros c Hc. specialize (H c). rewrite Hc in H. simpl in H.
  apply andb_prop in H as [H1 H2].
  split; [now destruct (Ascii.eqb c "-") | now destruct (Ascii.eqb c "+")].
Qed.

(** ** [int()] *)

Lemma digits_of_digits (s : string) :
  PyStr.all_chars PyStr.is_digit s = true ->
  forall acc after, (s <> "" \/ after = true) ->
  exists n, PyStr.digits acc after s = Some n.
Proof.
  induction s as [|c s IH]; simpl; intros H acc after Hne.
  - destruct Hne as [Hne | ->]; [congruence | eauto].
  - apply andb_prop in H as [Hc Hs]. rewrite Hc. apply IH; auto.
Qed.

(** [int] accepts every non-empty string of digits. *)
Lemma int_of_digits (s : string) :
  s <> "" -> PyStr.all_chars PyStr.is_digit s = true ->
  exists n, PyStr.int s = Ok n.
Proof.
  intros Hne H. unfold PyStr.int.
  rewrite strip_solid by (eapply all_chars_weaken; [apply digit_not_space | exact H]).
  destruct s as [|c s]; [congruence|].
  unfold PyStr.int_literal.
  pose proof H as H'. simpl in H'. apply andb_prop in H' as [Hc _].
  destruct (digit_not_sign c Hc) as [-> ->].
  destruct (digits_of_digits (String c s) H 0%Z false) as [n Hn];
    [left; congruence|].
  rewrite Hn. eauto.
Qed.

(** [int] rejects every non-empty string of the letter d. *)
Lemma int_of_ds (s : string) :
  s <> "" -> PyStr.all_chars (Ascii.eqb "d") s = true ->
  PyStr.int s = Raise ValueError.
Proof.
  intros Hne H. unfold PyStr.int.
  rewrite strip_solid.
  - destruct s as [|c s]; [congruence|].
    cbn [PyStr.all_chars] in H. apply andb_prop in H as [Hc _].
    apply Ascii.eqb_eq in Hc. subst c. reflexivity.
  - eapply all_chars_weaken; [|exact H].
    intros c Hc. apply Ascii.eqb_eq in Hc. now subst c.
Qed.

(** ** The matcher *)

Lemma flat_map_agree {A B : Type} (f g : A -> list B) (l : list A) :
  (forall a, In a l -> f a = g a) -> flat_map f l = flat_map g l.
Proof.
  induction l as [|a l IH]; intros H; simpl; [reflexivity|].
  rewrite (H a (or_introl eq_refl)), IH; [reflexivity|].
  intros b Hb. apply H. now right.
Qed.

Section Matcher.
Import Re.
Variable ic : bool.

Lemma in_step (ok : ascii -> bool) (st st' : mstate) :
  In st' (step ok st) ->
  exists c, ok c = true /\ rest st = String c (rest st')
            /\ caps st' = caps st /\ prev st' = Some c.
Proof.
  unfold step. destruct (rest st) as [|c s'] eqn:E; [intros []|].
  destruct (ok c) eqn:Hc; [|intros []].
  intros [<- | []]. exists c. simpl. auto.
Qed.

(** Rounds of a one-character pattern consume characters it accepts
    and leave the groups alone. *)
Lemma rep_more_step (ok : ascii -> bool) (fuel : nat) :
  forall extra st st',
    In st' (rep_more (step ok) fuel extra st) ->
    exists pre, rest st = pre ++ rest st'
                /\ PyStr.all_chars ok pre = true /\ caps st' = caps st.
Proof.
  induction fuel as [|fuel IH]; intros extra st st' Hin.
  - destruct Hin as [<- | []]. now exists "".
  - assert (Hstop : st' = st -> exists pre, rest st = pre ++ rest st'
                /\ PyStr.all_chars ok pre = true /\ caps st' = caps st)
      by (intros ->; now exists "").
    assert (Hgo : In st' (flat_map (rep_more (step ok) fuel (option_map pred extra))
                                   (step ok st) ++ [st]) ->
                  exists pre, rest st = pre ++ rest st'
                /\ PyStr.all_chars ok pre = true /\ caps st' = caps st).
    { intros H. apply in_app_or in H as [H | [<- | []]]; [|now apply Hstop].
      apply in_flat_map in H as (st1 & H1 & H2).
      apply in_step in H1 as (c & Hc & Hr & Hcaps & _).
      apply IH in H2 as (pre & Hp & Hall & Hcaps').
      exists (String c pre). simpl. rewrite Hr, Hp, Hc, Hall.
      repeat split; congruence. }
    simpl in Hin. destruct extra as [[|k]|].
    + destruct Hin as [<- | []]. now apply Hstop.
    + now apply Hgo.
    + now apply Hgo.
Qed.

(** [X+] for a one-character pattern [X]. *)
Lemma plus_single (X : regex) (ok : ascii -> bool) :
  (forall st, m ic X st = step ok st) ->
  forall st st', In st' (m ic (plus X) st) ->
  exists pre, pre <> "" /\ rest st = pre ++ rest st'
              /\ PyStr.all_chars ok pre = true /\ caps st' = caps st.
Proof.
  intros HX st st' Hin. unfold plus in Hin. cbn [m rep_min] in Hin.
  apply in_flat_map in Hin as (st2 & H2 & Hin).
  apply in_flat_map in H2 as (st1 & H1 & [<- | []]).
  rewrite HX in H1. apply in_step in H1 as (c & Hc & Hr & Hcaps & _).
  assert (Hf : forall fuel extra a, rep_more (m ic X) fuel extra a
                                    = rep_more (step ok) fuel extra a).
  { intros fuel. induction fuel as [|fuel IHf]; intros extra a; [reflexivity|].
    simpl. rewrite HX.
    destruct extra as [[|k]|]; [reflexivity| |];
      (f_equal; apply flat_map_ext; intros b; apply IHf). }
  rewrite Hf in Hin.
  apply rep_more_step in Hin as (pre & Hp & Hall & Hcaps').
  exists (String c pre). simpl. rewrite Hr, Hp, Hc, Hall.
  repeat split; congruence.
Qed.

Lemma consumed_prefix (start st : mstate) (pre : string) :
  rest start = pre ++ rest st -> consumed start st = pre.
Proof.
  intros H. unfold consumed. rewrite H, length_append.
  replace (String.length pre + String.length (rest st) - String.length (rest st))
    with (String.length pre) by lia.
  apply take_append.
Qed.

(** Group [i] around [X+] holds a non-empty run of accepted characters. *)
Lemma group_plus_single (X : regex) (ok : ascii -> bool) (i : nat) :
  (forall st, m ic X st = step ok st) ->
  forall st st', In st' (m ic (Grp i (plus X)) st) ->
  exists g, lookup i (caps st') = Some g /\ g <> ""
            /\ PyStr.all_chars ok g = true.
Proof.
  intros HX st st' Hin. cbn [m] in Hin.
  apply in_map_iff in Hin as (st1 & <- & H1).
  apply (plus_single X ok HX) in H1 as (pre & Hne & Hr & Hall & _).
  exists pre. simpl. rewrite Nat.eqb_refl.
  now rewrite (consumed_prefix st st1 pre Hr).
Qed.

(** Closure of a step property under the two repetition loops. *)
Lemma rep_min_keeps (P : mstate -> mstate -> Prop) (f : mstate -> list mstate) :
  (forall st, P st st) ->
  (forall a b c, P a b -> P b c -> P a c) ->
  (forall st st', In st' (f st) -> P st st') ->
  forall lo st st', In st' (rep_min f lo st) -> P st st'.
Proof.
  intros Hrefl Htrans Hf lo.
  induction lo as [|lo IH]; intros st st' Hin; simpl in Hin.
  - destruct Hin as [<- | []]. apply Hrefl.
  - apply in_flat_map in Hin as (st1 & H1 & H2). eauto.
Qed.

Lemma rep_more_keeps (P : mstate -> mstate -> Prop) (f : mstate -> list mstate) :
  (forall st, P st st) ->
  (forall a b c, P a b -> P b c -> P a c) ->
  (forall st st', In st' (f st) -> P st st') ->
  forall fuel extra st st', In st' (rep_more f fuel extra st) -> P st st'.
Proof.
  intros Hrefl Htrans Hf fuel.
  induction fuel as [|fuel IH]; intros extra st st' Hin; simpl in Hin.
  - destruct Hin as [<- | []]. apply Hrefl.
  - assert (Hgo : In st' (flat_map (rep_more f fuel (option_map pred extra))
                                   (f st) ++ [st]) -> P st st').
    { intros H. apply in_app_or in H as [H | [<- | []]]; [|apply Hrefl].
      apply in_flat_map in H as (st1 & H1 & H2). eauto. }
    destruct extra as [[|k]|]; auto.
    destruct Hin as [<- | []]. apply Hrefl.
Qed.

(** A pattern without group [i] leaves what group [i] holds. *)
Lemma m_keeps_group (i : nat) (r : regex) :
  captures i r = false ->
  forall st st', In st' (m ic r st) -> lookup i (caps st') = lookup i (caps st).
Proof.
  induction r as [| p | items | r1 IH1 r2 IH2 | r1 IH1 r2 IH2
                  | lo hi r IH | j r IH | ];
    cbn [m captures]; intros Hc st st' Hin.
  - destruct Hin as [<- | []]. reflexivity.
  - apply in_step in Hin as (c & _ & _ & -> & _). reflexivity.
  - apply in_step in Hin as (c & _ & _ & -> & _). reflexivity.
  - apply orb_false_elim in Hc as [Hc1 Hc2].
    apply in_flat_map in Hin as (st1 & H1 & H2).
    rewrite (IH2 Hc2 _ _ H2). now apply IH1.
  - apply orb_false_elim in Hc as [Hc1 Hc2].
    apply in_app_or in Hin as [H | H]; [now apply IH1 | now apply IH2].
  - apply in_flat_map in Hin as (st1 & H1 & H2).
    set (P := fun a b : mstate => lookup i (caps b) = lookup i (caps a)).
    assert (Hrefl : forall a, P a a) by (intros a; reflexivity).
    assert (Htrans : forall a b c, P a b -> P b c -> P a c)
      by (unfold P; intros a b c Hab Hbc; congruence).
    assert (Hf : forall a b, In b (m ic r a) -> P a b)
      by (intros a b Hab; now apply IH).
    apply (Htrans st st1 st').
    + exact (rep_min_keeps P _ Hrefl Htrans Hf _ _ _ H1).
    + exact (rep_more_keeps P _ Hrefl Htrans Hf _ _ _ _ H2).
  - apply orb_false_elim in Hc as [Hj Hc].
    apply in_map_iff in Hin as (st1 & <- & H1).
    simpl. rewrite Hj. now apply IH.
  - destruct (at_boundary st); [|destruct Hin].
    destruct Hin as [<- | []]. reflexivity.
Qed.

Lemma counting_m (ok : ascii -> bool) (r : regex) :
  counting ic ok r ->
  forall st st', In st' (m ic r st) ->
  exists g, lookup 1 (caps st') = Some g /\ g <> ""
            /\ PyStr.all_chars ok g = true.
Proof.
  intros (X & tail & -> & HX & Htail) st st' Hin. cbn [m] in Hin.
  apply in_flat_map in Hin as (st1 & H1 & H2).
  change (In st1 (m ic (Grp 1 (plus X)) st)) in H1.
  apply (group_plus_single X ok 1 HX) in H1 as (g & Hg & Hne & Hall).
  exists g. rewrite (m_keeps_group 1 tail Htail _ _ H2). auto.
Qed.

Lemma search_from_in (r : regex) (text : string) :
  forall before pos mt,
    search_from ic r before text pos = Some mt ->
    exists st st', In st' (m ic r st) /\ m_caps mt = caps st'.
Proof.
  induction text as [|c text IH]; intros before pos mt; simpl.
  - destruct (m ic r (MState before "" [])) as [|st' l] eqn:E; [discriminate|].
    intros [= <-]. exists (MState before "" []), st'. rewrite E. simpl. auto.
  - destruct (m ic r (MState before (String c text) [])) as [|st' l] eqn:E.
    + apply IH.
    + intros [= <-]. exists (MState before (String c text) []), st'.
      rewrite E. simpl. auto.
Qed.

(** What [match.group(1)] holds after a counting pattern matched. *)
Lemma counting_search (ok : ascii -> bool) (r : regex) (text : string)
      (mt : rmatch) :
  counting ic ok r -> search ic r text = Some mt ->
  exists g, group_str 1 mt = Ok g /\ g <> "" /\ PyStr.all_chars ok g = true.
Proof.
  intros Hr Hs. apply search_from_in in Hs as (st & st' & Hin & Hcaps).
  destruct (counting_m ok r Hr st st' Hin) as (g & Hg & Hne & Hall).
  exists g. unfold group_str, group. rewrite Hcaps, Hg. auto.
Qed.

Lemma counting_first_match (ok : ascii -> bool) (patterns : list regex)
      (text : string) (mt : rmatch) :
  Forall (counting ic ok) patterns ->
  Re.first_match ic patterns text = Some mt ->
  exists g, group_str 1 mt = Ok g /\ g <> "" /\ PyStr.all_chars ok g = true.
Proof.
  induction 1 as [|r rs Hr _ IH]; simpl; [discriminate|].
  destruct (search ic r text) as [mt'|] eqn:E; [|exact IH].
  intros [= ->]. eapply counting_search; eauto.
Qed.

Lemma m_holds (i : nat) (r : regex) :
  forall st st', In st' (m ic r st) -> holds i st st'.
Proof.
  assert (Hrefl : forall a, holds i a a) by (intros a H; exact H).
  assert (Htrans : forall a b c, holds i a b -> holds i b c -> holds i a c)
    by (unfold holds; intros a b c Hab Hbc H; auto).
  induction r as [| p | items | r1 IH1 r2 IH2 | r1 IH1 r2 IH2
                  | lo hi r IH | j r IH | ];
    cbn [m]; intros st st' Hin.
  - destruct Hin as [<- | []]. apply Hrefl.
  - apply in_step in Hin as (c & _ & _ & E & _). unfold holds. now rewrite E.
  - apply in_step in Hin as (c & _ & _ & E & _). unfold holds. now rewrite E.
  - apply in_flat_map in Hin as (st1 & H1 & H2). eauto.
  - apply in_app_or in Hin as [H | H]; eauto.
  - apply in_flat_map in Hin as (st1 & H1 & H2).
    apply (Htrans st st1 st').
    + exact (rep_min_keeps (holds i) _ Hrefl Htrans IH _ _ _ H1).
    + exact (rep_more_keeps (holds i) _ Hrefl Htrans IH _ _ _ _ H2).
  - apply in_map_iff in Hin as (st1 & <- & H1).
    intros H. simpl. destruct (Nat.eqb j i); [discriminate|].
    now apply (IH _ _ H1).
  - destruct (at_boundary st); [|destruct Hin].
    destruct Hin as [<- | []]. apply Hrefl.
Qed.

(** Every match of a pattern that fills group [i] holds group [i]. *)
Lemma m_fills (i : nat) (r : regex) :
  fills i r = true ->
  forall st st', In st' (m ic r st) -> lookup i (caps st') <> None.
Proof.
  induction r as [| p | items | r1 IH1 r2 IH2 | r1 IH1 r2 IH2
                  | lo hi r IH | j r IH | ];
    cbn [m fills]; intros Hf st st' Hin; try discriminate.
  - apply in_flat_map in Hin as (st1 & H1 & H2).
    destruct (fills i r2) eqn:E2; [now apply (IH2 eq_refl _ _ H2)|].
    rewrite orb_false_r in Hf.
    apply (m_holds i r2 _ _ H2). now apply (IH1 Hf _ _ H1).
  - apply andb_prop in Hf as [Hf1 Hf2].
    apply in_app_or in Hin as [H | H]; eauto.
  - apply andb_prop in Hf as [Hlo Hf].
    destruct lo as [|lo]; [discriminate|].
    apply in_flat_map in Hin as (st2 & H2 & Hmore).
    cbn [rep_min] in H2. apply in_flat_map in H2 as (st1 & H1 & Hmin).
    assert (Hrefl : forall a, holds i a a) by (intros a H; exact H).
    assert (Htrans : forall a b c, holds i a b -> holds i b c -> holds i a c)
      by (unfold holds; intros a b c Hab Hbc H; auto).
    apply (rep_more_keeps (holds i) _ Hrefl Htrans (m_holds i r) _ _ _ _ Hmore).
    apply (rep_min_keeps (holds i) _ Hrefl Htrans (m_holds i r) _ _ _ Hmin).
    now apply (IH Hf _ _ H1).
  - apply in_map_iff in Hin as (st1 & <- & H1). simpl.
    destruct (Nat.eqb j i) eqn:E; [discriminate|].
    simpl in Hf. now apply (IH Hf _ _ H1).
Qed.

Lemma fills_search (i : nat) (r : regex) (text : string) (mt : rmatch) :
  fills i r = true -> search ic r text = Some mt ->
  exists g, group_str i mt = Ok g.
Proof.
  intros Hf Hs. apply search_from_in in Hs as (st & st' & Hin & Hcaps).
  pose proof (m_fills i r Hf st st' Hin) as H.
  unfold group_str, group. rewrite Hcaps.
  destruct (lookup i (caps st')) as [g|]; [eauto | congruence].
Qed.

Lemma fills_first_match (i : nat) (patterns : list regex) (text : string)
      (mt : rmatch) :
  forallb (fills i) patterns = true ->
  Re.first_match ic patterns text = Some mt ->
  exists g, group_str i mt = Ok g.
Proof.
  induction patterns as [|r rs IH]; simpl; [discriminate|].
  intros H. apply andb_prop in H as [Hr Hrs].
  destruct (search ic r text) as [mt'|] eqn:E; [|now apply IH].
  intros [= ->]. eapply fills_search; eauto.
Qed.

(** *** Soundness: what the matcher consumes, the pattern describes. *)

Lemma concat_str_app (a b : list string) :
  concat_str (a ++ b) = concat_str a ++ concat_str b.
Proof.
  induction a as [|w a IH]; simpl; [reflexivity|].
  now rewrite IH, append_assoc.
Qed.

Lemma rep_min_sound (f : mstate -> list mstate) (L : string -> Prop) :
  (forall st st', In st' (f st) -> exists pre, rest st = pre ++ rest st' /\ L pre) ->
  forall lo st st', In st' (rep_min f lo st) ->
  exists ws, List.length ws = lo /\ Forall L ws
             /\ rest st = concat_str ws ++ rest st'.
Proof.
  intros Hf lo. induction lo as [|lo IH]; intros st st' Hin; simpl in Hin.
  - destruct Hin as [<- | []]. exists []. auto.
  - apply in_flat_map in Hin as (st1 & H1 & H2).
    apply Hf in H1 as (pre & Hr & HL).
    apply IH in H2 as (ws & Hlen & Hall & Hr').
    exists (pre :: ws). simpl. rewrite Hlen, Hr, Hr', append_assoc. auto.
Qed.

Lemma rep_more_sound (f : mstate -> list mstate) (L : string -> Prop) :
  (forall st st', In st' (f st) -> exists pre, rest st = pre ++ rest st' /\ L pre) ->
  forall fuel extra st st', In st' (rep_more f fuel extra st) ->
  exists ws, (forall k, extra = Some k -> List.length ws <= k) /\ Forall L ws
             /\ rest st = concat_str ws ++ rest st'.
Proof.
  intros Hf fuel. induction fuel as [|fuel IH]; intros extra st st' Hin.
  - destruct Hin as [<- | []]. exists []. simpl. repeat split; auto. intros; lia.
  - assert (Hstop : st' = st ->
                    exists ws, (forall k, extra = Some k -> List.length ws <= k)
                               /\ Forall L ws
                               /\ rest st = concat_str ws ++ rest st').
    { intros ->. exists []. simpl. repeat split; auto. intros; lia. }
    simpl in Hin. destruct extra as [[|k]|].
    + destruct Hin as [<- | []]. now apply Hstop.
    + apply in_app_or in Hin as [H | [<- | []]]; [|now apply Hstop].
      apply in_flat_map in H as (st1 & H1 & H2).
      apply Hf in H1 as (pre & Hr & HL).
      apply IH in H2 as (ws & Hlen & Hall & Hr').
      exists (pre :: ws). simpl. rewrite Hr, Hr', append_assoc.
      repeat split; auto. intros k' [= <-]. specialize (Hlen k eq_refl). lia.
    + apply in_app_or in Hin as [H | [<- | []]]; [|now apply Hstop].
      apply in_flat_map in H as (st1 & H1 & H2).
      apply Hf in H1 as (pre & Hr & HL).
      apply IH in H2 as (ws & Hlen & Hall & Hr').
      exists (pre :: ws). simpl. rewrite Hr, Hr', append_assoc.
      repeat split; auto. discriminate.
Qed.

Theorem m_sound (r : regex) :
  forall st st', In st' (m ic r st) ->
  exists pre, rest st = pre ++ rest st' /\ lang ic r pre.
Proof.
  induction r as [| p | items | r1 IH1 r2 IH2 | r1 IH1 r2 IH2
                  | lo hi r IH | j r IH | ];
    cbn [m]; intros st st' Hin.
  - destruct Hin as [<- | []]. exists "". split; [reflexivity | constructor].
  - apply in_step in Hin as (c & Hc & Hr & _). exists (String c "").
    split; [exact Hr | now constructor].
  - apply in_step in Hin as (c & Hc & Hr & _). exists (String c "").
    split; [exact Hr | now constructor].
  - apply in_flat_map in Hin as (st1 & H1 & H2).
    apply IH1 in H1 as (a & Ha & La). apply IH2 in H2 as (b & Hb & Lb).
    exists (a ++ b). rewrite Ha, Hb, append_assoc.
    split; [reflexivity | now constructor].
  - apply in_app_or in Hin as [H | H].
    + apply IH1 in H as (a & Ha & La). exists a. split; [exact Ha | now apply lang_alt_l].
    + apply IH2 in H as (b & Hb & Lb). exists b. split; [exact Hb | now apply lang_alt_r].
  - apply in_flat_map in Hin as (st1 & H1 & H2).
    apply (rep_min_sound _ (lang ic r) IH) in H1 as (ws1 & Hlen1 & Hall1 & Hr1).
    apply (rep_more_sound _ (lang ic r) IH) in H2 as (ws2 & Hlen2 & Hall2 & Hr2).
    exists (concat_str (ws1 ++ ws2)). split.
    + now rewrite concat_str_app, append_assoc, Hr1, Hr2.
    + apply lang_rep.
      * rewrite length_app. lia.
      * intros h ->. rewrite length_app. specialize (Hlen2 _ eq_refl). lia.
      * apply Forall_app. auto.
  - apply in_map_iff in Hin as (st1 & <- & H1).
    apply IH in H1 as (a & Ha & La). exists a. split; [exact Ha | now constructor].
  - destruct (at_boundary st); [|destruct Hin].
    destruct Hin as [<- | []]. exists "". split; [reflexivity | constructor].
Qed.

(** What a trailing group holds is the text its body consumed. *)
Lemma m_lead_and_group (r lead body : regex) (i : nat) :
  lead_and_group r = Some (lead, i, body) ->
  forall st st', In st' (m ic r st) ->
  exists pl g, rest st = pl ++ g ++ rest st'
               /\ lang ic lead pl /\ lang ic body g
               /\ lookup i (caps st') = Some g.
Proof.
  revert lead.
  induction r as [| p | items | r1 IH1 r2 IH2 | r1 IH1 r2 IH2
                  | lo hi r IH | j r IH | ];
    cbn [lead_and_group]; intros lead Hl st st' Hin; try discriminate.
  - destruct (lead_and_group r2) as [[[lead2 i2] body2]|]; [|discriminate].
    injection Hl as <- <- <-.
    cbn [m] in Hin. apply in_flat_map in Hin as (st1 & H1 & H2).
    apply m_sound in H1 as (a & Ha & La).
    destruct (IH2 lead2 eq_refl st1 st' H2) as (pl & g & Hr & Ll & Lb & Hg).
    exists (a ++ pl), g. rewrite Ha, Hr, append_assoc.
    repeat split; auto. now constructor.
  - injection Hl as <- <- <-.
    cbn [m] in Hin. apply in_map_iff in Hin as (st1 & <- & H1).
    apply m_sound in H1 as (g & Hr & Lg).
    exists "", g. simpl. rewrite Nat.eqb_refl, (consumed_prefix st st1 g Hr).
    repeat split; auto. constructor.
Qed.

Lemma search_from_split (r : regex) (text : string) :
  forall before pos mt,
    search_from ic r before text pos = Some mt ->
    exists skipped st st',
      text = skipped ++ rest st /\ In st' (m ic r st)
      /\ m_caps mt = caps st' /\ m_after mt = rest st'.
Proof.
  induction text as [|c text IH]; intros before pos mt; simpl.
  - destruct (m ic r (MState before "" [])) as [|st' l] eqn:E; [discriminate|].
    intros [= <-]. exists "", (MState before "" []), st'. rewrite E. simpl. auto.
  - destruct (m ic r (MState before (String c text) [])) as [|st' l] eqn:E.
    + intros H. apply IH in H as (sk & st & st' & Ht & Hin & Hc & Ha).
      exists (String c sk), st, st'. simpl. rewrite <- Ht. auto.
    + intros [= <-]. exists "", (MState before (String c text) []), st'.
      rewrite E. simpl. auto.
Qed.

(** *** The fuel of a repetition never runs out. *)

Lemma m_no_longer (r : regex) (st st' : mstate) :
  In st' (m ic r st) -> String.length (rest st') <= String.length (rest st).
Proof.
  intros H. apply m_sound in H as (pre & -> & _). rewrite length_append. lia.
Qed.

Lemma rep_min_no_longer (f : mstate -> list mstate) :
  (forall st st', In st' (f st) ->
                  String.length (rest st') <= String.length (rest st)) ->
  forall lo st st', In st' (rep_min f lo st) ->
                    String.length (rest st') <= String.length (rest st).
Proof.
  intros Hf.
  apply (rep_min_keeps
           (fun a b => String.length (rest b) <= String.length (rest a)) f);
    [intros; lia | intros; lia | exact Hf].
Qed.

Lemma rep_more_no_longer (f : mstate -> list mstate) :
  (forall st st', In st' (f st) ->
                  String.length (rest st') <= String.length (rest st)) ->
  forall fuel extra st st', In st' (rep_more f fuel extra st) ->
                            String.length (rest st') <= String.length (rest st).
Proof.
  intros Hf.
  apply (rep_more_keeps
           (fun a b => String.length (rest b) <= String.length (rest a)) f);
    [intros; lia | intros; lia | exact Hf].
Qed.

(** A consuming pattern leaves strictly less text. *)
Lemma m_consumes (r : regex) :
  consuming r = true ->
  forall st st', In st' (m ic r st) ->
                 String.length (rest st') < String.length (rest st).
Proof.
  induction r as [| p | items | r1 IH1 r2 IH2 | r1 IH1 r2 IH2
                  | lo hi r IH | j r IH | ];
    cbn [m consuming]; intros Hc st st' Hin; try discriminate.
  - apply in_step in Hin as (c & _ & -> & _). simpl. lia.
  - apply in_step in Hin as (c & _ & -> & _). simpl. lia.
  - apply in_flat_map in Hin as (st1 & H1 & H2).
    pose proof (m_no_longer r1 _ _ H1). pose proof (m_no_longer r2 _ _ H2).
    apply orb_prop in Hc as [Hc | Hc].
    + specialize (IH1 Hc _ _ H1). lia.
    + specialize (IH2 Hc _ _ H2). lia.
  - apply andb_prop in Hc as [Hc1 Hc2].
    apply in_app_or in Hin as [H | H]; eauto.
  - apply andb_prop in Hc as [Hlo Hc].
    destruct lo as [|lo]; [discriminate|].
    apply in_flat_map in Hin as (st2 & H2 & Hmore).
    cbn [rep_min] in H2. apply in_flat_map in H2 as (st1 & H1 & Hmin).
    specialize (IH Hc _ _ H1).
    pose proof (rep_min_no_longer _ (m_no_longer r) _ _ _ Hmin).
    pose proof (rep_more_no_longer _ (m_no_longer r) _ _ _ _ Hmore).
    lia.
  - apply in_map_iff in Hin as (st1 & <- & H1). simpl. now apply IH.
Qed.

(** With rounds that consume, any fuel above the length of the text
    gives the same matches. *)
Lemma rep_more_fuel (f : mstate -> list mstate) :
  (forall st st', In st' (f st) ->
                  String.length (rest st') < String.length (rest st)) ->
  forall fuel1 fuel2 extra st,
    String.length (rest st) < fuel1 ->
    String.length (rest st) < fuel2 ->
    rep_more f fuel1 extra st = rep_more f fuel2 extra st.
Proof.
  intros Hf fuel1.
  induction fuel1 as [|fuel1 IH]; intros fuel2 extra st H1 H2; [lia|].
  destruct fuel2 as [|fuel2]; [lia|].
  cbn [rep_more]. destruct extra as [[|k]|]; [reflexivity| |];
    (f_equal; apply flat_map_agree; intros st1 Hin;
     specialize (Hf _ _ Hin); apply IH; lia).
Qed.

(** The matcher gives a repetition one unit of fuel more than the text
    is long; for a repeated piece that consumes, more fuel changes
    nothing. *)
Theorem m_fuel_enough (lo : nat) (hi : option nat) (r : regex) (st : mstate)
        (k : nat) :
  consuming r = true ->
  m ic (Rep lo hi r) st
  = flat_map (rep_more (m ic r) (S (String.length (rest st)) + k)
                       (extra_rounds lo hi))
             (rep_min (m ic r) lo st).
Proof.
  intros Hc. cbn [m]. apply flat_map_agree. intros st1 Hin.
  pose proof (rep_min_no_longer _ (m_no_longer r) _ _ _ Hin).
  apply rep_more_fuel; [exact (m_consumes r Hc) | lia | lia].
Qed.

(** Every repetition in the patterns of the repository repeats a piece
    that consumes. *)
Lemma patterns_bounded :
  forallb bounded
    ([NlpExtractor.adult_male_pattern; NlpExtractor.adult_female_pattern;
      NlpExtractor.minor_female_pattern; NlpExtractor.minor_male_pattern;
      NlpExtractor.minor_pattern; NlpExtractor.route_pattern]
     ++ NlpExtractor.name_patterns ++ NlpExtractor.date_patterns
     ++ NlpExtractor.amount_patterns ++ NlpExtractor.pnr_patterns
     ++ QueryParser.route_patterns ++ QueryParser.date_patterns
     ++ QueryParser.male_patterns ++ QueryParser.female_patterns
     ++ QueryParser.minor_patterns)
  = true.
Proof. reflexivity. Qed.

(** A match of a pattern that ends in a group: the text splits into what
    was skipped, the lead, the group and what follows. *)
Lemma search_lead_and_group (r lead body : regex) (i : nat)
      (text : string) (mt : rmatch) :
  lead_and_group r = Some (lead, i, body) ->
  search ic r text = Some mt ->
  exists skipped pl g,
    text = skipped ++ pl ++ g ++ m_after mt
    /\ lang ic lead pl /\ lang ic body g /\ group i mt = Some g.
Proof.
  intros Hl Hs.
  apply search_from_split in Hs as (sk & st & st' & Ht & Hin & Hc & Ha).
  destruct (m_lead_and_group r lead body i Hl st st' Hin)
    as (pl & g & Hr & Ll & Lb & Hg).
  exists sk, pl, g. unfold group. rewrite Ht, Hr, Ha, Hc. auto.
Qed.

End Matcher.

(** ** Dicts *)

Lemma get_set_same {V : Type} (k : string) (v : V) (dct : PyDict.dict V) :
  PyDict.get k (PyDict.set k v dct) = Some v.
Proof.
  induction dct as [|[k' v'] dct IH]; simpl.
  - now rewrite String.eqb_refl.
  - destruct (String.eqb k' k) eqn:E; simpl; now rewrite E.
Qed.

Lemma get_set_other {V : Type} (k k' : string) (v : V) (dct : PyDict.dict V) :
  String.eqb k' k = false ->
  PyDict.get k (PyDict.set k' v dct) = PyDict.get k dct.
Proof.
  intros Hk. induction dct as [|[k0 v0] dct IH]; simpl.
  - now rewrite Hk.
  - destruct (String.eqb k0 k') eqn:E; simpl.
    + apply String.eqb_eq in E. subst k0. now rewrite Hk.
    + now rewrite IH.
Qed.

Lemma get_set {V : Type} (k k' : string) (v : V) (dct : PyDict.dict V) :
  PyDict.get k (PyDict.set k' v dct)
  = if String.eqb k' k then Some v else PyDict.get k dct.
Proof.
  destruct (String.eqb k' k) eqn:E.
  - apply String.eqb_eq in E. subst. apply get_set_same.
  - now apply get_set_other.
Qed.

Lemma get_In {V : Type} (k : string) (v : V) (dct : PyDict.dict V) :
  PyDict.get k dct = Some v -> In (k, v) dct.
Proof.
  induction dct as [|[k' v'] dct IH]; simpl; [discriminate|].
  destruct (String.eqb k' k) eqn:E.
  - apply String.eqb_eq in E. subst k'. intros [= ->]. now left.
  - intros H. right. now apply IH.
Qed.

Lemma set_new {V : Type} (k : string) (v : V) (dct : PyDict.dict V) :
  PyDict.get k dct = None -> PyDict.set k v dct = (dct ++ [(k, v)])%list.
Proof.
  induction dct as [|[k' v'] dct IH]; simpl; [reflexivity|].
  destruct (String.eqb k' k); [discriminate|]. intros H. now rewrite IH.
Qed.

Lemma get_app_none {V : Type} (k : string) (a b : PyDict.dict V) :
  PyDict.get k a = None -> PyDict.get k (a ++ b)%list = PyDict.get k b.
Proof.
  induction a as [|[k' v'] a IH]; simpl; [reflexivity|].
  destruct (String.eqb k' k); [discriminate | exact IH].
Qed.

Lemma get_not_key {V : Type} (k : string) (dct : PyDict.dict V) :
  ~ In k (PyDict.keys dct) -> PyDict.get k dct = None.
Proof.
  induction dct as [|[k' v'] dct IH]; simpl; [reflexivity|].
  intros H. destruct (String.eqb k' k) eqn:E.
  - apply String.eqb_eq in E. tauto.
  - apply IH. tauto.
Qed.

(** ** Passenger counts of [extract_passenger_info] *)

Lemma digit_class (c : ascii) :
  Re.cls_match true [Re.Digit] c = true -> PyStr.is_digit c = true.
Proof. unfold Re.cls_match. simpl. now rewrite orb_false_r. Qed.

Lemma counting_digits (tail : Re.regex) :
  Re.captures 1 tail = false ->
  Re.counting true (Re.cls_match true [Re.Digit])
              (Re.Seq (Re.Grp 1 (Re.plus Re.d)) tail).
Proof. intros H. exists Re.d, tail. repeat split; auto. Qed.

(** A block of [extract_passenger_info] never raises: it leaves the
    mapping alone when its pattern does not occur, and stores a count
    under its key when it does. *)
Lemma count_into_spec (pat : Re.regex) (key text : string) (p : pdict) :
  Re.counting true (Re.cls_match true [Re.Digit]) pat ->
  exists p', count_into pat key text p = Ok p'
             /\ ((occurs pat text = false /\ p' = p)
                 \/ (occurs pat text = true /\ exists n, p' = PyDict.set key n p)).
Proof.
  intros Hpat. unfold count_into, occurs.
  destruct (Re.search true pat text) as [mt|] eqn:E; [|eauto].
  destruct (counting_search true _ pat text mt Hpat E) as (g & Hg & Hne & Hall).
  rewrite Hg. simpl.
  destruct (int_of_digits g Hne) as [n Hn].
  - eapply all_chars_weaken; [apply digit_class | exact Hall].
  - rewrite Hn. simpl. eauto 6.
Qed.

Lemma extract_passenger_info_sum (text : string) :
  exists p, extract_passenger_info text = Ok p
            /\ ((count_found text = false /\ p = [])
                \/ (count_found text = true
                    /\ PyDict.get "total" p = Some (count_fields p))).
Proof.
  unfold extract_passenger_info, count_found. cbn [existsb].
  destruct (count_into_spec adult_male_pattern "adult_male" text [])
    as (p1 & -> & H1); [now apply counting_digits|].
  destruct (count_into_spec adult_female_pattern "adult_female" text p1)
    as (p2 & E2 & H2); [now apply counting_digits|].
  destruct (count_into_spec minor_female_pattern "minor_female" text p2)
    as (p3 & E3 & H3); [now apply counting_digits|].
  destruct (count_into_spec minor_male_pattern "minor_male" text p3)
    as (p4 & E4 & H4); [now apply counting_digits|].
  destruct (count_into_spec minor_pattern "minor" text p4)
    as (p5 & E5 & H5); [now apply counting_digits|].
  cbn [bind]. rewrite E2. cbn [bind]. rewrite E3. cbn [bind].
  rewrite E4. cbn [bind]. rewrite E5. cbn [bind].
  eexists. split; [reflexivity|].
  destruct H1 as [[-> ->] | [-> [n1 ->]]];
    destruct H2 as [[-> ->] | [-> [n2 ->]]];
    destruct H3 as [[-> ->] | [-> [n3 ->]]];
    destruct H4 as [[-> ->] | [-> [n4 ->]]];
    destruct H5 as [[-> ->] | [-> [n5 ->]]];
    (left; split; reflexivity) ||
    (right; split; [reflexivity|];
     cbv [count_fields Main.count QueryParser.get_or py_sum]; simpl;
     f_equal; lia).
Qed.

(** ** Passenger counts of [parse_flight_query] *)

Lemma counting_ds (tail : Re.regex) :
  Re.captures 1 tail = false ->
  Re.counting false (Ascii.eqb "d") (Re.Seq ds tail).
Proof. intros H. exists (Re.Chr "d"), tail. repeat split; auto. Qed.

Lemma male_patterns_count : Forall (Re.counting false (Ascii.eqb "d")) male_patterns.
Proof. repeat constructor; now apply counting_ds. Qed.

Lemma female_patterns_count :
  Forall (Re.counting false (Ascii.eqb "d")) female_patterns.
Proof. repeat constructor; now apply counting_ds. Qed.

Lemma minor_patterns_count :
  Forall (Re.counting false (Ascii.eqb "d")) minor_patterns.
Proof. repeat constructor; now apply counting_ds. Qed.

(** Whatever a passenger pattern of the query parser captures, [int]
    rejects. *)
Lemma ds_match_raises (patterns : list Re.regex) (text : string) (mt : Re.rmatch) :
  Forall (Re.counting false (Ascii.eqb "d")) patterns ->
  Re.first_match false patterns text = Some mt ->
  exists g, Re.group_str 1 mt = Ok g /\ PyStr.int g = Raise ValueError.
Proof.
  intros Hp Hm.
  destruct (counting_first_match false _ patterns text mt Hp Hm)
    as (g & Hg & Hne & Hall).
  exists g. split; [exact Hg | now apply int_of_ds].
Qed.

Lemma query_count_returns (patterns : list Re.regex) (key q : string)
      (p p' : pdict) :
  Forall (Re.counting false (Ascii.eqb "d")) patterns ->
  query_count patterns key q p = Ok p' ->
  Re.first_match false patterns q = None /\ p' = p.
Proof.
  intros Hp. unfold query_count.
  destruct (Re.first_match false patterns q) as [mt|] eqn:E.
  - destruct (ds_match_raises patterns q mt Hp E) as (g & -> & Hi).
    simpl. rewrite Hi. discriminate.
  - intros [= <-]. auto.
Qed.

Lemma query_minors_returns (q : string) (p p' : pdict) :
  query_minors q p = Ok p' ->
  Re.first_match false minor_patterns q = None /\ p' = p.
Proof.
  unfold query_minors.
  destruct (Re.first_match false minor_patterns q) as [mt|] eqn:E.
  - destruct (ds_match_raises _ q mt minor_patterns_count E) as (g & -> & Hi).
    simpl. rewrite Hi. discriminate.
  - intros [= <-]. auto.
Qed.

(** [query_passengers] returns only when nothing matched, and then it
    returns the empty mapping. *)
Lemma query_passengers_returns (q : string) (p : pdict) :
  query_passengers q = Ok p -> p = [].
Proof.
  unfold query_passengers.
  destruct (query_count male_patterns "adult_male" q []) as [p1|e] eqn:E1;
    [|discriminate].
  apply query_count_returns in E1 as [_ ->]; [|exact male_patterns_count].
  cbn [bind].
  destruct (query_count female_patterns "adult_female" q []) as [p2|e] eqn:E2;
    [|discriminate].
  apply query_count_returns in E2 as [_ ->]; [|exact female_patterns_count].
  cbn [bind]. intros H. now apply query_minors_returns in H as [_ ->].
Qed.

(** The record [parse_flight_query] returns holds [passengers], and it
    is what [finish_passengers] made of the three loops' mapping. *)
Lemma parse_flight_query_passengers (fuzzy : string -> option date)
      (query current_date : string) (res : entities_t) :
  parse_flight_query fuzzy query current_date = Ok res ->
  exists p, query_passengers (PyStr.lower query) = Ok p
            /\ PyDict.get "passengers" res = Some (VPax (finish_passengers p)).
Proof.
  unfold parse_flight_query.
  destruct (query_route _ _) as [r1|e]; [|discriminate]. cbn [bind].
  destruct (query_date _ _ _ _) as [r2|e]; [|discriminate]. cbn [bind].
  destruct (query_passengers _) as [p|e]; [|discriminate]. cbn [bind].
  intros [= <-]. exists p. split; [reflexivity | apply get_set_same].
Qed.

Lemma parse_flight_query_default (fuzzy : string -> option date)
      (query current_date : string) (res : entities_t) :
  parse_flight_query fuzzy query current_date = Ok res ->
  PyDict.get "passengers" res = Some (VPax one_adult_male).
Proof.
  intros H. apply parse_flight_query_passengers in H as (p & Hp & ->).
  now rewrite (query_passengers_returns _ _ Hp).
Qed.

(** ** [extract_entities] *)

Lemma group_str_group (i : nat) (mt : Re.rmatch) (g : string) :
  Re.group_str i mt = Ok g -> Re.group i mt = Some g.
Proof.
  unfold Re.group_str. destruct (Re.group i mt); [now intros [= ->] | discriminate].
Qed.

Ltac first_match_block :=
  match goal with
  | |- context [Re.first_match ?ic ?ps ?t] =>
      let mt := fresh "mt" in
      let E := fresh "E" in
      let g := fresh "g" in
      let Hg := fresh "Hg" in
      destruct (Re.first_match ic ps t) as [mt|] eqn:E;
      [ destruct (fills_first_match ic 1 ps t mt eq_refl E) as [g Hg];
        rewrite Hg, ?(group_str_group 1 mt g Hg)
      | ];
      cbn [bind option_map]
  end.

(** [extract_entities] never raises, and each category holds what its
    own block found. *)
Lemma extract_entities_fields (text : string) :
  exists e, extract_entities text = Ok e
    /\ PyDict.get "name" e = field_of true name_patterns text PyStr.strip
    /\ PyDict.get "date" e = field_of false NlpExtractor.date_patterns text (fun g => g)
    /\ PyDict.get "amount" e = field_of true amount_patterns text PyStr.strip
    /\ PyDict.get "booking_id" e = field_of false pnr_patterns text (fun g => g)
    /\ PyDict.get "passengers" e = passengers_field text.
Proof.
  unfold extract_entities, field_of, passengers_field.
  destruct (extract_passenger_info_sum text) as (p & Hp & _). rewrite Hp.
  do 4 first_match_block.
  all: destruct (Re.search true route_pattern text) as [rt|] eqn:Er;
    [ destruct (fills_search true 1 route_pattern text rt eq_refl Er) as [o ->];
      destruct (fills_search true 2 route_pattern text rt eq_refl Er) as [dst ->]
    | ];
    cbn [bind];
    destruct p as [|kv p]; cbn [PyDict.truthy];
    eexists; (split; [reflexivity|]); repeat split; reflexivity.
Qed.

Lemma extract_entities_total (text : string) :
  exists e, extract_entities text = Ok e.
Proof. destruct (extract_entities_fields text) as (e & He & _). eauto. Qed.

(** ** The calendar *)

Lemma days_before_year_nonneg (y : Z) : (1 <= y)%Z -> (0 <= days_before_year y)%Z.
Proof.
  intros Hy. unfold days_before_year. cbv zeta.
  assert (0 <= (y - 1) / 400)%Z by (apply Z.div_pos; lia).
  assert ((y - 1) / 100 <= (y - 1) / 4)%Z.
  { apply Z.div_le_compat_l; lia. }
  assert (0 <= (y - 1) / 4)%Z by (apply Z.div_pos; lia).
  nia.
Qed.

Lemma month_cases (mo : Z) :
  (1 <= mo <= 12)%Z ->
  In mo [1; 2; 3; 4; 5; 6; 7; 8; 9; 10; 11; 12]%Z.
Proof.
  intros H. simpl.
  assert (mo = 1 \/ mo = 2 \/ mo = 3 \/ mo = 4 \/ mo = 5 \/ mo = 6 \/ mo = 7
          \/ mo = 8 \/ mo = 9 \/ mo = 10 \/ mo = 11 \/ mo = 12)%Z by lia.
  intuition auto.
Qed.

Lemma days_before_month_nonneg (y mo : Z) :
  (1 <= mo <= 12)%Z -> (0 <= days_before_month y mo)%Z.
Proof.
  intros H. apply month_cases in H. simpl in H.
  unfold days_before_month.
  repeat (destruct H as [<- | H]; [destruct (is_leap y); vm_compute; discriminate|]).
  destruct H.
Qed.

Lemma valid_bounds (dt : date) :
  valid dt = true ->
  (1 <= year dt <= 9999 /\ 1 <= month dt <= 12
   /\ 1 <= day dt <= days_in_month (year dt) (month dt))%Z.
Proof.
  unfold valid, MINYEAR, MAXYEAR. intros H.
  repeat (apply andb_prop in H as [H ?]).
  repeat match goal with
         | H : (_ <=? _)%Z = true |- _ => apply Z.leb_le in H
         end.
  lia.
Qed.

Lemma toordinal_pos (dt : date) : valid dt = true -> (1 <= toordinal dt)%Z.
Proof.
  intros H. apply valid_bounds in H as (Hy & Hm & Hd).
  unfold toordinal.
  pose proof (days_before_year_nonneg (year dt) (proj1 Hy)).
  pose proof (days_before_month_nonneg (year dt) (month dt) Hm).
  lia.
Qed.

Lemma strptime_valid (s : string) (dt : date) :
  strptime s = Ok dt -> valid dt = true.
Proof.
  unfold strptime.
  destruct (parse_year s) as [[y s1]|]; [|discriminate].
  destruct (dash s1) as [s2|]; [|discriminate].
  destruct (parse_month s2) as [[mo s3]|]; [|discriminate].
  destruct (parse_day s3) as [dd|]; [|discriminate].
  destruct (valid (Date y mo dd)) eqn:E; [|discriminate].
  now intros [= <-].
Qed.

(** ** [parse_date] and the blocks of [parse_flight_query] *)

Lemma or7_range (x : Z) : (0 <= x < 7)%Z -> (1 <= or7 x <= 7)%Z.
Proof. unfold or7. destruct (Z.eqb_spec x 0); lia. Qed.

Lemma days_ahead_range (names : list (string * Z)) (text : string) (today : Z) :
  (1 <= days_ahead names text today <= 7)%Z.
Proof.
  induction names as [|[name target] names IH]; simpl; [lia|].
  destruct (PyStr.contains name text); [|exact IH].
  apply or7_range. apply Z.mod_pos_bound. lia.
Qed.

Lemma add_days_returns (dt : date) (n : Z) :
  valid dt = true -> (0 <= n)%Z -> (toordinal dt + n <= MAXORDINAL)%Z ->
  add_days dt n = Ok (fromordinal (toordinal dt + n)).
Proof.
  intros Hv Hn Hmax. unfold add_days. cbv zeta.
  pose proof (toordinal_pos dt Hv).
  replace (0 <? toordinal dt + n)%Z with true by (symmetry; apply Z.ltb_lt; lia).
  replace (toordinal dt + n <=? MAXORDINAL)%Z with true
    by (symmetry; apply Z.leb_le; lia).
  reflexivity.
Qed.

(** With a reference date at least a week before the last day of the
    calendar, [parse_date] returns on every text. *)
Lemma parse_date_returns (fuzzy : string -> option date)
      (text current_date : string) (d0 : date) :
  strptime current_date = Ok d0 ->
  (toordinal d0 + 7 <= MAXORDINAL)%Z ->
  exists out, parse_date fuzzy text current_date = Ok out.
Proof.
  intros Hs Hmax. pose proof (strptime_valid _ _ Hs) as Hv.
  unfold parse_date. rewrite Hs. cbn [bind].
  destruct (PyStr.contains "today" _); [eauto|].
  destruct (PyStr.contains "tomorrow" _).
  { rewrite add_days_returns by (auto; lia). cbn [bind]. eauto. }
  destruct (PyStr.contains "next" _).
  { pose proof (days_ahead_range weekday_names (PyStr.lower text) (weekday d0)).
    rewrite add_days_returns by (auto; lia). cbn [bind]. eauto. }
  destruct (fuzzy text); eauto.
Qed.

Lemma query_route_returns (q : string) (res : entities_t) :
  exists res', query_route q res = Ok res'.
Proof.
  unfold query_route.
  destruct (Re.first_match false route_patterns q) as [mt|] eqn:E; [|eauto].
  destruct (fills_first_match false 1 route_patterns q mt eq_refl E) as [g1 ->].
  destruct (fills_first_match false 2 route_patterns q mt eq_refl E) as [g2 ->].
  cbn [bind]. eauto.
Qed.

Lemma query_date_returns (fuzzy : string -> option date)
      (q current_date : string) (d0 : date) (res : entities_t) :
  strptime current_date = Ok d0 ->
  (toordinal d0 + 7 <= MAXORDINAL)%Z ->
  exists res', query_date fuzzy q current_date res = Ok res'.
Proof.
  intros Hs Hmax. unfold query_date.
  destruct (Re.first_match false QueryParser.date_patterns q) as [mt|] eqn:E; [|eauto].
  destruct (fills_first_match false 1 QueryParser.date_patterns q mt eq_refl E)
    as [g ->].
  cbn [bind].
  destruct (parse_date_returns fuzzy g current_date d0 Hs Hmax) as [out ->].
  cbn [bind]. eauto.
Qed.

(** The date block returns when the query holds no date phrase, or when
    the reference date is one [strptime] accepts, at least a week before
    the last day of the calendar. *)
Lemma query_date_safe (fuzzy : string -> option date)
      (q current_date : string) (res : entities_t) :
  date_block_safe q current_date ->
  exists res', query_date fuzzy q current_date res = Ok res'.
Proof.
  intros [Hnone | (d0 & Hs & Hmax)].
  - unfold query_date. rewrite Hnone. eauto.
  - now apply (query_date_returns fuzzy q current_date d0).
Qed.

(** When the three passenger loops found nothing, the parser returns,
    and with the one-adult-male default. *)
Lemma parse_flight_query_no_count (fuzzy : string -> option date)
      (query current_date : string) :
  query_passengers (PyStr.lower query) = Ok [] ->
  date_block_safe (PyStr.lower query) current_date ->
  exists res, parse_flight_query fuzzy query current_date = Ok res
              /\ PyDict.get "passengers" res = Some (VPax one_adult_male).
Proof.
  intros Hp Hsafe. unfold parse_flight_query.
  destruct (query_route_returns (PyStr.lower query)
              [("travel_intent", VStr "one_way");
               ("passengers", VPax [("total", 0%Z)])]) as [r1 ->].
  cbn [bind].
  destruct (query_date_safe fuzzy (PyStr.lower query) current_date
              (query_intent (PyStr.lower query) r1) Hsafe) as [r2 ->].
  cbn [bind]. rewrite Hp. cbn [bind].
  eexists. split; [reflexivity | apply get_set_same].
Qed.

(* ================================================================== *)
(** * Passenger counts *)

(** ** The total is the sum of the counts *)

Lemma py_sum_cons (v : Z) (l : list Z) : py_sum (v :: l) = (v + py_sum l)%Z.
Proof.
  unfold py_sum. cbn [fold_left].
  assert (K : forall l a, fold_left Z.add l a = (a + fold_left Z.add l 0)%Z).
  { clear. induction l as [|x l IH]; intros a; cbn [fold_left]; [lia|].
    rewrite (IH (a + x)%Z), (IH (0 + x)%Z). lia. }
  rewrite (K l (0 + v)%Z). lia.
Qed.

Lemma py_sum_app (a b : list Z) : py_sum (a ++ b)%list = (py_sum a + py_sum b)%Z.
Proof.
  induction a as [|x a IH]; [reflexivity|].
  cbn [app]. rewrite !py_sum_cons, IH. lia.
Qed.

Lemma count_absent (k : string) (p : pdict) :
  ~ In k (PyDict.keys p) -> Main.count k p = 0%Z.
Proof.
  intros H. unfold Main.count, get_or. now rewrite (get_not_key k p H).
Qed.

Lemma count_cons (k k' : string) (v : Z) (p : pdict) :
  Main.count k ((k', v) :: p)
  = if String.eqb k' k then v else Main.count k p.
Proof.
  unfold Main.count, get_or. cbn [PyDict.get]. now destruct (String.eqb k' k).
Qed.

(** In a mapping of distinct categories the sum of the values is the sum
    of the five count fields. *)
Lemma count_mapping_sum (p : pdict) :
  count_mapping p -> py_sum (PyDict.values p) = count_fields p.
Proof.
  intros [Hnd Hall]. induction Hall as [|[k v] p [Hk _] _ IH]; [reflexivity|].
  cbn [PyDict.keys map fst] in Hnd. inversion Hnd as [|? ? Hfresh Hnd']; subst.
  cbn [PyDict.values map snd]. rewrite py_sum_cons.
  change (map snd p) with (PyDict.values p). rewrite (IH Hnd').
  pose proof (count_absent k p Hfresh) as H0.
  unfold count_fields. rewrite !count_cons.
  cbn [fst] in Hk. unfold categories in Hk. cbn [In] in Hk.
  repeat (destruct Hk as [<- | Hk]; [cbn [String.eqb Ascii.eqb Bool.eqb andb]; lia|]).
  destruct Hk.
Qed.

Lemma count_mapping_no_total (p : pdict) :
  count_mapping p ->
  filter (fun kv => negb (String.eqb (fst kv) "total")) p = p
  /\ PyDict.get "total" p = None.
Proof.
  intros [_ Hall]. induction Hall as [|[k v] p [Hk _] _ [IHf IHg]]; [split; reflexivity|].
  cbn [fst] in Hk. unfold categories in Hk. cbn [In] in Hk.
  cbn [filter fst PyDict.get].
  repeat (destruct Hk as [<- | Hk];
          [cbn [String.eqb Ascii.eqb Bool.eqb andb negb]; now rewrite IHf|]).
  destruct Hk.
Qed.

Lemma count_nonneg (k : string) (p : pdict) :
  Forall (fun kv => (0 <= snd kv)%Z) p -> (0 <= Main.count k p)%Z.
Proof.
  induction 1 as [|[k' v] p Hv _ IH]; [unfold Main.count, get_or; simpl; lia|].
  rewrite count_cons. cbn [snd] in Hv. destruct (String.eqb k' k); lia.
Qed.

Lemma count_app_total (k : string) (n : Z) (p : pdict) :
  String.eqb "total" k = false ->
  Main.count k (p ++ [("total", n)])%list = Main.count k p.
Proof.
  intros Hk. induction p as [|[k' v] p IH].
  - cbn [app]. rewrite count_cons, Hk. reflexivity.
  - cbn [app]. rewrite !count_cons, IH. reflexivity.
Qed.

Lemma count_set (k k' : string) (n : Z) (p : pdict) :
  Main.count k (PyDict.set k' n p)
  = if String.eqb k' k then n else Main.count k p.
Proof.
  unfold Main.count, get_or. rewrite get_set. now destruct (String.eqb k' k).
Qed.

(** The last step of the query parser on any mapping the loops can
    build: [total] becomes the sum of the counts, and a sum of zero
    becomes one adult male. *)
Lemma finish_passengers_sum (p : pdict) :
  count_mapping p ->
  PyDict.get "total" (finish_passengers p)
  = Some (count_fields (finish_passengers p))
  /\ (count_fields p <> 0%Z ->
      finish_passengers p = (p ++ [("total", count_fields p)])%list)
  /\ (count_fields p = 0%Z ->
      PyDict.get "total" (finish_passengers p) = Some 1%Z
      /\ PyDict.get "adult_male" (finish_passengers p) = Some 1%Z).
Proof.
  intros Hp. destruct (count_mapping_no_total p Hp) as [Hf Hg].
  pose proof (count_mapping_sum p Hp) as Hs. destruct Hp as [_ Hall].
  assert (Hnn : Forall (fun kv => (0 <= snd kv)%Z) p).
  { eapply Forall_impl; [|exact Hall]. intros kv [_ H]. exact H. }
  unfold finish_passengers, sum_but_total. rewrite Hf.
  change (map snd p) with (PyDict.values p). rewrite Hs.
  rewrite (set_new "total" (count_fields p) p Hg). cbv zeta.
  assert (Ht : get_or "total" 0%Z (p ++ [("total", count_fields p)])%list
               = count_fields p).
  { unfold get_or. rewrite get_app_none by exact Hg. reflexivity. }
  rewrite Ht.
  assert (Hsame : count_fields (p ++ [("total", count_fields p)])%list
                  = count_fields p).
  { unfold count_fields. now rewrite !count_app_total by reflexivity. }
  destruct (Z.eqb_spec (count_fields p) 0) as [E | E].
  - assert (Hq : PyDict.get "total"
                   (PyDict.set "total" 1%Z
                      (PyDict.set "adult_male" 1%Z
                         (p ++ [("total", count_fields p)])%list)) = Some 1%Z)
      by apply get_set_same.
    split; [|split; [intros H; now destruct H|]].
    + rewrite Hq. f_equal. unfold count_fields. rewrite !count_set.
      cbn [String.eqb Ascii.eqb Bool.eqb andb].
      rewrite !count_app_total by reflexivity.
      unfold count_fields in E.
      pose proof (count_nonneg "adult_male" p Hnn).
      pose proof (count_nonneg "adult_female" p Hnn).
      pose proof (count_nonneg "minor" p Hnn).
      pose proof (count_nonneg "minor_male" p Hnn).
      pose proof (count_nonneg "minor_female" p Hnn).
      lia.
    + intros _. split; [exact Hq|].
      rewrite get_set_other by reflexivity. apply get_set_same.
  - split; [|split; [intros _; reflexivity | intros H; now destruct E]].
    rewrite get_app_none by exact Hg. cbn [PyDict.get]. rewrite String.eqb_refl.
    now rewrite Hsame.
Qed.

(** When [extract_passenger_info] found a count, [total] is the sum of
    the five count fields, which is the sum of every other value of the
    mapping. *)
Lemma extract_passenger_info_total (text : string) (p : pdict) :
  extract_passenger_info text = Ok p ->
  (count_found text = false /\ p = [])
  \/ (count_found text = true
      /\ PyDict.get "total" p = Some (count_fields p)
      /\ count_fields p = sum_but_total p).
Proof.
  unfold extract_passenger_info, count_found. cbn [existsb].
  destruct (count_into_spec adult_male_pattern "adult_male" text [])
    as (p1 & -> & H1); [now apply counting_digits|].
  destruct (count_into_spec adult_female_pattern "adult_female" text p1)
    as (p2 & E2 & H2); [now apply counting_digits|].
  destruct (count_into_spec minor_female_pattern "minor_female" text p2)
    as (p3 & E3 & H3); [now apply counting_digits|].
  destruct (count_into_spec minor_male_pattern "minor_male" text p3)
    as (p4 & E4 & H4); [now apply counting_digits|].
  destruct (count_into_spec minor_pattern "minor" text p4)
    as (p5 & E5 & H5); [now apply counting_digits|].
  cbn [bind]. rewrite E2. cbn [bind]. rewrite E3. cbn [bind].
  rewrite E4. cbn [bind]. rewrite E5. cbn [bind].
  intros [= <-].
  destruct H1 as [[-> ->] | [-> [n1 ->]]];
    destruct H2 as [[-> ->] | [-> [n2 ->]]];
    destruct H3 as [[-> ->] | [-> [n3 ->]]];
    destruct H4 as [[-> ->] | [-> [n4 ->]]];
    destruct H5 as [[-> ->] | [-> [n5 ->]]];
    (left; split; reflexivity) ||
    (right; split; [reflexivity|];
     cbv [count_fields Main.count QueryParser.get_or py_sum sum_but_total]; simpl;
     split; [f_equal|]; lia).
Qed.

(** C2.  Whatever mapping [extract_passenger_info] returns for a text:
    when none of its five patterns occurs in the text the mapping is
    empty, without a [total] key; when one does, [total] is the sum of
    the five count fields, an absent field counting 0, which is the sum
    of every other value of the mapping.  The query parser closes its
    mapping the same way: for every mapping of distinct categories and
    counts that are not negative, its last step stores under [total] the
    sum of the count fields, leaving the counts as they are when that
    sum is not zero and making it one adult male when it is; and the
    [passengers] of every record [parse_flight_query] returns is what
    that step made of the mapping of its three loops. *)
Theorem passenger_total_is_sum :
  (forall (text : string) (p : pdict),
      extract_passenger_info text = Ok p ->
      (count_found text = false /\ p = [])
      \/ (count_found text = true
          /\ PyDict.get "total" p = Some (count_fields p)
          /\ count_fields p = sum_but_total p))
  /\ (forall p : pdict,
         count_mapping p ->
         PyDict.get "total" (finish_passengers p)
         = Some (count_fields (finish_passengers p))
         /\ (count_fields p <> 0%Z ->
             finish_passengers p = (p ++ [("total", count_fields p)])%list)
         /\ (count_fields p = 0%Z ->
             PyDict.get "total" (finish_passengers p) = Some 1%Z
             /\ PyDict.get "adult_male" (finish_passengers p) = Some 1%Z))
  /\ (forall (fuzzy : string -> option date) (query current_date : string)
             (res : entities_t),
         parse_flight_query fuzzy query current_date = Ok res ->
         exists p0,
           query_passengers (PyStr.lower query) = Ok p0
           /\ count_mapping p0
           /\ PyDict.get "passengers" res = Some (VPax (finish_passengers p0))
           /\ PyDict.get "total" (finish_passengers p0)
              = Some (count_fields (finish_passengers p0))).
Proof.
  split; [exact extract_passenger_info_total|]. split; [exact finish_passengers_sum|].
  intros fuzzy query current_date res H.
  destruct (parse_flight_query_passengers fuzzy query current_date res H)
    as (p0 & Hq & Hres).
  pose proof (query_passengers_returns _ _ Hq) as ->.
  assert (Hm : count_mapping []) by (split; constructor).
  exists []. split; [exact Hq|]. split; [exact Hm|]. split; [exact Hres|].
  exact (proj1 (finish_passengers_sum [] Hm)).
Qed.

Lemma passenger_total_is_sum_witness :
  (extract_passenger_info "2 men with 3 kids"
   = Ok [("adult_male", 2%Z); ("minor", 3%Z); ("total", 5%Z)]
   /\ ((count_found "2 men with 3 kids" = false
        /\ [("adult_male", 2%Z); ("minor", 3%Z); ("total", 5%Z)] = [])
       \/ (count_found "2 men with 3 kids" = true
           /\ PyDict.get "total" [("adult_male", 2%Z); ("minor", 3%Z); ("total", 5%Z)]
              = Some (count_fields
                        [("adult_male", 2%Z); ("minor", 3%Z); ("total", 5%Z)])
           /\ count_fields [("adult_male", 2%Z); ("minor", 3%Z); ("total", 5%Z)]
              = sum_but_total
                  [("adult_male", 2%Z); ("minor", 3%Z); ("total", 5%Z)])))
  /\ (count_mapping [("adult_female", 2%Z); ("minor", 1%Z)]
      /\ count_fields [("adult_female", 2%Z); ("minor", 1%Z)] <> 0%Z
      /\ finish_passengers [("adult_female", 2%Z); ("minor", 1%Z)]
         = ([("adult_female", 2%Z); ("minor", 1%Z)]
            ++ [("total", count_fields [("adult_female", 2%Z); ("minor", 1%Z)])])%list).
Proof.
  assert (Hm : count_mapping [("adult_female", 2%Z); ("minor", 1%Z)]).
  { split.
    - repeat constructor; simpl; intuition discriminate.
    - repeat constructor; simpl; auto 8; lia. }
  split.
  - split; [vm_compute; reflexivity|].
    apply (proj1 passenger_total_is_sum "2 men with 3 kids").
    vm_compute; reflexivity.
  - split; [exact Hm|]. split; [vm_compute; discriminate|].
    apply (proj1 (proj2 (proj1 (proj2 passenger_total_is_sum) _ Hm))).
    vm_compute; discriminate.
Defined.

(** C10.  Whenever [parse_flight_query] returns, the [passengers] it
    returns is the mapping [{adult_male: 1, total: 1}]: whatever a
    passenger pattern of the query parser matches, its group 1 is a run
    of the letter d, on which [int] raises [ValueError], so no call
    returns with a parsed count. *)
Theorem parsed_passengers_are_the_default :
  (forall (fuzzy : string -> option date) (query current_date : string)
          (res : entities_t),
      parse_flight_query fuzzy query current_date = Ok res ->
      PyDict.get "passengers" res = Some (VPax one_adult_male))
  /\ (forall (patterns : list Re.regex) (text : string) (mt : Re.rmatch),
         In patterns [male_patterns; female_patterns; minor_patterns] ->
         Re.first_match false patterns text = Some mt ->
         exists g, Re.group_str 1 mt = Ok g /\ PyStr.int g = Raise ValueError).
Proof.
  split.
  - exact parse_flight_query_default.
  - intros patterns text mt Hin Hm.
    apply (ds_match_raises patterns text mt); [|exact Hm].
    destruct Hin as [<- | [<- | [<- | []]]].
    + exact male_patterns_count.
    + exact female_patterns_count.
    + exact minor_patterns_count.
Qed.

Lemma parsed_passengers_are_the_default_witness :
  parse_flight_query fuzzy_none "one way to Pune on friday" "2024-03-04"
  = Ok [("travel_intent", VStr "one_way"); ("passengers", VPax one_adult_male)]
  /\ PyDict.get "passengers"
       [("travel_intent", VStr "one_way"); ("passengers", VPax one_adult_male)]
     = Some (VPax one_adult_male).
Proof.
  split; [vm_compute; reflexivity|].
  apply (proj1 parsed_passengers_are_the_default fuzzy_none
               "one way to Pune on friday" "2024-03-04").
  vm_compute; reflexivity.
Defined.

(** C3 as stated, refuted: in "fly nextsw" the three passenger loops
    find no count, and yet the parser returns no [passengers] at all
    when the reference date is 9999-12-30, or is not written
    YYYY-MM-DD: the date block reads "nextsw" as a date a week ahead
    and raises. *)
Lemma default_needs_a_date_that_resolves :
  query_passengers (PyStr.lower "fly nextsw") = Ok []
  /\ parse_flight_query fuzzy_none "fly nextsw" "9999-12-30" = Raise OverflowError
  /\ parse_flight_query fuzzy_none "fly nextsw" "30/12/2024" = Raise ValueError
  /\ ~ (forall (fuzzy : string -> option date) (query current_date : string),
           query_passengers (PyStr.lower query) = Ok [] ->
           exists res, parse_flight_query fuzzy query current_date = Ok res
                       /\ PyDict.get "passengers" res
                          = Some (VPax one_adult_male)).
Proof.
  split; [vm_compute; reflexivity|]. split; [vm_compute; reflexivity|].
  split; [vm_compute; reflexivity|].
  intros H.
  destruct (H fuzzy_none "fly nextsw" "9999-12-30" eq_refl) as (res & Hres & _).
  vm_compute in Hres. discriminate Hres.
Qed.

(** C3, amended.  When the three passenger loops of [parse_flight_query]
    found no count, the parser returns [passengers = {adult_male: 1,
    total: 1}] whenever its date block does not raise: the query holds
    no date phrase, or the reference date is accepted by [strptime] and
    lies a week or more before the last day of the calendar.  The query
    "Delhi to Mumbai tomorrow" is such a query, whatever the reference
    date.  [extract_entities] has no such default: when its passenger
    extraction found nothing, the record has no [passengers] key. *)
Theorem one_adult_male_default :
  (forall (fuzzy : string -> option date) (query current_date : string),
      query_passengers (PyStr.lower query) = Ok [] ->
      date_block_safe (PyStr.lower query) current_date ->
      exists res, parse_flight_query fuzzy query current_date = Ok res
                  /\ PyDict.get "passengers" res = Some (VPax one_adult_male))
  /\ (forall (fuzzy : string -> option date) (current_date : string),
         parse_flight_query fuzzy "Delhi to Mumbai tomorrow" current_date
         = Ok [("travel_intent", VStr "one_way");
               ("passengers", VPax one_adult_male)])
  /\ (forall text : string,
         count_found text = false ->
         exists e, extract_entities text = Ok e
                   /\ PyDict.get "passengers" e = None).
Proof.
  split; [|split].
  - exact parse_flight_query_no_count.
  - intros fuzzy current_date. vm_compute. reflexivity.
  - intros text H.
    destruct (extract_entities_fields text) as (e & He & _ & _ & _ & _ & Hp).
    exists e. split; [exact He|].
    rewrite Hp. unfold passengers_field.
    destruct (extract_passenger_info_sum text)
      as (p & -> & [[_ ->] | [Hfound _]]); [reflexivity | congruence].
Qed.

Lemma one_adult_male_default_witness :
  (query_passengers (PyStr.lower "Flight to Goa on 1/2/25") = Ok []
   /\ date_block_safe (PyStr.lower "Flight to Goa on 1/2/25") "2024-03-04"
   /\ exists res,
       parse_flight_query fuzzy_none "Flight to Goa on 1/2/25" "2024-03-04"
       = Ok res
       /\ PyDict.get "passengers" res = Some (VPax one_adult_male))
  /\ (count_found "Delhi to Mumbai tomorrow" = false
      /\ exists e, extract_entities "Delhi to Mumbai tomorrow" = Ok e
                   /\ PyDict.get "passengers" e = None).
Proof.
  split.
  - split; [vm_compute; reflexivity|].
    split; [left; vm_compute; reflexivity|].
    apply (proj1 one_adult_male_default fuzzy_none "Flight to Goa on 1/2/25"
                 "2024-03-04").
    + vm_compute; reflexivity.
    + left; vm_compute; reflexivity.
  - split; [vm_compute; reflexivity|].
    apply (proj2 (proj2 one_adult_male_default) "Delhi to Mumbai tomorrow").
    vm_compute; reflexivity.
Defined.

(* ================================================================== *)
(** * Where the query parser departs from its description *)

(** C1.  [extract_entities] and [extract_passenger_info] return on every
    text, but [parse_flight_query] is not total: on a query that holds
    the letter d before "child", such as "flight for my grandchild", the
    minors loop matches, [int("d")] raises [ValueError], and the endpoint
    turns it into an HTTP 500, whatever the reference date. *)
Theorem parse_flight_query_raises :
  (forall text : string, exists e, extract_entities text = Ok e)
  /\ (forall text : string, exists p, extract_passenger_info text = Ok p)
  /\ (forall (fuzzy : string -> option date) (current_date now : string),
         Re.first_match false minor_patterns (PyStr.lower "flight for my grandchild")
         = Some (Re.RMatch 18 "" [(1, "d")])
         /\ PyStr.int "d" = Raise ValueError
         /\ parse_flight_query fuzzy "flight for my grandchild" current_date
            = Raise ValueError
         /\ parse_flight_query_endpoint fuzzy "flight for my grandchild"
              (Some "2024-03-04") now
            = Raise (HTTPException 500)).
Proof.
  split; [exact extract_entities_total|]. split.
  - intros text. destruct (extract_passenger_info_sum text) as (p & Hp & _). eauto.
  - intros fuzzy current_date now. repeat split; vm_compute; reflexivity.
Qed.

(** C5.  On "from delhi to mumbai" and on "delhi to mumbai" neither
    route pattern matches, since each asks for the letter s where the
    words are separated by a space; the record returned has neither
    [origin] nor [destination], while [normalize_city] would give DEL and
    BOM.  The patterns do match when the letter s stands where the spaces
    should be. *)
Theorem route_not_extracted :
  forall (fuzzy : string -> option date) (current_date : string),
    parse_flight_query fuzzy "from delhi to mumbai" current_date
    = Ok [("travel_intent", VStr "one_way"); ("passengers", VPax one_adult_male)]
    /\ parse_flight_query fuzzy "delhi to mumbai" current_date
       = Ok [("travel_intent", VStr "one_way");
             ("passengers", VPax one_adult_male)]
    /\ Re.first_match false route_patterns (PyStr.lower "from delhi to mumbai") = None
    /\ Re.first_match false route_patterns (PyStr.lower "delhi to mumbai") = None
    /\ normalize_city "delhi" = "DEL"
    /\ normalize_city "mumbai" = "BOM"
    /\ parse_flight_query fuzzy "fromsdelhistosmumbai" current_date
       = Ok [("travel_intent", VStr "one_way");
             ("passengers", VPax one_adult_male);
             ("origin", VStr "DEL"); ("destination", VStr "BOM")].
Proof. intros fuzzy current_date. repeat split; vm_compute; reflexivity. Qed.

(* ================================================================== *)
(** * The cross-frame merger *)

Lemma grows_refl (a : entities_t) : grows a a.
Proof. intros k cur H. eauto. Qed.

Lemma grows_trans (a b c : entities_t) : grows a b -> grows b c -> grows a c.
Proof.
  intros Hab Hbc k cur H.
  destruct (Hab k cur H) as (cur1 & H1 & L1).
  destruct (Hbc k cur1 H1) as (cur2 & H2 & L2).
  exists cur2. split; [exact H2 | lia].
Qed.

Lemma grows_set (merged : entities_t) (k : string) (v : value) :
  (forall cur, PyDict.get k merged = Some cur -> width cur <= width v) ->
  grows merged (PyDict.set k v merged).
Proof.
  intros Hv k0 cur H. rewrite get_set.
  destruct (String.eqb k k0) eqn:E; [|eauto].
  apply String.eqb_eq in E. subst k0. eauto.
Qed.

(** One item merged: the record grows, and the item is covered. *)
Lemma merge_item_grows (merged : entities_t) (kv : string * value) :
  grows merged (merge_item merged kv).
Proof.
  destruct kv as [k v]. unfold merge_item.
  destruct (PyDict.get k merged) as [cur|] eqn:E.
  - destruct (is_str v && (String.length (py_str cur) <? String.length (py_str v))%nat)
      eqn:C; [|apply grows_refl].
    apply grows_set. intros cur' H. rewrite E in H. injection H as <-.
    apply andb_prop in C as [_ C]. apply Nat.ltb_lt in C. unfold width. lia.
  - apply grows_set. intros cur H. congruence.
Qed.

Lemma merge_item_covers (merged : entities_t) (k : string) (v : value) :
  exists cur, PyDict.get k (merge_item merged (k, v)) = Some cur
              /\ (is_str v = true -> width v <= width cur).
Proof.
  unfold merge_item.
  destruct (PyDict.get k merged) as [cur|] eqn:E.
  - destruct (is_str v && (String.length (py_str cur) <? String.length (py_str v))%nat)
      eqn:C.
    + exists v. rewrite get_set_same. auto.
    + exists cur. split; [exact E|]. intros Hs. rewrite Hs in C. simpl in C.
      apply Nat.ltb_ge in C. exact C.
  - exists v. rewrite get_set_same. auto.
Qed.

Lemma fold_merge_grows (items : list (string * value)) :
  forall merged, grows merged (fold_left merge_item items merged).
Proof.
  induction items as [|kv items IH]; intros merged; cbn [fold_left].
  - apply grows_refl.
  - eapply grows_trans; [apply merge_item_grows | apply IH].
Qed.

(** After a frame's items are merged, they are covered. *)
Lemma fold_merge_covers (items : list (string * value)) :
  forall merged, covers (fold_left merge_item items merged) items.
Proof.
  induction items as [|[k0 v0] items IH]; intros merged k v Hin.
  - destruct Hin.
  - cbn [fold_left]. destruct Hin as [[= -> ->] | Hin]; [|now apply IH].
    destruct (merge_item_covers merged k v) as (cur & Hget & Hw).
    destruct (fold_merge_grows items _ k cur Hget) as (cur' & Hget' & Hw').
    exists cur'. split; [exact Hget'|]. intros Hs. specialize (Hw Hs). lia.
Qed.

(** Merging covered items changes nothing. *)
Lemma fold_merge_covered (items : list (string * value)) (merged : entities_t) :
  covers merged items -> fold_left merge_item items merged = merged.
Proof.
  induction items as [|[k v] items IH]; intros Hc; cbn [fold_left];
    [reflexivity|].
  assert (Hstep : merge_item merged (k, v) = merged).
  { destruct (Hc k v (or_introl eq_refl)) as (cur & Hget & Hw).
    unfold merge_item. rewrite Hget.
    destruct (is_str v) eqn:Hs; [|reflexivity]. simpl.
    specialize (Hw eq_refl). unfold width in Hw.
    now replace (String.length (py_str cur) <? String.length (py_str v))%nat with false
      by (symmetry; apply Nat.ltb_ge; lia). }
  rewrite Hstep. apply IH. intros k' v' Hin. apply Hc. now right.
Qed.

(** C8.  Merging a frame result twice gives the record that merging it
    once gives. *)
Theorem merge_twice_is_merge_once :
  forall R : frame_result, merge_entities [R; R] = merge_entities [R].
Proof.
  intros R. unfold merge_entities. cbn [fold_left]. unfold merge_frame.
  apply fold_merge_covered, fold_merge_covers.
Qed.

(* ================================================================== *)
(** * The question resolver *)

Ltac some_qa H :=
  repeat match type of H with
         | match ?x with _ => _ end = Some _ => destruct x; try discriminate H
         | (if ?b then _ else _) = Some _ => destruct b; try discriminate H
         end;
  try (injection H as <-).

(** Every answer of the passenger rules opens with "There are " or with
    "Total passengers", and names its source. *)
Lemma passenger_rules_shape (p : pdict) (q : string) (r : qa) :
  passenger_rules p q = Some r ->
  (exists t, answer r = "There are " ++ t
             \/ answer r = "Total passengers" ++ t)
  /\ source r <> "".
Proof.
  unfold passenger_rules, minor_rule, total_rule, guarded.
  intros H. some_qa H; cbn [answer source];
    (split; [eexists; (left; reflexivity) || (right; reflexivity)
            | simpl; discriminate]).
Qed.

Lemma passenger_rules_answered (p : pdict) (q : string) (r : qa) :
  passenger_rules p q = Some r -> unanswered (Some r) = false.
Proof.
  intros H. destruct (passenger_rules_shape p q r H) as [(t & [E | E]) _];
    unfold unanswered; rewrite E; reflexivity.
Qed.

(** With no answer from the first chain, the resolver goes on to the
    passenger rules and the fallback. *)
Lemma resolve_after_fields (e : entities_t) (q : string) :
  field_rules e (PyStr.lower q) = None ->
  resolve e q = after_fields e (PyStr.lower q).
Proof.
  intros H. unfold resolve, after_fields. rewrite H. cbn [unanswered].
  destruct (passenger_rules (passengers_of e) (PyStr.lower q)) as [r|] eqn:E;
    cbn [assign]; [|reflexivity].
  now rewrite (passenger_rules_answered _ _ _ E).
Qed.

Lemma fallback_shape (e : entities_t) :
  (exists t, answer (fallback e) = "Found information: " ++ t
             \/ answer (fallback e) = "No relevant" ++ t)
  /\ source (fallback e) <> "".
Proof.
  unfold fallback. destruct (PyDict.truthy e); cbn [answer source];
    (split; [eexists; (left; reflexivity) || (right; reflexivity)
            | discriminate]).
Qed.

Lemma id_scan_shape (items : list (string * value)) (r : qa) :
  id_scan items = Some r ->
  (exists t, answer r = "The " ++ t) /\ (exists k t, source r = k ++ ": " ++ t).
Proof.
  induction items as [|[k v] items IH]; simpl; [discriminate|].
  destruct (_ || _ || _); [|exact IH].
  intros [= <-]. cbn [answer source]. split; eauto.
Qed.

Lemma append_colon_nonempty (k t : string) : k ++ ": " ++ t <> "".
Proof. destruct k; simpl; discriminate. Qed.

Lemma field_rules_shape (e : entities_t) (q : string) (r : qa) :
  field_rules e q = Some r ->
  (exists t, answer r = "The " ++ t) /\ source r <> "".
Proof.
  unfold field_rules. intros H.
  destruct (amount_keywords q);
    [|destruct (name_keywords q);
      [|destruct (date_keywords q); [|destruct (id_keywords q)]]].
  5: discriminate.
  4: { apply id_scan_shape in H as [Ha (k & t & Hs)].
       split; [exact Ha | rewrite Hs; apply append_colon_nonempty]. }
  all: some_qa H; cbn [answer source]; split; [eexists; reflexivity | discriminate].
Qed.

(** An answer of the first chain is the resolver's answer. *)
Lemma resolve_field (e : entities_t) (q : string) (r : qa) :
  field_rules e (PyStr.lower q) = Some r -> resolve e q = r.
Proof.
  intros F. destruct (field_rules_shape _ _ _ F) as [[t Ha] _].
  assert (U : unanswered (Some r) = false)
    by (unfold unanswered; rewrite Ha; reflexivity).
  unfold resolve. rewrite F. cbv zeta. now rewrite !U.
Qed.

(** The resolver always gives an answer and a source. *)
Lemma resolve_answers (e : entities_t) (q : string) :
  answer (resolve e q) <> "" /\ source (resolve e q) <> "".
Proof.
  destruct (field_rules e (PyStr.lower q)) as [r|] eqn:F.
  - rewrite (resolve_field e q r F).
    destruct (field_rules_shape _ _ _ F) as [[t Ha] Hs].
    rewrite Ha. split; [discriminate | exact Hs].
  - rewrite (resolve_after_fields e q F). unfold after_fields.
    destruct (passenger_rules _ _) as [r|] eqn:P.
    + destruct (passenger_rules_shape _ _ _ P) as [(t & [E | E]) Hs];
        rewrite E; split; (discriminate || exact Hs).
    + destruct (fallback_shape e) as [(t & [E | E]) Hs];
        rewrite E; split; (discriminate || exact Hs).
Qed.

(** None of the answers given after the first chain is the name answer. *)
Lemma after_fields_not_name (e : entities_t) (ql : string) (v : value) :
  answer (after_fields e ql) <> answer (name_answer v).
Proof.
  unfold after_fields, name_answer. cbn [answer].
  destruct (passenger_rules _ _) as [r|] eqn:P.
  - destruct (passenger_rules_shape _ _ _ P) as [(t & [E | E]) _];
      rewrite E; discriminate.
  - destruct (fallback_shape e) as [(t & [E | E]) _]; rewrite E; discriminate.
Qed.

(** None of the answers given after the first chain is the answer of a
    field rule: those open with "The ". *)
Lemma after_fields_not_field (e : entities_t) (ql t : string) :
  answer (after_fields e ql) <> "The " ++ t.
Proof.
  unfold after_fields.
  destruct (passenger_rules _ _) as [r|] eqn:P.
  - destruct (passenger_rules_shape _ _ _ P) as [(t' & [E | E]) _];
      rewrite E; discriminate.
  - destruct (fallback_shape e) as [(t' & [E | E]) _]; rewrite E; discriminate.
Qed.

(** C4 as stated, refuted: with a name and no amount,
    the question "What is the amount and name?" gets the listing of the
    fallback, not the name answer. *)
Lemma name_answer_counterexample :
  ~ (forall (e : entities_t) (q : string) (v : value),
        PyDict.get "name" e = Some v ->
        PyDict.get "amount" e = None ->
        amount_keywords (PyStr.lower q) = true ->
        name_keywords (PyStr.lower q) = true ->
        resolve e q = name_answer v).
Proof.
  intros H.
  specialize (H [("name", VStr "John Smith")] "What is the amount and name?"
                (VStr "John Smith") eq_refl eq_refl eq_refl eq_refl).
  vm_compute in H. discriminate H.
Qed.

(** C4, amended.  The four field rules are one [if]/[elif] chain, tried
    in the order amount, name, date, booking id: the first rule whose
    keywords the question holds is the only one tried.  When the record
    lacks what that rule would print (the amount, the name, the date, a
    key that names an id), no later rule of the chain is tried, whatever
    the record holds for it: resolution goes on to the passenger rules
    and then to the fallback, and what it answers is the answer of no
    field rule.  On a record whose numbers [str] can print no branch
    raises: for a stored file id the endpoint returns an answer and a
    source, both non-empty. *)
Theorem first_field_rule_shadows_the_rest :
  (forall (e : entities_t) (q : string),
      let ql := PyStr.lower q in
      (amount_keywords ql = true /\ PyDict.get "amount" e = None)
      \/ (amount_keywords ql = false /\ name_keywords ql = true
          /\ PyDict.get "name" e = None)
      \/ (amount_keywords ql = false /\ name_keywords ql = false
          /\ date_keywords ql = true /\ PyDict.get "date" e = None)
      \/ (amount_keywords ql = false /\ name_keywords ql = false
          /\ date_keywords ql = false /\ id_keywords ql = true
          /\ id_scan e = None) ->
      resolve e q = after_fields e ql
      /\ forall t, answer (resolve e q) <> "The " ++ t)
  /\ (forall (extracted_data : PyDict.dict stored) (file_id q : string)
             (data : stored),
         PyDict.get file_id extracted_data = Some data ->
         printable (entities_of data) ->
         exists r, ask_endpoint extracted_data file_id q = Ok r
                   /\ answer r <> "" /\ source r <> "").
Proof.
  split.
  - intros e q ql Hcase.
    assert (F : field_rules e ql = None).
    { unfold field_rules.
      destruct Hcase as [(Ha & Hg) | [(Ha & Hn & Hg) | [(Ha & Hn & Hd & Hg)
                                                        | (Ha & Hn & Hd & Hi & Hg)]]].
      - now rewrite Ha, Hg.
      - now rewrite Ha, Hn, Hg.
      - now rewrite Ha, Hn, Hd, Hg.
      - now rewrite Ha, Hn, Hd, Hi, Hg. }
    rewrite (resolve_after_fields e q F).
    split; [reflexivity | intros t; apply after_fields_not_field].
  - intros extracted_data file_id q data Hget _.
    unfold ask_endpoint. rewrite Hget.
    eexists. split; [reflexivity | apply resolve_answers].
Qed.

Lemma first_field_rule_shadows_the_rest_witness :
  (resolve [("date", VStr "2024-03-05"); ("booking_id", VStr "ABC123")]
           "What is the name and date on booking?"
   = after_fields [("date", VStr "2024-03-05"); ("booking_id", VStr "ABC123")]
                  (PyStr.lower "What is the name and date on booking?")
   /\ forall t,
        answer (resolve [("date", VStr "2024-03-05"); ("booking_id", VStr "ABC123")]
                        "What is the name and date on booking?")
        <> "The " ++ t)
  /\ (printable [("passengers", VPax [("adult_male", 2%Z); ("total", 2%Z)])]
      /\ exists r,
          ask_endpoint
            [("f1", Stored (Some [("passengers",
                                   VPax [("adult_male", 2%Z); ("total", 2%Z)])])
                           None)]
            "f1" "How many passengers in total?" = Ok r
          /\ answer r <> "" /\ source r <> "").
Proof.
  assert (Hp : printable [("passengers", VPax [("adult_male", 2%Z); ("total", 2%Z)])]).
  { intros k p [H | []]. injection H as _ <-.
    split; [repeat constructor; simpl; lia | vm_compute; reflexivity]. }
  split.
  - apply (proj1 first_field_rule_shadows_the_rest
                 [("date", VStr "2024-03-05"); ("booking_id", VStr "ABC123")]
                 "What is the name and date on booking?").
    right. left. repeat split; vm_compute; reflexivity.
  - split; [exact Hp|].
    apply (proj2 first_field_rule_shadows_the_rest
                 [("f1", Stored (Some [("passengers",
                                        VPax [("adult_male", 2%Z); ("total", 2%Z)])])
                                None)]
                 "f1" "How many passengers in total?"
                 (Stored (Some [("passengers",
                                 VPax [("adult_male", 2%Z); ("total", 2%Z)])]) None));
      [reflexivity | exact Hp].
Defined.

(* ================================================================== *)
(** * Names *)

Lemma all_chars_app (ok : ascii -> bool) (a b : string) :
  PyStr.all_chars ok (a ++ b) = PyStr.all_chars ok a && PyStr.all_chars ok b.
Proof.
  induction a as [|c a IH]; simpl; [reflexivity|].
  now rewrite IH, andb_assoc.
Qed.

Lemma lang_cls_inv (ic : bool) (items : list Re.item) (w : string) :
  Re.lang ic (Re.Cls items) w ->
  exists c, w = String c "" /\ Re.cls_match ic items c = true.
Proof. intros H. inversion H; subst. eauto. Qed.

Lemma lang_chr_inv (ic : bool) (p : ascii) (w : string) :
  Re.lang ic (Re.Chr p) w ->
  exists c, w = String c "" /\ Re.chr_eq ic p c = true.
Proof. intros H. inversion H; subst. eauto. Qed.

Lemma lang_seq_inv (ic : bool) (r1 r2 : Re.regex) (w : string) :
  Re.lang ic (Re.Seq r1 r2) w ->
  exists a b, w = a ++ b /\ Re.lang ic r1 a /\ Re.lang ic r2 b.
Proof. intros H. inversion H; subst. eauto. Qed.

Lemma lang_rep_inv (ic : bool) (lo : nat) (hi : option nat) (r : Re.regex)
      (w : string) :
  Re.lang ic (Re.Rep lo hi r) w ->
  exists ws, w = Re.concat_str ws /\ lo <= List.length ws
             /\ (forall h, hi = Some h -> List.length ws <= lo + (h - lo))
             /\ Forall (Re.lang ic r) ws.
Proof. intros H. inversion H; subst. eauto. Qed.

(** A run of single characters: its length is the number of rounds. *)
Lemma concat_singles (ok : ascii -> bool) (L : string -> Prop) (ws : list string) :
  (forall w, L w -> exists c, w = String c "" /\ ok c = true) ->
  Forall L ws ->
  String.length (Re.concat_str ws) = List.length ws
  /\ PyStr.all_chars ok (Re.concat_str ws) = true.
Proof.
  intros HL. induction 1 as [|w ws Hw _ [IHlen IHall]]; simpl; [auto|].
  destruct (HL w Hw) as (c & -> & Hc). simpl. rewrite IHlen, Hc, IHall. auto.
Qed.

(** A repeated class describes runs of its characters, as long as the
    bounds say. *)
Lemma lang_rep_cls (ic : bool) (lo : nat) (hi : option nat)
      (items : list Re.item) (w : string) :
  Re.lang ic (Re.Rep lo hi (Re.Cls items)) w ->
  lo <= String.length w
  /\ (forall h, hi = Some h -> String.length w <= lo + (h - lo))
  /\ PyStr.all_chars (Re.cls_match ic items) w = true.
Proof.
  intros H. apply lang_rep_inv in H as (ws & -> & Hlo & Hhi & Hall).
  destruct (concat_singles (Re.cls_match ic items) _ ws (lang_cls_inv ic items) Hall)
    as [Hlen Hok].
  rewrite Hlen. auto.
Qed.

Lemma letter_classes (c : ascii) :
  (Re.cls_match true [Re.Range "A" "Z"] c = true -> PyStr.is_alpha c = true)
  /\ (Re.cls_match true [Re.Range "a" "z"] c = true -> PyStr.is_alpha c = true)
  /\ (Re.cls_match false [Re.Range "A" "Z"] c = true -> PyStr.is_upper c = true)
  /\ (Re.cls_match true [Re.Space] c = true -> PyStr.is_space c = true).
Proof.
  assert (H : forall c,
             implb (Re.cls_match true [Re.Range "A" "Z"] c) (PyStr.is_alpha c)
             && implb (Re.cls_match true [Re.Range "a" "z"] c) (PyStr.is_alpha c)
             && implb (Re.cls_match false [Re.Range "A" "Z"] c) (PyStr.is_upper c)
             && implb (Re.cls_match true [Re.Space] c) (PyStr.is_space c) = true)
    by (apply for_all_ascii; vm_compute; reflexivity).
  specialize (H c).
  repeat (apply andb_prop in H as [H ?]).
  repeat split; intros E; rewrite E in *; assumption.
Qed.

(** Under IGNORECASE the capitalised-word pattern describes any word of
    two or more letters. *)
Lemma cap_word_any_case (w : string) : Re.lang true cap_word w -> name_word w.
Proof.
  unfold cap_word, upper_az, lower_az, Re.plus. intros H.
  apply lang_seq_inv in H as (a & b & -> & Ha & Hb).
  apply lang_cls_inv in Ha as (c & -> & Hc).
  apply lang_rep_cls in Hb as (Hlen & _ & Hall).
  split; simpl; [lia|].
  rewrite (proj1 (letter_classes c) Hc). simpl.
  eapply all_chars_weaken; [|exact Hall].
  intros c' Hc'. now apply (proj1 (proj2 (letter_classes c'))).
Qed.

Lemma gap_lang (w : string) : Re.lang true (Re.plus Re.s) w -> gap w.
Proof.
  unfold Re.plus, Re.s. intros H.
  apply lang_rep_cls in H as (Hlen & _ & Hall).
  split; [exact Hlen|].
  eapply all_chars_weaken; [|exact Hall].
  intros c Hc. now apply (proj2 (proj2 (proj2 (letter_classes c)))).
Qed.

Lemma more_words (ws : list string) :
  Forall (Re.lang true (Re.Seq (Re.plus Re.s) cap_word)) ws ->
  exists more : list (string * string),
    ws = map (fun p => fst p ++ snd p) more
    /\ Forall (fun p => gap (fst p) /\ name_word (snd p)) more.
Proof.
  induction 1 as [|w ws Hw _ (more & -> & Hmore)].
  - exists []. auto.
  - apply lang_seq_inv in Hw as (a & b & -> & Ha & Hb).
    exists ((a, b) :: more). split; [reflexivity|].
    constructor; [|exact Hmore].
    split; [now apply gap_lang | now apply cap_word_any_case].
Qed.

Lemma cap_words_any_case (g : string) : Re.lang true cap_words g -> name_words g.
Proof.
  unfold cap_words. intros H.
  apply lang_seq_inv in H as (w & rest & -> & Hw & Hrest).
  apply lang_rep_inv in Hrest as (ws & -> & Hlo & _ & Hall).
  apply more_words in Hall as (more & -> & Hmore).
  exists w, more. rewrite length_map in Hlo.
  repeat split; auto; now apply cap_word_any_case.
Qed.

(** The case-sensitive pattern asks for a capital first letter. *)
Lemma cap_words_capital (g : string) :
  Re.lang false cap_words g ->
  exists c g', g = String c g' /\ PyStr.is_upper c = true.
Proof.
  unfold cap_words, cap_word, upper_az. intros H.
  apply lang_seq_inv in H as (w & rest & -> & Hw & _).
  apply lang_seq_inv in Hw as (a & b & -> & Ha & _).
  apply lang_cls_inv in Ha as (c & -> & Hc).
  exists c, (b ++ rest). split; [reflexivity|].
  now apply (proj1 (proj2 (proj2 (letter_classes c)))).
Qed.

(** C9.  The code departs from the claim: "name: john smith" has no
    capital letter, hence no capitalised word sequence anywhere, and yet
    [extract_entities] assigns [name]; so it does after the label as the
    claim writes it, in "Name: john smith".  The name patterns spell a
    capital and lowercase letters for each word, but they are searched
    with [re.IGNORECASE], under which both classes take letters of
    either case. *)
Theorem name_without_capitals :
  extract_entities "name: john smith" = Ok [("name", VStr "john smith")]
  /\ ~ (exists before g after,
           "name: john smith" = before ++ g ++ after
           /\ Re.lang false cap_words g)
  /\ extract_entities "Name: john smith" = Ok [("name", VStr "john smith")].
Proof.
  split; [vm_compute; reflexivity|]. split; [|vm_compute; reflexivity].
  intros (before & g & after & Ht & Hg).
  apply cap_words_capital in Hg as (c & g' & -> & Hc).
  assert (H : PyStr.all_chars (fun c => negb (PyStr.is_upper c))
                              "name: john smith" = true)
    by (vm_compute; reflexivity).
  rewrite Ht, all_chars_app in H. apply andb_prop in H as [_ H].
  simpl in H. rewrite Hc in H. discriminate H.
Qed.

Lemma first_match_two (ic : bool) (p1 p2 : Re.regex) (text : string)
      (mt : Re.rmatch) :
  Re.first_match ic [p1; p2] text = Some mt ->
  Re.search ic p1 text = Some mt \/ Re.search ic p2 text = Some mt.
Proof.
  simpl. destruct (Re.search ic p1 text); [auto|].
  destruct (Re.search ic p2 text); [auto | discriminate].
Qed.

(** What the code does: [extract_entities] assigns [name] only where a
    label Name, Passenger or Customer with its separator, or a title Mr,
    Mrs, Ms or Dr with its optional point and white space, stands before
    a sequence of two or more words; label, title and words are matched
    without regard to letter case, so each word is two or more letters of
    either case.  The name stored is that sequence, stripped. *)
Lemma name_needs_label_and_words :
  forall (text : string) (e : entities_t) (v : value),
    extract_entities text = Ok e ->
    PyDict.get "name" e = Some v ->
    exists skipped lead g after,
      text = skipped ++ lead ++ g ++ after
      /\ (Re.lang true name_label lead \/ Re.lang true name_title lead)
      /\ Re.lang true cap_words g
      /\ name_words g
      /\ v = VStr (PyStr.strip g).
Proof.
  intros text e v He Hv.
  destruct (extract_entities_fields text) as (e' & He' & Hname & _).
  rewrite He in He'. injection He' as <-.
  rewrite Hname in Hv. unfold field_of in Hv.
  destruct (Re.first_match true name_patterns text) as [mt|] eqn:E; [|discriminate].
  destruct (Re.group 1 mt) as [g|] eqn:G; [|discriminate].
  injection Hv as <-.
  apply first_match_two in E as [E | E].
  - pose proof (fun H => search_lead_and_group true _ name_label cap_words 1 text mt
                                                H E) as K.
    destruct (K eq_refl) as (sk & pl & g' & Ht & Ll & Lg & Hg).
    rewrite G in Hg. injection Hg as <-.
    exists sk, pl, g, (Re.m_after mt).
    repeat split; auto. now apply cap_words_any_case.
  - pose proof (fun H => search_lead_and_group true _ name_title cap_words 1 text mt
                                                H E) as K.
    destruct (K eq_refl) as (sk & pl & g' & Ht & Ll & Lg & Hg).
    rewrite G in Hg. injection Hg as <-.
    exists sk, pl, g, (Re.m_after mt).
    repeat split; auto. now apply cap_words_any_case.
Qed.

Lemma name_needs_label_and_words_witness :
  extract_entities "name: john smith" = Ok [("name", VStr "john smith")]
  /\ PyDict.get "name" [("name", VStr "john smith")] = Some (VStr "john smith")
  /\ exists skipped lead g after,
      "name: john smith" = skipped ++ lead ++ g ++ after
      /\ (Re.lang true name_label lead \/ Re.lang true name_title lead)
      /\ Re.lang true cap_words g
      /\ name_words g
      /\ VStr "john smith" = VStr (PyStr.strip g).
Proof.
  split; [vm_compute; reflexivity|]. split; [reflexivity|].
  apply (name_needs_label_and_words "name: john smith"
           [("name", VStr "john smith")] (VStr "john smith")).
  - vm_compute; reflexivity.
  - reflexivity.
Defined.

(* ================================================================== *)
(** * Booking ids *)

Lemma upper_alnum_class (c : ascii) :
  Re.cls_match false [Re.Range "A" "Z"; Re.Range "0" "9"] c = is_upper_alnum c.
Proof.
  revert c.
  assert (H : forall c,
             Bool.eqb (Re.cls_match false [Re.Range "A" "Z"; Re.Range "0" "9"] c)
                      (is_upper_alnum c) = true)
    by (apply for_all_ascii; vm_compute; reflexivity).
  intros c. now apply Bool.eqb_prop.
Qed.

(** What the label pattern captures: six to ten uppercase letters and
    digits. *)
Lemma pnr_label_capture (text : string) (mt : Re.rmatch) :
  Re.search false pnr_label_pattern text = Some mt ->
  exists g, Re.group 1 mt = Some g
            /\ 6 <= String.length g <= 10
            /\ PyStr.all_chars is_upper_alnum g = true.
Proof.
  intros E.
  pose proof (fun H => search_lead_and_group false pnr_label_pattern
                         (Re.seq [Re.lit "PNR"; label_sep; Re.Eps])
                         (Re.upto 6 10 upper_alnum) 1 text mt H E) as K.
  destruct (K eq_refl) as (sk & pl & g & _ & _ & Lg & Hg).
  exists g. split; [exact Hg|].
  apply lang_rep_cls in Lg as (Hlo & Hhi & Hall).
  specialize (Hhi 10 eq_refl). simpl in Hhi.
  split; [lia|].
  eapply all_chars_weaken; [|exact Hall].
  intros c Hc. now rewrite <- upper_alnum_class.
Qed.

(** A labelled PNR decides the booking id, whatever else the text holds. *)
Lemma pnr_label_wins (text : string) (mt : Re.rmatch) :
  Re.search false pnr_label_pattern text = Some mt ->
  exists e g, extract_entities text = Ok e
              /\ Re.group 1 mt = Some g
              /\ PyDict.get "booking_id" e = Some (VStr g).
Proof.
  intros E.
  destruct (extract_entities_fields text) as (e & He & _ & _ & _ & Hb & _).
  destruct (pnr_label_capture text mt E) as (g & Hg & _).
  exists e, g. repeat split; auto.
  rewrite Hb. unfold field_of, pnr_patterns. cbn [Re.first_match].
  now rewrite E, Hg.
Qed.

(** No match of the label pattern starts where the text does not go on
    with PNR. *)
Lemma pnr_label_needs_pnr (before : option ascii) (t : string) :
  PyStr.starts_with "PNR" t = false ->
  Re.m false pnr_label_pattern (Re.MState before t []) = [].
Proof.
  unfold pnr_label_pattern, Re.pattern. cbn [Re.seq Re.lit Re.m].
  destruct t as [|c1 t]; [reflexivity|].
  cbn [PyStr.starts_with]. unfold Re.step at 3. cbn [Re.rest Re.chr_eq].
  destruct (Ascii.eqb "P" c1); [|reflexivity].
  cbn [andb flat_map app]. rewrite app_nil_r.
  destruct t as [|c2 t]; [reflexivity|].
  cbn [PyStr.starts_with]. unfold Re.step at 2. cbn [Re.rest Re.chr_eq].
  destruct (Ascii.eqb "N" c2); [|reflexivity].
  cbn [andb flat_map app]. rewrite app_nil_r.
  destruct t as [|c3 t]; [reflexivity|].
  cbn [PyStr.starts_with]. unfold Re.step at 1. cbn [Re.rest Re.chr_eq].
  destruct (Ascii.eqb "R" c3); [discriminate | reflexivity].
Qed.

(** A text without PNR label, put before "PNR: ABC123", makes no label
    start early. *)
Lemma no_early_label (u tail : string) :
  u <> "" ->
  PyStr.starts_with "PNR" u = false ->
  PyStr.starts_with "PNR" (u ++ "PNR: ABC123" ++ tail) = false.
Proof.
  intros Hne H.
  destruct u as [|c1 u]; [congruence|].
  cbn [append PyStr.starts_with] in *.
  destruct (Ascii.eqb "P" c1); [|reflexivity]. cbn [andb] in *.
  destruct u as [|c2 u]; [reflexivity|].
  cbn [append PyStr.starts_with] in *.
  destruct (Ascii.eqb "N" c2); [|reflexivity]. cbn [andb] in *.
  destruct u as [|c3 u]; [reflexivity|].
  cbn [append PyStr.starts_with] in *.
  destruct (Ascii.eqb "R" c3); [discriminate H | reflexivity].
Qed.

Lemma pnr_label_skips (pre tail : string) :
  no_pnr_label pre = true ->
  forall before pos,
  exists before' pos',
    Re.search_from false pnr_label_pattern before
                   (pre ++ "PNR: ABC123" ++ tail) pos
    = Re.search_from false pnr_label_pattern before'
                     ("PNR: ABC123" ++ tail) pos'.
Proof.
  unfold no_pnr_label. induction pre as [|c pre IH]; intros H before pos.
  - exists before, pos. reflexivity.
  - apply negb_true_iff in H. cbn [PyStr.contains] in H.
    apply orb_false_elim in H as [Hhere Hlater].
    pose proof (no_early_label (String c pre) tail ltac:(discriminate) Hhere)
      as Hno.
    cbn [append] in Hno |- *. cbn [Re.search_from].
    rewrite (pnr_label_needs_pnr before _ Hno).
    apply IH. now rewrite Hlater.
Qed.

(** At "PNR: ABC123", followed by the end of a token, the label pattern
    matches and captures ABC123. *)
Lemma pnr_label_here (post : string) (before : option ascii) (pos : nat) :
  token_end post = true ->
  Re.search_from false pnr_label_pattern before ("PNR: ABC123" ++ post) pos
  = Some (Re.RMatch pos post [(1, "ABC123")]).
Proof.
  destruct post as [|c post]; intros H.
  - vm_compute. reflexivity.
  - destruct c as [[] [] [] [] [] [] [] []]; vm_compute in H;
      first [ discriminate H
            | cbv -[Re.consumed];
              rewrite (consumed_prefix _ _ "ABC123") by reflexivity;
              reflexivity ].
Qed.

(** C6.  The booking id is group 1 of the first pattern of
    [pnr_patterns] that matches.  When the PNR label pattern matches, the
    booking id is what it captured, six to ten uppercase letters and
    digits, whatever bare six-character token the text also holds.  In
    particular a text in which "PNR: ABC123" ends a token, and before
    which no capital P occurs, yields ABC123, as do the two texts made of
    that label and the bare token XYZ789 in either order. *)
Theorem pnr_label_takes_precedence :
  (forall text : string,
      exists e, extract_entities text = Ok e
                /\ PyDict.get "booking_id" e
                   = field_of false pnr_patterns text (fun g => g))
  /\ (forall (text : string) (mt : Re.rmatch),
         Re.search false pnr_label_pattern text = Some mt ->
         exists e g, extract_entities text = Ok e
                     /\ Re.group 1 mt = Some g
                     /\ PyDict.get "booking_id" e = Some (VStr g)
                     /\ 6 <= String.length g <= 10
                     /\ PyStr.all_chars is_upper_alnum g = true)
  /\ (forall pre post : string,
         no_pnr_label pre = true ->
         token_end post = true ->
         exists e, extract_entities (pre ++ "PNR: ABC123" ++ post) = Ok e
                   /\ PyDict.get "booking_id" e = Some (VStr "ABC123"))
  /\ (exists e, extract_entities "PNR: ABC123 XYZ789" = Ok e
                /\ PyDict.get "booking_id" e = Some (VStr "ABC123"))
  /\ (exists e, extract_entities "XYZ789 PNR: ABC123" = Ok e
                /\ PyDict.get "booking_id" e = Some (VStr "ABC123"))
  /\ (exists e, extract_entities "seat XYZ789" = Ok e
                /\ PyDict.get "booking_id" e = Some (VStr "XYZ789")).
Proof.
  split; [|split; [|split; [|split; [|split]]]].
  - intros text.
    destruct (extract_entities_fields text) as (e & He & _ & _ & _ & Hb & _).
    eauto.
  - intros text mt E.
    destruct (pnr_label_wins text mt E) as (e & g & He & Hg & Hb).
    destruct (pnr_label_capture text mt E) as (g' & Hg' & Hlen & Hall).
    rewrite Hg in Hg'. injection Hg' as <-.
    exists e, g. auto.
  - intros pre post Hpre Hpost.
    destruct (pnr_label_skips pre post Hpre None 0) as (before & pos & Hskip).
    rewrite (pnr_label_here post before pos Hpost) in Hskip.
    destruct (pnr_label_wins _ _ Hskip) as (e & g & He & Hg & Hb).
    exists e. split; [exact He|].
    cbv [Re.group Re.m_caps Re.lookup Nat.eqb] in Hg. injection Hg as <-.
    exact Hb.
  - eexists. split; vm_compute; reflexivity.
  - eexists. split; vm_compute; reflexivity.
  - eexists. split; vm_compute; reflexivity.
Qed.

Lemma pnr_label_takes_precedence_witness :
  (Re.search false pnr_label_pattern "flight AI202 PNR: ABC123 ref XYZ789"
   = Some (Re.RMatch 13 " ref XYZ789" [(1, "ABC123")])
   /\ exists e g, extract_entities "flight AI202 PNR: ABC123 ref XYZ789" = Ok e
                  /\ Re.group 1 (Re.RMatch 13 " ref XYZ789" [(1, "ABC123")])
                     = Some g
                  /\ PyDict.get "booking_id" e = Some (VStr g)
                  /\ 6 <= String.length g <= 10
                  /\ PyStr.all_chars is_upper_alnum g = true)
  /\ (no_pnr_label "Paid for seat XYZ789, " = true
      /\ token_end ", thanks" = true
      /\ exists e,
          extract_entities ("Paid for seat XYZ789, " ++ "PNR: ABC123" ++ ", thanks")
          = Ok e
          /\ PyDict.get "booking_id" e = Some (VStr "ABC123")).
Proof.
  split.
  - split; [vm_compute; reflexivity|].
    apply (proj1 (proj2 pnr_label_takes_precedence)
                 "flight AI202 PNR: ABC123 ref XYZ789").
    vm_compute; reflexivity.
  - split; [vm_compute; reflexivity|]. split; [vm_compute; reflexivity|].
    apply (proj1 (proj2 (proj2 pnr_label_takes_precedence))
                 "Paid for seat XYZ789, " ", thanks");
      vm_compute; reflexivity.
Defined.

(* ================================================================== *)
(** * Dates *)

Section Calendar.
Local Open Scope Z_scope.

Lemma days_before_year_split (a b c e : Z) :
  0 <= a -> 0 <= b <= 3 -> 0 <= c <= 24 -> 0 <= e <= 3 ->
  days_before_year (400 * a + 100 * b + 4 * c + e + 1)
  = DI400Y * a + DI100Y * b + DI4Y * c + 365 * e.
Proof.
  intros Ha Hb Hc He. unfold days_before_year, DI400Y, DI100Y, DI4Y. cbv zeta.
  replace (400 * a + 100 * b + 4 * c + e + 1 - 1) with (400 * a + 100 * b + 4 * c + e) by lia.
  assert ((400 * a + 100 * b + 4 * c + e) / 4 = 100 * a + 25 * b + c)
    by (symmetry; apply Z.div_unique with e; lia).
  assert ((400 * a + 100 * b + 4 * c + e) / 100 = 4 * a + b)
    by (symmetry; apply Z.div_unique with (4 * c + e); lia).
  assert ((400 * a + 100 * b + 4 * c + e) / 400 = a)
    by (symmetry; apply Z.div_unique with (100 * b + 4 * c + e); lia).
  lia.
Qed.

Lemma is_leap_split (a b c e : Z) :
  0 <= a -> 0 <= b <= 3 -> 0 <= c <= 24 -> 0 <= e <= 3 ->
  is_leap (400 * a + 100 * b + 4 * c + e + 1)
  = (e =? 3) && (negb (c =? 24) || (b =? 3)).
Proof.
  intros Ha Hb Hc He. unfold is_leap.
  repeat match goal with
         | |- context [(?x =? ?y)] => destruct (Z.eqb_spec x y)
         end; simpl; try reflexivity; exfalso;
    Z.div_mod_to_equations; lia.
Qed.

(** The year and the day within it. *)
Lemma fromordinal_parts (o : Z) :
  1 <= o ->
  exists a b c e n,
    0 <= a /\ 0 <= b <= 4 /\ 0 <= c <= 24 /\ 0 <= e <= 4 /\ 0 <= n < 365
    /\ o - 1 = DI400Y * a + DI100Y * b + DI4Y * c + 365 * e + n
    /\ (o - 1) / DI400Y = a
    /\ ((o - 1) mod DI400Y) / DI100Y = b
    /\ (((o - 1) mod DI400Y) mod DI100Y) / DI4Y = c
    /\ ((((o - 1) mod DI400Y) mod DI100Y) mod DI4Y) / 365 = e
    /\ ((((o - 1) mod DI400Y) mod DI100Y) mod DI4Y) mod 365 = n
    /\ (b = 4 -> c = 0 /\ e = 0 /\ n = 0)
    /\ (e = 4 -> n = 0 /\ c <> 24).
Proof.
  intros Ho. unfold DI400Y, DI100Y, DI4Y.
  do 5 eexists. 
  repeat split; try reflexivity; Z.div_mod_to_equations; lia.
Qed.

(** Evaluates the table look-ups and comparisons between numerals that
    a goal shows. *)
Ltac calendar_calc :=
  repeat match goal with
         | |- context [table ?t ?k] =>
             let v := eval vm_compute in (table t k) in
             lazymatch v with
             | Zpos _ => idtac | Z0 => idtac | Zneg _ => idtac
             end;
             change (table t k) with v
         | |- context [(?x <? ?k)] =>
             let v := eval vm_compute in (x <? k) in
             lazymatch v with true => idtac | false => idtac end;
             change (x <? k) with v
         | |- context [(?x =? ?k)] =>
             let v := eval vm_compute in (x =? k) in
             lazymatch v with true => idtac | false => idtac end;
             change (x =? k) with v
         end;
  cbv beta iota delta [andb orb negb].

Lemma toordinal_fromordinal (o : Z) : 1 <= o -> toordinal (fromordinal o) = o.
Proof.
  intros Ho.
  destruct (fromordinal_parts o Ho)
    as (a & b & c & e & n & Ha & Hb & Hc & He & Hn & Ho' & Da & Db & Dc & De & Dn
        & Hb4 & He4).
  unfold fromordinal. cbv zeta. rewrite Da, Db, Dc, De, Dn.
  clear Da Db Dc De Dn. unfold DI400Y, DI100Y, DI4Y in Ho'.
  destruct ((e =? 4) || (b =? 4)) eqn:Hlast.
  - (* the last day of a four-year or four-century cycle *)
    unfold toordinal, days_before_month. cbn [year month day].
    apply orb_true_iff in Hlast as [E | E]; apply Z.eqb_eq in E.
    + destruct (He4 E) as [-> Hc24]. subst e.
      replace (a * 400 + 1 + b * 100 + c * 4 + 4 - 1)
        with (400 * a + 100 * b + 4 * c + 3 + 1) by lia.
      assert (Hb3 : 0 <= b <= 3).
      { destruct (Z.eq_dec b 4) as [-> | ]; [|lia]. destruct (Hb4 eq_refl); lia. }
      rewrite days_before_year_split, is_leap_split by lia.
      replace (c =? 24) with false by (symmetry; apply Z.eqb_neq; lia).
      calendar_calc. unfold DI400Y, DI100Y, DI4Y. lia.
    + subst b. destruct (Hb4 eq_refl) as (-> & -> & ->).
      replace (a * 400 + 1 + 4 * 100 + 0 * 4 + 0 - 1)
        with (400 * a + 100 * 3 + 4 * 24 + 3 + 1) by lia.
      rewrite days_before_year_split, is_leap_split by lia.
      calendar_calc. unfold DI400Y, DI100Y, DI4Y. lia.
  - apply orb_false_iff in Hlast as [E4 B4].
    apply Z.eqb_neq in E4. apply Z.eqb_neq in B4.
    replace (a * 400 + 1 + b * 100 + c * 4 + e)
      with (400 * a + 100 * b + 4 * c + e + 1) by lia.
    set (y := 400 * a + 100 * b + 4 * c + e + 1).
    assert (Hleap : is_leap y = (e =? 3) && (negb (c =? 24) || (b =? 3)))
      by (apply is_leap_split; lia).
    assert (Hdby : days_before_year y = 146097 * a + 36524 * b + 1461 * c + 365 * e)
      by (apply days_before_year_split; lia).
    rewrite <- Hleap.
    rewrite Z.shiftr_div_pow2 by lia. change (2 ^ 5) with 32.
    assert (Hmo : 1 <= (n + 50) / 32 <= 12)
      by (Z.div_mod_to_equations; lia).
    assert (Hn32 : 32 * ((n + 50) / 32) <= n + 50 < 32 * ((n + 50) / 32) + 32)
      by (Z.div_mod_to_equations; lia).
    apply month_cases in Hmo. cbn [In] in Hmo.
    repeat (destruct Hmo as [Hmo | Hmo];
            [ rewrite <- Hmo in *;
              destruct (is_leap y) eqn:HL; calendar_calc;
              repeat match goal with
                     | |- context [(?x <? ?k)] => destruct (Z.ltb_spec x k)
                     end;
              unfold toordinal, days_before_month; cbn [year month day];
              rewrite Hdby, HL; calendar_calc; lia
            | ]).
    destruct Hmo.
Qed.

Lemma valid_fromordinal (o : Z) :
  1 <= o <= MAXORDINAL -> valid (fromordinal o) = true.
Proof.
  intros [Ho Hmax]. unfold MAXORDINAL in Hmax.
  destruct (fromordinal_parts o Ho)
    as (a & b & c & e & n & Ha & Hb & Hc & He & Hn & Ho' & Da & Db & Dc & De & Dn
        & Hb4 & He4).
  unfold fromordinal. cbv zeta. rewrite Da, Db, Dc, De, Dn.
  clear Da Db Dc De Dn. unfold DI400Y, DI100Y, DI4Y in Ho'.
  assert (Hy : 1 <= a * 400 + 1 + b * 100 + c * 4 + e <= 10000) by lia.
  destruct ((e =? 4) || (b =? 4)) eqn:Hlast.
  - unfold valid, MINYEAR, MAXYEAR, days_in_month. cbn [year month day].
    calendar_calc.
    apply orb_true_iff in Hlast as [E | E]; apply Z.eqb_eq in E.
    + assert (Hb3 : 0 <= b <= 3).
      { destruct (Z.eq_dec b 4) as [-> | ]; [|lia]. destruct (Hb4 eq_refl); lia. }
      replace (1 <=? a * 400 + 1 + b * 100 + c * 4 + e - 1) with true
        by (symmetry; apply Z.leb_le; lia).
      replace (a * 400 + 1 + b * 100 + c * 4 + e - 1 <=? 9999) with true
        by (symmetry; apply Z.leb_le; lia).
      reflexivity.
    + replace (1 <=? a * 400 + 1 + b * 100 + c * 4 + e - 1) with true
        by (symmetry; apply Z.leb_le; lia).
      replace (a * 400 + 1 + b * 100 + c * 4 + e - 1 <=? 9999) with true
        by (symmetry; apply Z.leb_le; lia).
      reflexivity.
  - apply orb_false_iff in Hlast as [E4 B4].
    apply Z.eqb_neq in E4. apply Z.eqb_neq in B4.
    replace (a * 400 + 1 + b * 100 + c * 4 + e)
      with (400 * a + 100 * b + 4 * c + e + 1) by lia.
    set (y := 400 * a + 100 * b + 4 * c + e + 1).
    assert (Hy' : 1 <= y <= 9999) by (unfold y; lia).
    assert (Hleap : is_leap y = (e =? 3) && (negb (c =? 24) || (b =? 3)))
      by (apply is_leap_split; lia).
    rewrite <- Hleap.
    rewrite Z.shiftr_div_pow2 by lia. change (2 ^ 5) with 32.
    assert (Hmo : 1 <= (n + 50) / 32 <= 12)
      by (Z.div_mod_to_equations; lia).
    assert (Hn32 : 32 * ((n + 50) / 32) <= n + 50 < 32 * ((n + 50) / 32) + 32)
      by (Z.div_mod_to_equations; lia).
    assert (Hn364 : is_leap y = false -> n <= 364) by lia.
    apply month_cases in Hmo. cbn [In] in Hmo.
    repeat (destruct Hmo as [Hmo | Hmo];
            [ rewrite <- Hmo in *;
              destruct (is_leap y) eqn:HL; calendar_calc;
              repeat match goal with
                     | |- context [(?x <? ?k)] => destruct (Z.ltb_spec x k)
                     end;
              unfold valid, MINYEAR, MAXYEAR, days_in_month;
              cbn [year month day]; rewrite HL; calendar_calc;
              repeat (apply andb_true_intro; split); apply Z.leb_le; lia
            | ]).
    destruct Hmo.
Qed.

Lemma digit_cases (k : Z) :
  0 <= k <= 9 -> In k [0; 1; 2; 3; 4; 5; 6; 7; 8; 9].
Proof.
  intros H. simpl.
  assert (k = 0 \/ k = 1 \/ k = 2 \/ k = 3 \/ k = 4 \/ k = 5 \/ k = 6
          \/ k = 7 \/ k = 8 \/ k = 9) by lia.
  intuition auto.
Qed.

(** The character of a digit is a digit, of that value, and neither a
    dash nor a space. *)
Lemma digit_char_spec (k : Z) :
  0 <= k <= 9 ->
  PyStr.is_digit (digit_char k) = true
  /\ dv (digit_char k) = k
  /\ Ascii.eqb (digit_char k) "-" = false
  /\ Ascii.eqb (digit_char k) " " = false.
Proof.
  intros H. apply digit_cases in H. simpl in H.
  repeat (destruct H as [<- | H]; [repeat split; vm_compute; reflexivity|]).
  destruct H.
Qed.

Lemma parse_year_pad4 (y : Z) (tail : string) :
  0 <= y <= 9999 -> parse_year (pad4 y tail) = Some (y, tail).
Proof.
  intros Hy. unfold pad4, pad2, parse_year.
  destruct (digit_char_spec (y / 1000)) as (D1 & V1 & _);
    [Z.div_mod_to_equations; lia|].
  destruct (digit_char_spec (y / 100 mod 10)) as (D2 & V2 & _);
    [Z.div_mod_to_equations; lia|].
  destruct (digit_char_spec (y mod 100 / 10)) as (D3 & V3 & _);
    [Z.div_mod_to_equations; lia|].
  destruct (digit_char_spec ((y mod 100) mod 10)) as (D4 & V4 & _);
    [Z.div_mod_to_equations; lia|].
  rewrite D1, D2, D3, D4, V1, V2, V3, V4. cbn [andb].
  do 2 f_equal. Z.div_mod_to_equations; lia.
Qed.

Lemma parse_month_pad2 (mo : Z) (tail : string) :
  1 <= mo <= 12 -> parse_month (pad2 mo (String "-" tail)) = Some (mo, tail).
Proof.
  intros Hm. unfold pad2, parse_month.
  destruct (digit_char_spec (mo / 10)) as (D1 & V1 & _);
    [Z.div_mod_to_equations; lia|].
  destruct (digit_char_spec (mo mod 10)) as (D2 & V2 & N2 & _);
    [Z.div_mod_to_equations; lia|].
  rewrite N2. cbn [dash]. rewrite Ascii.eqb_refl, D1, D2, V1, V2. cbn [andb].
  replace (10 * (mo / 10) + mo mod 10) with mo by (Z.div_mod_to_equations; lia).
  replace (1 <=? mo) with true by (symmetry; apply Z.leb_le; lia).
  replace (mo <=? 12) with true by (symmetry; apply Z.leb_le; lia).
  reflexivity.
Qed.

Lemma parse_day_pad2 (dd : Z) :
  1 <= dd <= 31 -> parse_day (pad2 dd "") = Some dd.
Proof.
  intros Hd. unfold pad2, parse_day.
  destruct (digit_char_spec (dd / 10)) as (D1 & V1 & _ & S1);
    [Z.div_mod_to_equations; lia|].
  destruct (digit_char_spec (dd mod 10)) as (D2 & V2 & _);
    [Z.div_mod_to_equations; lia|].
  rewrite S1, D1, D2, V1, V2. cbn [andb].
  replace (10 * (dd / 10) + dd mod 10) with dd by (Z.div_mod_to_equations; lia).
  replace (1 <=? dd) with true by (symmetry; apply Z.leb_le; lia).
  replace (dd <=? 31) with true by (symmetry; apply Z.leb_le; lia).
  reflexivity.
Qed.

Lemma days_in_month_le_31 (y mo : Z) : 1 <= mo <= 12 -> days_in_month y mo <= 31.
Proof.
  intros H. apply month_cases in H. simpl in H. unfold days_in_month.
  repeat (destruct H as [<- | H];
          [destruct (is_leap y); vm_compute; discriminate|]).
  destruct H.
Qed.

(** [strptime] reads a date written YYYY-MM-DD. *)
Lemma strptime_ymd (dt : date) :
  valid dt = true -> strptime (ymd dt) = Ok dt.
Proof.
  intros Hv. pose proof (valid_bounds dt Hv) as (Hy & Hm & Hd).
  pose proof (days_in_month_le_31 (year dt) (month dt) Hm).
  unfold strptime, ymd.
  rewrite parse_year_pad4 by lia. cbn [dash]. rewrite Ascii.eqb_refl.
  rewrite parse_month_pad2 by lia.
  rewrite parse_day_pad2 by lia.
  destruct dt as [y mo dd]. cbn [year month day] in *. now rewrite Hv.
Qed.

(** From the year 1000 on [strftime] writes YYYY-MM-DD, and [strptime]
    reads back what it wrote. *)
Lemma strftime_ymd (dt : date) : 1000 <= year dt -> strftime dt = ymd dt.
Proof.
  intros Hy. unfold strftime, ymd, year_text.
  destruct (Z.ltb_spec (year dt) 10); [lia|].
  destruct (Z.ltb_spec (year dt) 100); [lia|].
  destruct (Z.ltb_spec (year dt) 1000); [lia | reflexivity].
Qed.

Lemma strptime_strftime (dt : date) :
  valid dt = true -> 1000 <= year dt -> strptime (strftime dt) = Ok dt.
Proof. intros Hv Hy. rewrite strftime_ymd by exact Hy. now apply strptime_ymd. Qed.

(** Before the year 1000 the year is printed too short for [strptime]:
    a dash stands among its first four characters. *)
Lemma strptime_short_year (dt : date) :
  year dt < 1000 -> strptime (strftime dt) = Raise ValueError.
Proof.
  intros Hy. unfold strftime, year_text.
  assert (Hdash : PyStr.is_digit "-" = false) by reflexivity.
  destruct (Z.ltb_spec (year dt) 10);
    [|destruct (Z.ltb_spec (year dt) 100);
      [|destruct (Z.ltb_spec (year dt) 1000); [|lia]]];
    unfold strptime, pad2, parse_year;
    rewrite Hdash, ?andb_false_r; reflexivity.
Qed.







End Calendar.

(* ================================================================== *)
(** * What a pattern can describe *)

Lemma lang_alt_inv (ic : bool) (r1 r2 : Re.regex) (w : string) :
  Re.lang ic (Re.Alt r1 r2) w -> Re.lang ic r1 w \/ Re.lang ic r2 w.
Proof. intros H. inversion H; subst; auto. Qed.

Lemma lang_grp_inv (ic : bool) (i : nat) (r : Re.regex) (w : string) :
  Re.lang ic (Re.Grp i r) w -> Re.lang ic r w.
Proof. intros H. inversion H; subst; auto. Qed.

Lemma lang_empty_inv (ic : bool) (r : Re.regex) (w : string) :
  r = Re.Eps \/ r = Re.Wb -> Re.lang ic r w -> w = "".
Proof. intros [-> | ->] H; inversion H; reflexivity. Qed.

(** The characters of a described text are in the pattern's alphabet. *)
Lemma lang_alphabet (ic : bool) (r : Re.regex) :
  forall w, Re.lang ic r w -> PyStr.all_chars (Shape.alphabet ic r) w = true.
Proof.
  induction r as [ | p | items | r1 IH1 r2 IH2 | r1 IH1 r2 IH2
                 | lo hi r IH | i r IH | ]; intros w H.
  - apply (lang_empty_inv ic Re.Eps) in H; auto. now subst.
  - apply lang_chr_inv in H as (c & -> & Hc). simpl. now rewrite Hc.
  - apply lang_cls_inv in H as (c & -> & Hc). simpl. now rewrite Hc.
  - apply lang_seq_inv in H as (a & b & -> & Ha & Hb).
    rewrite all_chars_app. apply andb_true_intro. split.
    + apply all_chars_weaken with (p := Shape.alphabet ic r1); [|now apply IH1].
      intros c Hc. simpl. now rewrite Hc.
    + apply all_chars_weaken with (p := Shape.alphabet ic r2); [|now apply IH2].
      intros c Hc. simpl. rewrite Hc. apply orb_true_r.
  - apply lang_alt_inv in H as [H | H].
    + apply all_chars_weaken with (p := Shape.alphabet ic r1); [|now apply IH1].
      intros c Hc. simpl. now rewrite Hc.
    + apply all_chars_weaken with (p := Shape.alphabet ic r2); [|now apply IH2].
      intros c Hc. simpl. rewrite Hc. apply orb_true_r.
  - apply lang_rep_inv in H as (ws & -> & _ & _ & Hall).
    induction Hall as [|w ws Hw _ IHws]; [reflexivity|].
    cbn [Re.concat_str]. rewrite all_chars_app, IHws, andb_true_r.
    apply (IH w Hw).
  - apply lang_grp_inv in H. apply (IH w H).
  - apply (lang_empty_inv ic Re.Wb) in H; auto. now subst.
Qed.

(** A described text is no shorter than the pattern's least length. *)
Lemma lang_min_len (ic : bool) (r : Re.regex) :
  forall w, Re.lang ic r w -> Shape.min_len r <= String.length w.
Proof.
  induction r as [ | p | items | r1 IH1 r2 IH2 | r1 IH1 r2 IH2
                 | lo hi r IH | i r IH | ]; intros w H.
  - simpl. lia.
  - apply lang_chr_inv in H as (c & -> & _). simpl. lia.
  - apply lang_cls_inv in H as (c & -> & _). simpl. lia.
  - apply lang_seq_inv in H as (a & b & -> & Ha & Hb).
    rewrite length_append. simpl. specialize (IH1 a Ha). specialize (IH2 b Hb). lia.
  - apply lang_alt_inv in H as [H | H]; cbn [Shape.min_len];
      [specialize (IH1 w H) | specialize (IH2 w H)]; lia.
  - apply lang_rep_inv in H as (ws & -> & Hlo & _ & Hall). cbn [Shape.min_len].
    assert (K : List.length ws * Shape.min_len r
                <= String.length (Re.concat_str ws)).
    { clear Hlo. induction Hall as [|w ws Hw _ IHws]; [simpl; lia|].
      cbn [Re.concat_str List.length]. rewrite length_append.
      specialize (IH w Hw). simpl. lia. }
    nia.
  - apply lang_grp_inv in H. apply (IH w H).
  - simpl. lia.
Qed.

(** A described text is no longer than the pattern's greatest length. *)
Lemma lang_max_len (ic : bool) (r : Re.regex) :
  forall w n, Shape.max_len r = Some n -> Re.lang ic r w -> String.length w <= n.
Proof.
  induction r as [ | p | items | r1 IH1 r2 IH2 | r1 IH1 r2 IH2
                 | lo hi r IH | i r IH | ]; intros w n Hn H.
  - apply (lang_empty_inv ic Re.Eps) in H; auto. subst. simpl. lia.
  - apply lang_chr_inv in H as (c & -> & _). simpl in *. injection Hn as <-. lia.
  - apply lang_cls_inv in H as (c & -> & _). simpl in *. injection Hn as <-. lia.
  - apply lang_seq_inv in H as (a & b & -> & Ha & Hb). simpl in Hn.
    destruct (Shape.max_len r1) as [n1|]; [|discriminate].
    destruct (Shape.max_len r2) as [n2|]; [|discriminate].
    injection Hn as <-. rewrite length_append.
    specialize (IH1 a n1 eq_refl Ha). specialize (IH2 b n2 eq_refl Hb). lia.
  - cbn [Shape.max_len] in Hn.
    destruct (Shape.max_len r1) as [n1|]; [|discriminate].
    destruct (Shape.max_len r2) as [n2|]; [|discriminate].
    injection Hn as <-.
    apply lang_alt_inv in H as [H | H];
      [specialize (IH1 w n1 eq_refl H) | specialize (IH2 w n2 eq_refl H)]; lia.
  - apply lang_rep_inv in H as (ws & -> & _ & Hhi & Hall). simpl in Hn.
    destruct hi as [h|]; [|discriminate].
    destruct (Shape.max_len r) as [a|]; [|discriminate].
    injection Hn as <-. specialize (Hhi h eq_refl).
    assert (K : String.length (Re.concat_str ws) <= List.length ws * a).
    { clear Hhi. induction Hall as [|w ws Hw _ IHws]; [simpl; lia|].
      cbn [Re.concat_str List.length]. rewrite length_append.
      specialize (IH w a eq_refl Hw). simpl. lia. }
    nia.
  - apply lang_grp_inv in H. apply (IH w n Hn H).
  - apply (lang_empty_inv ic Re.Wb) in H; auto. subst. simpl. lia.
Qed.

(** ** What a group holds after a match *)

Lemma traced_refl (i : nat) (L : string -> Prop) (a : Re.mstate) :
  Shape.traced i L a a.
Proof. split; [now exists "" | auto]. Qed.

Lemma traced_trans (i : nat) (L : string -> Prop) (a b c : Re.mstate) :
  Shape.traced i L a b -> Shape.traced i L b c -> Shape.traced i L a c.
Proof.
  intros [[p1 E1] H1] [[p2 E2] H2]. split.
  - exists (p1 ++ p2). now rewrite E1, E2, append_assoc.
  - intros g Hg. destruct (H2 g Hg) as [Hb | [HL (x & y & E)]].
    + destruct (H1 g Hb) as [Ha | [HL (x & y & E)]]; [now left|].
      right. split; [exact HL|]. exists x, (y ++ p2).
      now rewrite E, E2, !append_assoc.
    + right. split; [exact HL|]. exists (p1 ++ x), y.
      now rewrite E1, E, !append_assoc.
Qed.

Lemma traced_weaken (i : nat) (L L' : string -> Prop) (a b : Re.mstate) :
  (forall g, L g -> L' g) -> Shape.traced i L a b -> Shape.traced i L' a b.
Proof.
  intros HL [Hp H]. split; [exact Hp|]. intros g Hg.
  destruct (H g Hg) as [Ha | [Hg' E]]; [now left | right; auto].
Qed.

Lemma rep_min_traced (i : nat) (L : string -> Prop)
      (f : Re.mstate -> list Re.mstate) :
  (forall st st', In st' (f st) -> Shape.traced i L st st') ->
  forall lo st st', In st' (Re.rep_min f lo st) -> Shape.traced i L st st'.
Proof.
  intros Hf. induction lo as [|k IH]; intros st st' Hin; simpl in Hin.
  - destruct Hin as [<- | []]. apply traced_refl.
  - apply in_flat_map in Hin as (mid & Hmid & Hin).
    eapply traced_trans; [apply (Hf _ _ Hmid) | apply (IH _ _ Hin)].
Qed.

Lemma rep_more_traced (i : nat) (L : string -> Prop)
      (f : Re.mstate -> list Re.mstate) :
  (forall st st', In st' (f st) -> Shape.traced i L st st') ->
  forall fuel extra st st',
    In st' (Re.rep_more f fuel extra st) -> Shape.traced i L st st'.
Proof.
  intros Hf. induction fuel as [|k IH]; intros extra st st' Hin; simpl in Hin.
  - destruct Hin as [<- | []]. apply traced_refl.
  - assert (K : In st' (flat_map (Re.rep_more f k (option_map pred extra)) (f st)
                        ++ [st]) -> Shape.traced i L st st').
    { intros H. apply in_app_or in H as [H | [<- | []]]; [|apply traced_refl].
      apply in_flat_map in H as (mid & Hmid & H).
      eapply traced_trans; [apply (Hf _ _ Hmid) | apply (IH _ _ _ H)]. }
    destruct extra as [[|e]|]; [|now apply K|now apply K].
    destruct Hin as [<- | []]. apply traced_refl.
Qed.

Lemma in_step_traced (i : nat) (L : string -> Prop) (ok : ascii -> bool)
      (st st' : Re.mstate) :
  In st' (Re.step ok st) -> Shape.traced i L st st'.
Proof.
  unfold Re.step. destruct (Re.rest st) as [|c s'] eqn:E; [intros []|].
  destruct (ok c); [|intros []]. intros [<- | []]. split; simpl.
  - exists (String c ""). now rewrite E.
  - auto.
Qed.

(** Whatever group [i] holds after a match of [r] that it did not hold
    before is a text one of the bodies of group [i] describes, read
    from the text the match went over. *)
Lemma m_traced (ic : bool) (i : nat) (r : Re.regex) :
  forall st st', In st' (Re.m ic r st) ->
                 Shape.traced i (Shape.group_lang ic i r) st st'.
Proof.
  induction r as [ | p | items | r1 IH1 r2 IH2 | r1 IH1 r2 IH2
                 | lo hi r IH | j r IH | ]; intros st st' Hin; cbn [Re.m] in Hin.
  - destruct Hin as [<- | []]. apply traced_refl.
  - now apply in_step_traced with (ok := Re.chr_eq ic p).
  - now apply in_step_traced with (ok := Re.cls_match ic items).
  - apply in_flat_map in Hin as (mid & Hmid & Hin).
    eapply traced_trans.
    + eapply traced_weaken; [|apply (IH1 _ _ Hmid)].
      intros g (body & Hb & Hl). exists body. split; [|exact Hl].
      cbn [Shape.bodies]. apply in_or_app. now left.
    + eapply traced_weaken; [|apply (IH2 _ _ Hin)].
      intros g (body & Hb & Hl). exists body. split; [|exact Hl].
      cbn [Shape.bodies]. apply in_or_app. now right.
  - apply in_app_or in Hin as [Hin | Hin].
    + eapply traced_weaken; [|apply (IH1 _ _ Hin)].
      intros g (body & Hb & Hl). exists body. split; [|exact Hl].
      cbn [Shape.bodies]. apply in_or_app. now left.
    + eapply traced_weaken; [|apply (IH2 _ _ Hin)].
      intros g (body & Hb & Hl). exists body. split; [|exact Hl].
      cbn [Shape.bodies]. apply in_or_app. now right.
  - apply in_flat_map in Hin as (mid & Hmid & Hin).
    eapply traced_trans.
    + apply (rep_min_traced i _ (Re.m ic r) IH _ _ _ Hmid).
    + apply (rep_more_traced i _ (Re.m ic r) IH _ _ _ _ Hin).
  - apply in_map_iff in Hin as (st1 & <- & Hin).
    destruct (m_sound ic r st st1 Hin) as (pre & Epre & Hpre).
    destruct (IH _ _ Hin) as [_ Hcaps].
    split; [now exists pre|]. intros g Hg. cbn [Re.capture Re.caps Re.rest Re.lookup] in *.
    destruct (Nat.eqb j i) eqn:Eji.
    + injection Hg as <-. right. rewrite (consumed_prefix st st1 pre Epre). split.
      * exists r. split; [|exact Hpre]. cbn [Shape.bodies]. rewrite Eji. now left.
      * exists "", "". simpl. exact Epre.
    + destruct (Hcaps g Hg) as [Ha | [(body & Hb & Hl) E]]; [now left|].
      right. split; [|exact E]. exists body. split; [|exact Hl].
      cbn [Shape.bodies]. rewrite Eji. exact Hb.
  - destruct (Re.at_boundary st); [|destruct Hin].
    destruct Hin as [<- | []]. apply traced_refl.
Qed.

(** A search starts its match with no group held. *)
Lemma search_from_start (ic : bool) (r : Re.regex) (text : string) :
  forall before pos mt,
    Re.search_from ic r before text pos = Some mt ->
    exists skipped before' s' st',
      text = skipped ++ s'
      /\ In st' (Re.m ic r (Re.MState before' s' []))
      /\ Re.m_caps mt = Re.caps st' /\ Re.m_after mt = Re.rest st'.
Proof.
  induction text as [|c text IH]; intros before pos mt H; simpl in H.
  - destruct (Re.m ic r (Re.MState before "" [])) as [|st l] eqn:E; [discriminate|].
    injection H as <-. exists "", before, "", st. rewrite E. simpl. auto.
  - destruct (Re.m ic r (Re.MState before (String c text) [])) as [|st l] eqn:E.
    + destruct (IH _ _ _ H) as (sk & b' & s' & st' & -> & Hin & Hc & Ha).
      exists (String c sk), b', s', st'. auto.
    + injection H as <-. exists "", before, (String c text), st.
      rewrite E. simpl. auto.
Qed.

(** What [match.group(i)] gives after a search is a text one of the
    bodies of group [i] describes, and it occurs in the searched text. *)
Lemma search_group_body (ic : bool) (i : nat) (r : Re.regex) (text : string)
      (mt : Re.rmatch) (g : string) :
  Re.search ic r text = Some mt ->
  Re.group i mt = Some g ->
  Shape.group_lang ic i r g /\ Shape.occurs_in g text.
Proof.
  intros Hs Hg.
  destruct (search_from_start ic r text None 0 mt Hs)
    as (sk & b' & s' & st' & -> & Hin & Hc & Ha).
  destruct (m_traced ic i r _ _ Hin) as [_ H].
  unfold Re.group in Hg. rewrite Hc in Hg.
  destruct (H g Hg) as [Hn | [HL (x & y & E)]]; [discriminate Hn|].
  split; [exact HL|]. simpl in E. subst s'.
  exists (sk ++ x), (y ++ Re.rest st'). now rewrite !append_assoc.
Qed.

Lemma first_match_in (ic : bool) (patterns : list Re.regex) (text : string)
      (mt : Re.rmatch) :
  Re.first_match ic patterns text = Some mt ->
  exists p, In p patterns /\ Re.search ic p text = Some mt.
Proof.
  induction patterns as [|p ps IH]; simpl; [discriminate|].
  destruct (Re.search ic p text) as [mt'|] eqn:E.
  - intros [= <-]. exists p. auto.
  - intros H. destruct (IH H) as (q & Hq & Hs). exists q. auto.
Qed.

(** The same for a loop over patterns. *)
Lemma first_match_group_body (ic : bool) (i : nat) (patterns : list Re.regex)
      (text : string) (mt : Re.rmatch) (g : string) :
  Re.first_match ic patterns text = Some mt ->
  Re.group i mt = Some g ->
  (exists p, In p patterns /\ Shape.group_lang ic i p g)
  /\ Shape.occurs_in g text.
Proof.
  intros Hf Hg. destruct (first_match_in _ _ _ _ Hf) as (p & Hp & Hs).
  destruct (search_group_body ic i p text mt g Hs Hg) as [HL Ho].
  split; [exists p; auto | exact Ho].
Qed.

(** ** The matcher finds what the pattern describes *)

Lemma consuming_min_len (r : Re.regex) :
  Re.consuming r = true -> 1 <= Shape.min_len r.
Proof.
  induction r as [ | p | items | r1 IH1 r2 IH2 | r1 IH1 r2 IH2
                 | lo hi r IH | i r IH | ]; cbn [Re.consuming Shape.min_len];
    intros H; try discriminate; auto.
  - apply orb_true_iff in H as [H | H]; [specialize (IH1 H) | specialize (IH2 H)]; lia.
  - apply andb_true_iff in H as [H1 H2].
    specialize (IH1 H1). specialize (IH2 H2). lia.
  - apply andb_true_iff in H as [H1 H2]. apply Nat.leb_le in H1.
    specialize (IH H2). nia.
Qed.

Lemma rep_more_here (f : Re.mstate -> list Re.mstate) (fuel : nat)
      (extra : option nat) (st : Re.mstate) :
  In st (Re.rep_more f fuel extra st).
Proof.
  destruct fuel as [|k]; simpl; [now left|].
  destruct extra as [[|e]|]; [now left | | ]; apply in_or_app; right; now left.
Qed.

Lemma rep_min_complete (L : string -> Prop) (f : Re.mstate -> list Re.mstate) :
  (forall w, L w -> forall st t, Re.rest st = w ++ t ->
                    exists st', In st' (f st) /\ Re.rest st' = t) ->
  forall ws, Forall L ws ->
  forall st t, Re.rest st = Re.concat_str ws ++ t ->
    exists st', In st' (Re.rep_min f (List.length ws) st) /\ Re.rest st' = t.
Proof.
  intros Hf. induction 1 as [|w ws Hw _ IH]; intros st t E.
  - exists st. simpl. auto.
  - cbn [Re.concat_str] in E. rewrite append_assoc in E.
    destruct (Hf w Hw st _ E) as (mid & Hmid & Emid).
    destruct (IH mid t Emid) as (st' & Hin & E').
    exists st'. split; [|exact E']. cbn [List.length Re.rep_min].
    apply in_flat_map. exists mid. auto.
Qed.

Lemma rep_more_complete (L : string -> Prop) (f : Re.mstate -> list Re.mstate) :
  (forall w, L w -> forall st t, Re.rest st = w ++ t ->
                    exists st', In st' (f st) /\ Re.rest st' = t) ->
  forall ws, Forall L ws ->
  forall fuel extra st t,
    List.length ws <= fuel ->
    (forall e, extra = Some e -> List.length ws <= e) ->
    Re.rest st = Re.concat_str ws ++ t ->
    exists st', In st' (Re.rep_more f fuel extra st) /\ Re.rest st' = t.
Proof.
  intros Hf. induction 1 as [|w ws Hw _ IH]; intros fuel extra st t Hfuel Hextra E.
  - exists st. split; [apply rep_more_here | exact E].
  - cbn [Re.concat_str] in E. rewrite append_assoc in E. cbn [List.length] in *.
    destruct (Hf w Hw st _ E) as (mid & Hmid & Emid).
    destruct fuel as [|k]; [lia|].
    destruct (IH k (option_map pred extra) mid t) as (st' & Hin & E'); [lia| |exact Emid|].
    { intros e He. destruct extra as [e0|]; [|discriminate].
      injection He as <-. specialize (Hextra e0 eq_refl). lia. }
    exists st'. split; [|exact E'].
    assert (K : In st' (flat_map (Re.rep_more f k (option_map pred extra)) (f st)
                        ++ [st])).
    { apply in_or_app. left. apply in_flat_map. exists mid. auto. }
    cbn [Re.rep_more]. destruct extra as [[|e]|]; [|exact K|exact K].
    specialize (Hextra 0 eq_refl). lia.
Qed.

Lemma concat_str_length (L : string -> Prop) (ws : list string) :
  (forall w, L w -> 1 <= String.length w) ->
  Forall L ws -> List.length ws <= String.length (Re.concat_str ws).
Proof.
  intros HL. induction 1 as [|w ws Hw _ IH]; simpl; [lia|].
  rewrite length_append. specialize (HL w Hw). lia.
Qed.

Lemma firstn_skipn_concat (n : nat) (ws : list string) :
  Re.concat_str ws = Re.concat_str (firstn n ws) ++ Re.concat_str (skipn n ws).
Proof.
  rewrite <- concat_str_app. now rewrite firstn_skipn.
Qed.

(** A pattern without [\b] whose repetitions consume: wherever a text it
    describes lies ahead, the matcher has a way to read exactly it. *)
Lemma m_complete (ic : bool) (r : Re.regex) :
  Shape.wb_free r = true -> Re.bounded r = true ->
  forall w, Re.lang ic r w ->
  forall st t, Re.rest st = w ++ t ->
    exists st', In st' (Re.m ic r st) /\ Re.rest st' = t.
Proof.
  induction r as [ | p | items | r1 IH1 r2 IH2 | r1 IH1 r2 IH2
                 | lo hi r IH | i r IH | ];
    cbn [Shape.wb_free Re.bounded]; intros Hwb Hbd w H st t E.
  - apply (lang_empty_inv ic Re.Eps) in H; auto. subst w.
    exists st. simpl. auto.
  - apply lang_chr_inv in H as (c & -> & Hc). simpl in E.
    exists (Re.MState (Some c) t (Re.caps st)). cbn [Re.m]. unfold Re.step.
    rewrite E, Hc. simpl. auto.
  - apply lang_cls_inv in H as (c & -> & Hc). simpl in E.
    exists (Re.MState (Some c) t (Re.caps st)). cbn [Re.m]. unfold Re.step.
    rewrite E, Hc. simpl. auto.
  - apply andb_true_iff in Hwb as [W1 W2]. apply andb_true_iff in Hbd as [B1 B2].
    apply lang_seq_inv in H as (a & b & -> & Ha & Hb). rewrite append_assoc in E.
    destruct (IH1 W1 B1 a Ha st _ E) as (mid & Hmid & Emid).
    destruct (IH2 W2 B2 b Hb mid t Emid) as (st' & Hin & E').
    exists st'. split; [|exact E']. cbn [Re.m]. apply in_flat_map. exists mid. auto.
  - apply andb_true_iff in Hwb as [W1 W2]. apply andb_true_iff in Hbd as [B1 B2].
    apply lang_alt_inv in H as [H | H].
    + destruct (IH1 W1 B1 w H st t E) as (st' & Hin & E').
      exists st'. split; [|exact E']. cbn [Re.m]. apply in_or_app. now left.
    + destruct (IH2 W2 B2 w H st t E) as (st' & Hin & E').
      exists st'. split; [|exact E']. cbn [Re.m]. apply in_or_app. now right.
  - apply andb_true_iff in Hbd as [Hc Hbd].
    apply lang_rep_inv in H as (ws & -> & Hlo & Hhi & Hall).
    specialize (IH Hwb Hbd).
    rewrite (firstn_skipn_concat lo ws), append_assoc in E.
    pose proof Hall as Hparts. rewrite <- (firstn_skipn lo ws) in Hparts.
    apply Forall_app in Hparts as [Hfirst Hrest].
    destruct (rep_min_complete (Re.lang ic r) (Re.m ic r) IH _ Hfirst st _ E)
      as (mid & Hmid & Emid).
    rewrite length_firstn, Nat.min_l in Hmid by exact Hlo.
    assert (Hlen : List.length (skipn lo ws) <= S (String.length (Re.rest st))).
    { pose proof (concat_str_length (Re.lang ic r) (skipn lo ws)) as K.
      rewrite E, !length_append.
      assert (List.length (skipn lo ws)
              <= String.length (Re.concat_str (skipn lo ws))); [|lia].
      apply K; [|exact Hrest]. intros x Hx.
      pose proof (lang_min_len ic r x Hx). pose proof (consuming_min_len r Hc). lia. }
    destruct (rep_more_complete (Re.lang ic r) (Re.m ic r) IH _ Hrest
                (S (String.length (Re.rest st))) (Re.extra_rounds lo hi) mid t)
      as (st' & Hin & E'); [exact Hlen | | exact Emid | ].
    { intros e He. unfold Re.extra_rounds in He. destruct hi as [h|]; [|discriminate].
      injection He as <-. specialize (Hhi h eq_refl).
      rewrite length_skipn. lia. }
    exists st'. split; [|exact E']. cbn [Re.m]. apply in_flat_map. exists mid. auto.
  - apply lang_grp_inv in H.
    destruct (IH Hwb Hbd w H st t E) as (st1 & Hin & E1).
    exists (Re.capture i st st1). split; [|exact E1].
    cbn [Re.m]. apply in_map. exact Hin.
  - discriminate.
Qed.

Lemma search_from_complete (ic : bool) (r : Re.regex) (w after : string) :
  Shape.wb_free r = true -> Re.bounded r = true -> Re.lang ic r w ->
  forall before prev pos,
    Re.search_from ic r prev (before ++ w ++ after) pos <> None.
Proof.
  intros Hwb Hbd Hw. induction before as [|c before IH]; intros prev pos.
  - destruct (m_complete ic r Hwb Hbd w Hw (Re.MState prev (w ++ after) []) after eq_refl)
      as (st' & Hin & _).
    cbn [append]. destruct (w ++ after) as [|c s']; simpl;
      destruct (Re.m ic r _) as [|st l]; try discriminate; destruct Hin.
  - cbn [append Re.search_from].
    destruct (Re.m ic r _) as [|st l]; [apply IH | discriminate].
Qed.

(** So a search succeeds on every text in which a described text
    occurs. *)
Lemma search_complete (ic : bool) (r : Re.regex) (w text : string) :
  Shape.wb_free r = true -> Re.bounded r = true ->
  Re.lang ic r w -> Shape.occurs_in w text ->
  exists mt, Re.search ic r text = Some mt.
Proof.
  intros Hwb Hbd Hw (before & after & ->).
  pose proof (search_from_complete ic r w after Hwb Hbd Hw before None 0) as K.
  unfold Re.search. destruct (Re.search_from _ _ _ _ _) as [mt|]; [eauto | now destruct K].
Qed.

(* ================================================================== *)
(** * The entity record, field by field *)

(** [extract_entities] returns the record laid out block after block. *)
Lemma extract_entities_record (text : string) :
  extract_entities text = Ok (record_of text).
Proof.
  unfold extract_entities, record_of, route_entries, field_of, passengers_field.
  destruct (extract_passenger_info_sum text) as (p & Hp & _). rewrite Hp.
  do 4 first_match_block.
  all: destruct (Re.search true route_pattern text) as [rt|] eqn:Er;
    [ destruct (fills_search true 1 route_pattern text rt eq_refl Er) as [o Ho];
      destruct (fills_search true 2 route_pattern text rt eq_refl Er) as [dst Hd];
      rewrite Ho, Hd, (group_str_group 1 rt o Ho), (group_str_group 2 rt dst Hd)
    | ];
    cbn [bind];
    destruct p as [|kv p]; cbn [PyDict.truthy]; reflexivity.
Qed.

(** One class of characters within another, settled over the 256. *)
Lemma class_within (p q : ascii -> bool) :
  forallb (fun c => implb (p c) (q c)) PyStr.all_ascii = true ->
  forall c, p c = true -> q c = true.
Proof.
  intros H c Hc. pose proof (for_all_ascii _ H c) as K. cbv beta in K.
  now rewrite Hc in K.
Qed.

(** What a group holds, measured by an alphabet and a least length
    read off the bodies of the group. *)
Lemma group_chars (ic : bool) (i : nat) (patterns : list Re.regex)
      (ok : ascii -> bool) (lo : nat) (g : string) :
  forallb (fun p =>
    forallb (fun body =>
      forallb (fun c => implb (Shape.alphabet ic body c) (ok c)) PyStr.all_ascii
      && (lo <=? Shape.min_len body)%nat) (Shape.bodies i p)) patterns = true ->
  (exists p, In p patterns /\ Shape.group_lang ic i p g) ->
  PyStr.all_chars ok g = true /\ lo <= String.length g.
Proof.
  intros Hall (p & Hp & body & Hb & Hl).
  rewrite forallb_forall in Hall. specialize (Hall p Hp).
  rewrite forallb_forall in Hall. specialize (Hall body Hb).
  apply andb_true_iff in Hall as [Halpha Hmin].
  split.
  - apply all_chars_weaken with (p := Shape.alphabet ic body);
      [|now apply lang_alphabet].
    exact (class_within _ _ Halpha).
  - apply Nat.leb_le in Hmin. pose proof (lang_min_len ic body g Hl). lia.
Qed.

(** And by a greatest length. *)
Lemma group_max (ic : bool) (i : nat) (patterns : list Re.regex)
      (hi : nat) (g : string) :
  forallb (fun p =>
    forallb (fun body =>
      match Shape.max_len body with
      | Some n => (n <=? hi)%nat
      | None => false
      end) (Shape.bodies i p)) patterns = true ->
  (exists p, In p patterns /\ Shape.group_lang ic i p g) ->
  String.length g <= hi.
Proof.
  intros Hall (p & Hp & body & Hb & Hl).
  rewrite forallb_forall in Hall. specialize (Hall p Hp).
  rewrite forallb_forall in Hall. specialize (Hall body Hb).
  destruct (Shape.max_len body) as [n|] eqn:En; [|discriminate].
  apply Nat.leb_le in Hall. pose proof (lang_max_len ic body g n En Hl). lia.
Qed.

Lemma get_entry_same (key : string) (v : option value) (rest : entities_t) :
  PyDict.get key (entry key v ++ rest)%list
  = match v with Some x => Some x | None => PyDict.get key rest end.
Proof.
  destruct v; cbn [entry app PyDict.get]; [now rewrite String.eqb_refl | reflexivity].
Qed.

Lemma get_entry_other (key k : string) (v : option value) (rest : entities_t) :
  String.eqb k key = false ->
  PyDict.get key (entry k v ++ rest)%list = PyDict.get key rest.
Proof.
  intros H. destruct v; cbn [entry app PyDict.get]; [now rewrite H | reflexivity].
Qed.

Lemma get_route_entries_other (key text : string) (rest : entities_t) :
  String.eqb "origin" key = false -> String.eqb "destination" key = false ->
  String.eqb "route" key = false ->
  PyDict.get key (route_entries text ++ rest)%list = PyDict.get key rest.
Proof.
  intros H1 H2 H3. unfold route_entries.
  destruct (Re.search true route_pattern text) as [mt|]; [|reflexivity].
  destruct (Re.group 1 mt); [|reflexivity].
  destruct (Re.group 2 mt); [|reflexivity].
  cbn [app PyDict.get]. now rewrite H1, H2, H3.
Qed.

Lemma field_of_group (ic : bool) (patterns : list Re.regex) (text : string)
      (post : string -> string) (v : value) :
  field_of ic patterns text post = Some v ->
  exists mt g, Re.first_match ic patterns text = Some mt
               /\ Re.group 1 mt = Some g /\ v = VStr (post g).
Proof.
  unfold field_of.
  destruct (Re.first_match ic patterns text) as [mt|] eqn:E; [|discriminate].
  destruct (Re.group 1 mt) as [g|] eqn:Eg; [|discriminate].
  simpl. intros [= <-]. exists mt, g. auto.
Qed.

Lemma record_date (text : string) :
  PyDict.get "date" (record_of text)
  = field_of false NlpExtractor.date_patterns text (fun g => g).
Proof.
  unfold record_of.
  rewrite get_entry_other by reflexivity. rewrite get_entry_same.
  destruct (field_of false _ text _); [reflexivity|].
  rewrite !get_entry_other by reflexivity.
  rewrite get_route_entries_other by reflexivity.
  now destruct (passengers_field text).
Qed.

Lemma record_amount (text : string) :
  PyDict.get "amount" (record_of text)
  = field_of true amount_patterns text PyStr.strip.
Proof.
  unfold record_of.
  rewrite !get_entry_other by reflexivity. rewrite get_entry_same.
  destruct (field_of true amount_patterns text _); [reflexivity|].
  rewrite !get_entry_other by reflexivity.
  rewrite get_route_entries_other by reflexivity.
  now destruct (passengers_field text).
Qed.

Lemma record_booking_id (text : string) :
  PyDict.get "booking_id" (record_of text)
  = field_of false pnr_patterns text (fun g => g).
Proof.
  unfold record_of.
  rewrite !get_entry_other by reflexivity. rewrite get_entry_same.
  destruct (field_of false pnr_patterns text _); [reflexivity|].
  rewrite get_route_entries_other by reflexivity.
  now destruct (passengers_field text).
Qed.

Lemma record_passengers (text : string) :
  PyDict.get "passengers" (record_of text) = passengers_field text.
Proof.
  unfold record_of.
  rewrite !get_entry_other by reflexivity.
  rewrite get_route_entries_other by reflexivity.
  now destruct (passengers_field text).
Qed.

(** X1: the date of a record is a piece of the text, copied as it
    stands: six to ten characters, each a digit, a slash or a dash.  No
    calendar is consulted, so [99/99/0000] is taken as a date. *)
Theorem date_is_copied_unchecked (text : string) (e : entities_t) (v : value) :
  extract_entities text = Ok e ->
  PyDict.get "date" e = Some v ->
  exists g, v = VStr g
            /\ Shape.occurs_in g text
            /\ 6 <= String.length g <= 10
            /\ PyStr.all_chars is_date_char g = true.
Proof.
  rewrite extract_entities_record. intros [= <-]. rewrite record_date. intros H.
  apply field_of_group in H as (mt & g & Hf & Hg & ->).
  destruct (first_match_group_body false 1 _ text mt g Hf Hg) as [HL Ho].
  destruct (group_chars false 1 NlpExtractor.date_patterns is_date_char 6 g)
    as [Hc Hlo]; [vm_compute; reflexivity | exact HL |].
  pose proof (group_max false 1 NlpExtractor.date_patterns 10 g eq_refl HL) as Hhi.
  exists g. auto.
Qed.

Lemma date_is_copied_unchecked_witness :
  exists g, VStr "99/99/0000" = VStr g
            /\ Shape.occurs_in g "Travel: 99/99/0000"
            /\ 6 <= String.length g <= 10
            /\ PyStr.all_chars is_date_char g = true.
Proof.
  apply (date_is_copied_unchecked "Travel: 99/99/0000"
           [("date", VStr "99/99/0000")] (VStr "99/99/0000"));
    vm_compute; reflexivity.
Defined.

(** X2: the amount of a record is a piece of the text made of digits,
    commas and points only, one character or more: the currency sign,
    rupee or dollar, and the white space around the number are left
    out. *)
Theorem amount_is_a_bare_number (text : string) (e : entities_t) (v : value) :
  extract_entities text = Ok e ->
  PyDict.get "amount" e = Some v ->
  exists g, v = VStr g
            /\ Shape.occurs_in g text
            /\ 1 <= String.length g
            /\ PyStr.all_chars is_amount_char g = true.
Proof.
  rewrite extract_entities_record. intros [= <-]. rewrite record_amount. intros H.
  apply field_of_group in H as (mt & g & Hf & Hg & ->).
  destruct (first_match_group_body true 1 _ text mt g Hf Hg) as [HL Ho].
  destruct (group_chars true 1 amount_patterns is_amount_char 1 g)
    as [Hc Hlo]; [vm_compute; reflexivity | exact HL |].
  exists g. rewrite strip_solid; [auto|].
  apply all_chars_weaken with (p := is_amount_char); [|exact Hc].
  apply class_within. vm_compute; reflexivity.
Qed.

Lemma amount_is_a_bare_number_witness :
  exists g, VStr "1,250.00" = VStr g
            /\ Shape.occurs_in g "Total fare: ₹ 1,250.00 only"
            /\ 1 <= String.length g
            /\ PyStr.all_chars is_amount_char g = true.
Proof.
  apply (amount_is_a_bare_number "Total fare: ₹ 1,250.00 only"
           [("amount", VStr "1,250.00")] (VStr "1,250.00"));
    vm_compute; reflexivity.
Defined.

(** X3: the booking id of a record, whichever of the four patterns found
    it, is a piece of the text of six to twelve characters, each an
    uppercase letter or a digit. *)
Theorem booking_id_is_a_token (text : string) (e : entities_t) (v : value) :
  extract_entities text = Ok e ->
  PyDict.get "booking_id" e = Some v ->
  exists g, v = VStr g
            /\ Shape.occurs_in g text
            /\ 6 <= String.length g <= 12
            /\ PyStr.all_chars is_upper_alnum g = true.
Proof.
  rewrite extract_entities_record. intros [= <-]. rewrite record_booking_id. intros H.
  apply field_of_group in H as (mt & g & Hf & Hg & ->).
  destruct (first_match_group_body false 1 _ text mt g Hf Hg) as [HL Ho].
  destruct (group_chars false 1 pnr_patterns is_upper_alnum 6 g)
    as [Hc Hlo]; [vm_compute; reflexivity | exact HL |].
  pose proof (group_max false 1 pnr_patterns 12 g eq_refl HL) as Hhi.
  exists g. auto.
Qed.

Lemma booking_id_is_a_token_witness :
  exists g, VStr "AB12CD34EF56" = VStr g
            /\ Shape.occurs_in g "Booking: AB12CD34EF56XYZ"
            /\ 6 <= String.length g <= 12
            /\ PyStr.all_chars is_upper_alnum g = true.
Proof.
  apply (booking_id_is_a_token "Booking: AB12CD34EF56XYZ"
           [("booking_id", VStr "AB12CD34EF56")] (VStr "AB12CD34EF56"));
    vm_compute; reflexivity.
Defined.

Lemma record_route (text key : string) :
  In key ["origin"; "destination"; "route"] ->
  PyDict.get key (record_of text) = PyDict.get key (route_entries text).
Proof.
  intros Hk. unfold record_of.
  assert (K : PyDict.get key (route_entries text
                              ++ entry "passengers" (passengers_field text))%list
              = PyDict.get key (route_entries text)).
  { unfold route_entries.
    destruct (Re.search true route_pattern text) as [mt|];
      [destruct (Re.group 1 mt); [destruct (Re.group 2 mt)|]|];
      cbn [app];
      destruct (passengers_field text); simpl in Hk;
      repeat (destruct Hk as [<- | Hk]; [reflexivity|]); destruct Hk. }
  simpl in Hk.
  repeat (destruct Hk as [<- | Hk];
          [rewrite !get_entry_other by reflexivity; exact K|]).
  destruct Hk.
Qed.

(** A group of letters, as the route pattern has two. *)
Lemma route_group (i : nat) (text : string) (mt : Re.rmatch) (g : string) :
  In i [1; 2] ->
  Re.search true route_pattern text = Some mt ->
  Re.group i mt = Some g ->
  PyStr.strip g = g /\ Shape.occurs_in g text
  /\ 1 <= String.length g /\ PyStr.all_chars PyStr.is_alpha g = true.
Proof.
  intros Hi Hs Hg.
  destruct (search_group_body true i route_pattern text mt g Hs Hg) as [HL Ho].
  destruct (group_chars true i [route_pattern] PyStr.is_alpha 1 g) as [Hc Hlo].
  { simpl in Hi. destruct Hi as [<- | [<- | []]]; vm_compute; reflexivity. }
  { exists route_pattern. split; [now left | exact HL]. }
  repeat split; auto. apply strip_solid.
  apply all_chars_weaken with (p := PyStr.is_alpha); [|exact Hc].
  apply class_within. vm_compute; reflexivity.
Qed.

Lemma route_fields (text : string) (e : entities_t) :
  extract_entities text = Ok e ->
  (PyDict.get "origin" e = None /\ PyDict.get "destination" e = None
   /\ PyDict.get "route" e = None)
  \/ exists o d,
       PyDict.get "origin" e = Some (VStr o)
       /\ PyDict.get "destination" e = Some (VStr d)
       /\ PyDict.get "route" e = Some (VStr (o ++ "-" ++ d))
       /\ Shape.occurs_in o text /\ Shape.occurs_in d text
       /\ 1 <= String.length o /\ PyStr.all_chars PyStr.is_alpha o = true
       /\ 1 <= String.length d /\ PyStr.all_chars PyStr.is_alpha d = true.
Proof.
  rewrite extract_entities_record. intros [= <-].
  rewrite !record_route by (simpl; auto). unfold route_entries.
  destruct (Re.search true route_pattern text) as [mt|] eqn:Es; [|left; auto].
  destruct (fills_search true 1 route_pattern text mt eq_refl Es) as [o Ho].
  destruct (fills_search true 2 route_pattern text mt eq_refl Es) as [d Hd].
  apply group_str_group in Ho, Hd. rewrite Ho, Hd.
  destruct (route_group 1 text mt o) as (So & Oo & Lo & Ao); [simpl; auto | auto | auto |].
  destruct (route_group 2 text mt d) as (Sd & Od & Ld & Ad); [simpl; auto | auto | auto |].
  right. exists o, d. rewrite So, Sd. repeat split; auto.
Qed.

(** X4: [origin], [destination] and [route] are all absent or all
    present.  When present, origin and destination are runs of letters
    taken from the text, and the route is the two joined by a dash. *)
Theorem route_fields_come_together (text : string) (e : entities_t) :
  extract_entities text = Ok e ->
  (PyDict.get "origin" e = None /\ PyDict.get "destination" e = None
   /\ PyDict.get "route" e = None)
  \/ exists o d,
       PyDict.get "origin" e = Some (VStr o)
       /\ PyDict.get "destination" e = Some (VStr d)
       /\ PyDict.get "route" e = Some (VStr (o ++ "-" ++ d))
       /\ Shape.occurs_in o text /\ Shape.occurs_in d text
       /\ 1 <= String.length o /\ PyStr.all_chars PyStr.is_alpha o = true
       /\ 1 <= String.length d /\ PyStr.all_chars PyStr.is_alpha d = true.
Proof. exact (route_fields text e). Qed.

Lemma route_fields_come_together_witness :
  (PyDict.get "origin" [("origin", VStr "want"); ("destination", VStr "fly");
                        ("route", VStr "want-fly")] = None
   /\ PyDict.get "destination" [("origin", VStr "want"); ("destination", VStr "fly");
                                ("route", VStr "want-fly")] = None
   /\ PyDict.get "route" [("origin", VStr "want"); ("destination", VStr "fly");
                          ("route", VStr "want-fly")] = None)
  \/ exists o d,
       PyDict.get "origin" [("origin", VStr "want"); ("destination", VStr "fly");
                            ("route", VStr "want-fly")] = Some (VStr o)
       /\ PyDict.get "destination" [("origin", VStr "want"); ("destination", VStr "fly");
                                    ("route", VStr "want-fly")] = Some (VStr d)
       /\ PyDict.get "route" [("origin", VStr "want"); ("destination", VStr "fly");
                              ("route", VStr "want-fly")] = Some (VStr (o ++ "-" ++ d))
       /\ Shape.occurs_in o "I want to fly" /\ Shape.occurs_in d "I want to fly"
       /\ 1 <= String.length o /\ PyStr.all_chars PyStr.is_alpha o = true
       /\ 1 <= String.length d /\ PyStr.all_chars PyStr.is_alpha d = true.
Proof.
  apply (route_fields_come_together "I want to fly"); vm_compute; reflexivity.
Defined.

(** X5: whenever the text holds two runs of letters with the word [to]
    between them, white space on both sides of it, the record has an
    origin, a destination and a route, whatever the two words are. *)
Theorem any_to_makes_a_route (text a gap1 gap2 b : string) (e : entities_t) :
  1 <= String.length a -> PyStr.all_chars PyStr.is_alpha a = true ->
  1 <= String.length b -> PyStr.all_chars PyStr.is_alpha b = true ->
  1 <= String.length gap1 -> PyStr.all_chars PyStr.is_space gap1 = true ->
  1 <= String.length gap2 -> PyStr.all_chars PyStr.is_space gap2 = true ->
  Shape.occurs_in (a ++ gap1 ++ "to" ++ gap2 ++ b) text ->
  extract_entities text = Ok e ->
  exists o d, PyDict.get "origin" e = Some (VStr o)
              /\ PyDict.get "destination" e = Some (VStr d)
              /\ PyDict.get "route" e = Some (VStr (o ++ "-" ++ d)).
Proof.
  intros La Aa Lb Ab L1 A1 L2 A2 Ho He.
  destruct (route_fields text e He)
    as [(Hn & _) | (o & d & H1 & H2 & H3 & _)]; [|eauto].
  exfalso. revert He. rewrite extract_entities_record. intros [= <-].
  rewrite record_route in Hn by (simpl; auto). unfold route_entries in Hn.
  assert (Hl : Re.lang true route_pattern (a ++ gap1 ++ "to" ++ gap2 ++ b)).
  { assert (run : forall items w, 1 <= String.length w ->
               PyStr.all_chars (Re.cls_match true items) w = true ->
               Re.lang true (Re.plus (Re.Cls items)) w).
    { intros items w Hlen Hw.
      assert (E : w = Re.concat_str (map (fun c => String c "") (list_ascii_of_string w))).
      { clear. induction w as [|c w IH]; simpl; [reflexivity | now rewrite <- IH]. }
      rewrite E. apply Re.lang_rep.
      - rewrite length_map. clear -Hlen. destruct w; simpl in *; lia.
      - discriminate.
      - clear -Hw. induction w as [|c w IH]; simpl in *; constructor.
        + apply andb_true_iff in Hw as [Hc _]. now constructor.
        + apply andb_true_iff in Hw as [_ Hw]. now apply IH. }
    assert (letters_run : forall w, 1 <= String.length w ->
               PyStr.all_chars PyStr.is_alpha w = true -> Re.lang true letters w).
    { intros w Hlen Hw. apply run; [exact Hlen|].
      apply all_chars_weaken with (p := PyStr.is_alpha); [|exact Hw].
      apply class_within. vm_compute; reflexivity. }
    assert (space_run : forall w, 1 <= String.length w ->
               PyStr.all_chars PyStr.is_space w = true -> Re.lang true (Re.plus Re.s) w).
    { intros w Hlen Hw. apply run; [exact Hlen|].
      apply all_chars_weaken with (p := PyStr.is_space); [|exact Hw].
      apply class_within. vm_compute; reflexivity. }
    unfold route_pattern, Re.pattern. cbn [Re.seq].
    apply Re.lang_seq; [apply Re.lang_grp; now apply letters_run|].
    apply Re.lang_seq; [now apply space_run|].
    apply (Re.lang_seq true _ _ "to"); [|apply Re.lang_seq;
      [now apply space_run | apply Re.lang_grp; now apply letters_run]].
    apply (Re.lang_seq true (Re.Chr "t") (Re.Chr "o") "t" "o");
      constructor; reflexivity. }
  destruct (search_complete true route_pattern _ text eq_refl eq_refl Hl Ho) as [mt Hs].
  rewrite Hs in Hn.
  destruct (fills_search true 1 route_pattern text mt eq_refl Hs) as [o Ho'].
  destruct (fills_search true 2 route_pattern text mt eq_refl Hs) as [d Hd'].
  apply group_str_group in Ho', Hd'. rewrite Ho', Hd' in Hn. discriminate Hn.
Qed.

Lemma any_to_makes_a_route_witness :
  exists o d,
    PyDict.get "origin" [("origin", VStr "How"); ("destination", VStr "get");
                         ("route", VStr "How-get")] = Some (VStr o)
    /\ PyDict.get "destination" [("origin", VStr "How"); ("destination", VStr "get");
                                 ("route", VStr "How-get")] = Some (VStr d)
    /\ PyDict.get "route" [("origin", VStr "How"); ("destination", VStr "get");
                           ("route", VStr "How-get")] = Some (VStr (o ++ "-" ++ d)).
Proof.
  apply (any_to_makes_a_route "How to get a refund" "How" " " " " "get");
    try (vm_compute; reflexivity); try (simpl; lia).
  exists "", " a refund". reflexivity.
Defined.

(** ** The layout of the record *)

Lemma subseq_In (l2 l1 : list string) :
  subseq l1 l2 = true -> forall x, In x l1 -> In x l2.
Proof.
  revert l1. induction l2 as [|b l2 IH]; intros l1 H x Hx.
  - destruct l1; [destruct Hx | discriminate].
  - destruct l1 as [|a l1]; [destruct Hx|]. cbn [subseq] in H.
    destruct (String.eqb a b) eqn:E.
    + apply String.eqb_eq in E. subst b. destruct Hx as [<- | Hx]; [now left|].
      right. apply (IH l1 H x Hx).
    + right. apply (IH (a :: l1) H x Hx).
Qed.

Lemma subseq_NoDup (l2 l1 : list string) :
  subseq l1 l2 = true -> NoDup l2 -> NoDup l1.
Proof.
  revert l1. induction l2 as [|b l2 IH]; intros l1 H Hnd.
  - destruct l1; [constructor | discriminate].
  - destruct l1 as [|a l1]; [constructor|]. cbn [subseq] in H.
    inversion Hnd as [|? ? Hb Hnd']; subst.
    destruct (String.eqb a b) eqn:E.
    + apply String.eqb_eq in E. subst b. constructor; [|now apply IH].
      intros Ha. apply Hb. apply (subseq_In l2 l1 H a Ha).
    + now apply IH.
Qed.

Lemma field_of_str (ic : bool) (patterns : list Re.regex) (text : string)
      (post : string -> string) :
  exists o, field_of ic patterns text post = option_map VStr o.
Proof.
  unfold field_of. destruct (Re.first_match ic patterns text) as [mt|];
    [|now exists None].
  destruct (Re.group 1 mt) as [g|]; [now exists (Some (post g)) | now exists None].
Qed.

Lemma route_entries_cases (text : string) :
  route_entries text = []
  \/ exists o d, route_entries text
                 = [("origin", VStr o); ("destination", VStr d);
                    ("route", VStr (o ++ "-" ++ d))].
Proof.
  unfold route_entries. destruct (Re.search true route_pattern text) as [mt|]; [|now left].
  destruct (Re.group 1 mt); [|now left]. destruct (Re.group 2 mt); [|now left].
  right. eauto.
Qed.

Lemma passengers_field_cases (text : string) :
  passengers_field text = None \/ exists p, passengers_field text = Some (VPax p).
Proof.
  unfold passengers_field. destruct (extract_passenger_info text) as [[|kv p]|];
    [now left | right; eauto | now left].
Qed.

Lemma record_layout (text : string) :
  NoDup (PyDict.keys (record_of text))
  /\ subseq (PyDict.keys (record_of text)) entity_keys = true
  /\ forall k v, In (k, v) (record_of text) ->
                 is_str v = negb (String.eqb k "passengers").
Proof.
  assert (K : subseq (PyDict.keys (record_of text)) entity_keys = true
              /\ forall k v, In (k, v) (record_of text) ->
                             is_str v = negb (String.eqb k "passengers")).
  { unfold record_of.
    destruct (field_of_str true name_patterns text PyStr.strip) as [o1 ->].
    destruct (field_of_str false NlpExtractor.date_patterns text (fun g => g)) as [o2 ->].
    destruct (field_of_str true amount_patterns text PyStr.strip) as [o3 ->].
    destruct (field_of_str false pnr_patterns text (fun g => g)) as [o4 ->].
    destruct (route_entries_cases text) as [-> | (o & d & ->)];
      destruct (passengers_field_cases text) as [-> | (p & ->)];
      destruct o1, o2, o3, o4; (split; [reflexivity|]);
      cbn [entry option_map app]; intros k v H;
      repeat (destruct H as [[= <- <-] | H]; [reflexivity|]); destruct H. }
  destruct K as [Ks Kv]. split; [|auto].
  apply (subseq_NoDup entity_keys _ Ks).
  unfold entity_keys. repeat constructor; simpl; intuition discriminate.
Qed.

(** X6: the keys of a record are distinct and come in the order name,
    date, amount, booking_id, origin, destination, route, passengers;
    every value is a string, except that of [passengers]. *)
Theorem record_keys_in_order (text : string) (e : entities_t) :
  extract_entities text = Ok e ->
  NoDup (PyDict.keys e)
  /\ subseq (PyDict.keys e) entity_keys = true
  /\ forall k v, In (k, v) e -> is_str v = negb (String.eqb k "passengers").
Proof.
  rewrite extract_entities_record. intros [= <-]. apply record_layout.
Qed.

Lemma record_keys_in_order_witness :
  NoDup (PyDict.keys [("date", VStr "2024-03-05"); ("booking_id", VStr "ABC123");
                      ("passengers", VPax [("adult_male", 2%Z); ("total", 2%Z)])])
  /\ subseq (PyDict.keys [("date", VStr "2024-03-05"); ("booking_id", VStr "ABC123");
                          ("passengers", VPax [("adult_male", 2%Z); ("total", 2%Z)])])
            entity_keys = true
  /\ forall k v,
       In (k, v) [("date", VStr "2024-03-05"); ("booking_id", VStr "ABC123");
                  ("passengers", VPax [("adult_male", 2%Z); ("total", 2%Z)])] ->
       is_str v = negb (String.eqb k "passengers").
Proof.
  apply (record_keys_in_order "PNR: ABC123 on 2024-03-05 for 2 men").
  vm_compute; reflexivity.
Defined.

(* ================================================================== *)
(** * Passenger counts, category by category *)

(** A search that succeeds has read a text the pattern describes. *)
Lemma search_sound (ic : bool) (r : Re.regex) (text : string) (mt : Re.rmatch) :
  Re.search ic r text = Some mt ->
  exists w, Re.lang ic r w /\ Shape.occurs_in w text.
Proof.
  intros H. destruct (search_from_split ic r text None 0 mt H)
    as (sk & st & st' & -> & Hin & _ & _).
  destruct (m_sound ic r st st' Hin) as (pre & E & Hl).
  exists pre. split; [exact Hl|]. exists sk, (Re.rest st'). now rewrite E.
Qed.

Lemma lang_needs (ic : bool) (ok : ascii -> bool) (r : Re.regex) :
  Shape.needs ic ok r = true ->
  forall w, Re.lang ic r w ->
            PyStr.all_chars (fun c => negb (ok c)) w = false.
Proof.
  induction r as [ | p | items | r1 IH1 r2 IH2 | r1 IH1 r2 IH2
                 | lo hi r IH | i r IH | ]; cbn [Shape.needs]; intros Hn w H;
    try discriminate.
  - apply lang_chr_inv in H as (c & -> & Hc). simpl.
    now rewrite (class_within _ _ Hn c Hc).
  - apply lang_cls_inv in H as (c & -> & Hc). simpl.
    now rewrite (class_within _ _ Hn c Hc).
  - apply lang_seq_inv in H as (a & b & -> & Ha & Hb). rewrite all_chars_app.
    apply orb_true_iff in Hn as [Hn | Hn].
    + now rewrite (IH1 Hn a Ha).
    + rewrite (IH2 Hn b Hb). apply andb_false_r.
  - apply andb_true_iff in Hn as [Hn1 Hn2].
    apply lang_alt_inv in H as [H | H]; [now apply IH1 | now apply IH2].
  - apply andb_true_iff in Hn as [Hlo Hn]. apply Nat.leb_le in Hlo.
    apply lang_rep_inv in H as (ws & -> & Hlen & _ & Hall).
    destruct Hall as [|w ws Hw _]; [simpl in Hlen; lia|].
    cbn [Re.concat_str]. rewrite all_chars_app. now rewrite (IH Hn w Hw).
  - apply lang_grp_inv in H. now apply IH.
Qed.

(** A pattern that needs a digit finds nothing in a text without one. *)
Lemma search_needs (ic : bool) (ok : ascii -> bool) (r : Re.regex) (text : string) :
  Shape.needs ic ok r = true ->
  PyStr.all_chars (fun c => negb (ok c)) text = true ->
  Re.search ic r text = None.
Proof.
  intros Hn Ht. destruct (Re.search ic r text) as [mt|] eqn:E; [|reflexivity].
  destruct (search_sound ic r text mt E) as (w & Hl & before & after & ->).
  rewrite !all_chars_app in Ht.
  apply andb_true_iff in Ht as [_ Ht]. apply andb_true_iff in Ht as [Ht _].
  now rewrite (lang_needs ic ok r Hn w Hl) in Ht.
Qed.

Lemma first_match_needs (ic : bool) (ok : ascii -> bool)
      (patterns : list Re.regex) (text : string) :
  forallb (Shape.needs ic ok) patterns = true ->
  PyStr.all_chars (fun c => negb (ok c)) text = true ->
  Re.first_match ic patterns text = None.
Proof.
  intros Hn Ht. induction patterns as [|p ps IH]; [reflexivity|].
  cbn [forallb] in Hn. apply andb_true_iff in Hn as [Hp Hps].
  cbn [Re.first_match]. now rewrite (search_needs ic ok p text Hp Ht), IH.
Qed.

(** X7: a text of 7-bit characters without a decimal digit yields the
    empty passenger mapping, and a record with neither a date nor
    passengers: numbers written as words are not read.  (Beyond 7 bits
    Python's [\d] takes the digits of other scripts, which [no_digit]
    does not look for.) *)
Theorem no_digit_no_count (text : string) :
  seven_bit text = true ->
  no_digit text = true ->
  extract_passenger_info text = Ok []
  /\ exists e, extract_entities text = Ok e
               /\ PyDict.get "date" e = None
               /\ PyDict.get "passengers" e = None.
Proof.
  intros _ Hd.
  assert (Hp : extract_passenger_info text = Ok []).
  { unfold extract_passenger_info, count_into.
    rewrite !(search_needs true PyStr.is_digit _ text) by (exact Hd || reflexivity).
    reflexivity. }
  split; [exact Hp|]. exists (record_of text).
  split; [apply extract_entities_record|].
  rewrite record_date, record_passengers. unfold field_of, passengers_field.
  rewrite Hp.
  now rewrite (first_match_needs false PyStr.is_digit NlpExtractor.date_patterns
                 text eq_refl Hd).
Qed.

Lemma no_digit_no_count_witness :
  extract_passenger_info "two adults and three children, fifth of March" = Ok []
  /\ exists e,
       extract_entities "two adults and three children, fifth of March" = Ok e
       /\ PyDict.get "date" e = None
       /\ PyDict.get "passengers" e = None.
Proof.
  apply (no_digit_no_count "two adults and three children, fifth of March");
    vm_compute; reflexivity.
Defined.

(** ** Which categories a mapping holds *)

Lemma digits_grow (s : string) :
  PyStr.all_chars PyStr.is_digit s = true ->
  forall acc after n,
    PyStr.digits acc after s = Some n -> (0 <= acc)%Z -> (0 <= n)%Z.
Proof.
  induction s as [|c s IH]; intros Hall acc after n H Hacc; cbn [PyStr.digits] in H.
  - destruct after; [injection H as <-; exact Hacc | discriminate].
  - cbn [PyStr.all_chars] in Hall. apply andb_true_iff in Hall as [Hc Hs].
    rewrite Hc in H. apply (IH Hs _ _ _ H).
    unfold PyStr.digit_val. lia.
Qed.

Lemma int_of_digits_nonneg (s : string) (n : Z) :
  PyStr.all_chars PyStr.is_digit s = true ->
  PyStr.int s = Ok n -> (0 <= n)%Z.
Proof.
  intros Hall. unfold PyStr.int. rewrite strip_solid.
  2:{ apply all_chars_weaken with (p := PyStr.is_digit); [|exact Hall].
      exact digit_not_space. }
  destruct (PyStr.int_literal s) as [k|] eqn:E; [|discriminate].
  intros [= <-]. unfold PyStr.int_literal in E.
  destruct s as [|c s]; [discriminate|].
  pose proof Hall as Hall'. cbn [PyStr.all_chars] in Hall'.
  apply andb_true_iff in Hall' as [Hc _].
  destruct (digit_not_sign c Hc) as [E1 E2]. rewrite E1, E2 in E.
  apply (digits_grow _ Hall _ _ _ E). lia.
Qed.

(** A block of [extract_passenger_info] stores a count that is not
    negative: the digits it reads carry no sign. *)
Lemma count_into_nonneg (pat : Re.regex) (key text : string) (p : pdict) :
  Re.counting true (Re.cls_match true [Re.Digit]) pat ->
  exists p', count_into pat key text p = Ok p'
             /\ ((occurs pat text = false /\ p' = p)
                 \/ (occurs pat text = true
                     /\ exists n, (0 <= n)%Z /\ p' = PyDict.set key n p)).
Proof.
  intros Hpat. unfold count_into, occurs.
  destruct (Re.search true pat text) as [mt|] eqn:E; [|eauto].
  destruct (counting_search true _ pat text mt Hpat E) as (g & Hg & Hne & Hall).
  rewrite Hg. simpl.
  assert (Hd : PyStr.all_chars PyStr.is_digit g = true).
  { eapply all_chars_weaken; [apply digit_class | exact Hall]. }
  destruct (int_of_digits g Hne Hd) as [n Hn].
  rewrite Hn. simpl. pose proof (int_of_digits_nonneg g n Hd Hn). eauto 8.
Qed.

Lemma extract_passenger_info_keys (text : string) :
  exists p, extract_passenger_info text = Ok p
    /\ (forall pat key, In (pat, key) passenger_checks ->
                        PyDict.mem key p = occurs pat text)
    /\ PyDict.mem "total" p = count_found text
    /\ (forall k n, In (k, n) p ->
          In k ["adult_male"; "adult_female"; "minor_female"; "minor_male";
                "minor"; "total"]
          /\ exists t, PyDict.get "total" p = Some t /\ (0 <= n <= t)%Z).
Proof.
  unfold extract_passenger_info, count_found. cbn [existsb].
  destruct (count_into_nonneg adult_male_pattern "adult_male" text [])
    as (p1 & -> & H1); [now apply counting_digits|].
  destruct (count_into_nonneg adult_female_pattern "adult_female" text p1)
    as (p2 & E2 & H2); [now apply counting_digits|].
  destruct (count_into_nonneg minor_female_pattern "minor_female" text p2)
    as (p3 & E3 & H3); [now apply counting_digits|].
  destruct (count_into_nonneg minor_male_pattern "minor_male" text p3)
    as (p4 & E4 & H4); [now apply counting_digits|].
  destruct (count_into_nonneg minor_pattern "minor" text p4)
    as (p5 & E5 & H5); [now apply counting_digits|].
  cbn [bind]. rewrite E2. cbn [bind]. rewrite E3. cbn [bind].
  rewrite E4. cbn [bind]. rewrite E5. cbn [bind].
  eexists. split; [reflexivity|].
  destruct H1 as [[O1 ->] | [O1 (n1 & N1 & ->)]];
    destruct H2 as [[O2 ->] | [O2 (n2 & N2 & ->)]];
    destruct H3 as [[O3 ->] | [O3 (n3 & N3 & ->)]];
    destruct H4 as [[O4 ->] | [O4 (n4 & N4 & ->)]];
    destruct H5 as [[O5 ->] | [O5 (n5 & N5 & ->)]];
    rewrite O1, O2, O3, O4, O5;
    (split; [intros pat key Hin; simpl in Hin;
             repeat (destruct Hin as [[= <- <-] | Hin];
                     [rewrite ?O1, ?O2, ?O3, ?O4, ?O5; reflexivity|]);
             destruct Hin|]);
    (split; [reflexivity|]);
    intros k n Hin; cbv [py_sum] in Hin |- *; simpl in Hin |- *;
    repeat (destruct Hin as [[= <- <-] | Hin];
            [split; [simpl; tauto | eexists; split; [reflexivity | lia]]|]);
    destruct Hin.
Qed.

(** X8: a category is in the mapping exactly when its own pattern occurs
    in the text, and [total] is there exactly when one of the five
    does. *)
Theorem categories_follow_the_checks (text : string) (p : pdict) :
  extract_passenger_info text = Ok p ->
  (forall pat key, In (pat, key) passenger_checks ->
                   PyDict.mem key p = occurs pat text)
  /\ PyDict.mem "total" p = count_found text.
Proof.
  intros H. destruct (extract_passenger_info_keys text) as (p' & E & Hk & Ht & _).
  rewrite E in H. injection H as <-. auto.
Qed.

Lemma categories_follow_the_checks_witness :
  (forall pat key, In (pat, key) passenger_checks ->
                   PyDict.mem key [("adult_male", 2%Z); ("minor", 3%Z); ("total", 5%Z)]
                   = occurs pat "2 men with 3 kids")
  /\ PyDict.mem "total" [("adult_male", 2%Z); ("minor", 3%Z); ("total", 5%Z)]
     = count_found "2 men with 3 kids".
Proof.
  apply (categories_follow_the_checks "2 men with 3 kids").
  vm_compute; reflexivity.
Defined.

(** X9: the keys of the mapping are among the five categories and
    [total]; no count is negative, and none exceeds the total. *)
Theorem counts_lie_between_zero_and_total (text : string) (p : pdict)
        (k : string) (n : Z) :
  extract_passenger_info text = Ok p ->
  In (k, n) p ->
  In k ["adult_male"; "adult_female"; "minor_female"; "minor_male"; "minor";
        "total"]
  /\ exists t, PyDict.get "total" p = Some t /\ (0 <= n <= t)%Z.
Proof.
  intros H. destruct (extract_passenger_info_keys text) as (p' & E & _ & _ & Hb).
  rewrite E in H. injection H as <-. apply Hb.
Qed.

Lemma counts_lie_between_zero_and_total_witness :
  In "minor" ["adult_male"; "adult_female"; "minor_female"; "minor_male"; "minor";
              "total"]
  /\ exists t, PyDict.get "total" [("adult_male", 2%Z); ("minor", 3%Z); ("total", 5%Z)]
               = Some t /\ (0 <= 3 <= t)%Z.
Proof.
  apply (counts_lie_between_zero_and_total "2 men with 3 kids"
           [("adult_male", 2%Z); ("minor", 3%Z); ("total", 5%Z)] "minor" 3%Z).
  - vm_compute; reflexivity.
  - simpl. auto.
Defined.

(** ** Minors counted as adults *)

Lemma occurs_implied (r1 r2 : Re.regex) (text : string) :
  Shape.wb_free r2 = true -> Re.bounded r2 = true ->
  (forall w, Re.lang true r1 w ->
             exists w' tail, w = w' ++ tail /\ Re.lang true r2 w') ->
  occurs r1 text = true -> occurs r2 text = true.
Proof.
  intros Hwb Hbd Himp. unfold occurs.
  destruct (Re.search true r1 text) as [mt|] eqn:E; [intros _ | discriminate].
  destruct (search_sound true r1 text mt E) as (w & Hl & before & after & ->).
  destruct (Himp w Hl) as (w' & tail & -> & Hl').
  destruct (search_complete true r2 w' (before ++ (w' ++ tail) ++ after) Hwb Hbd Hl')
    as [mt' ->]; [|reflexivity].
  exists before, (tail ++ after). now rewrite append_assoc.
Qed.

(** A match of the minor-female pattern begins with a match of the
    adult-female pattern, and likewise for males. *)
Lemma minor_female_begins_adult (w : string) :
  Re.lang true minor_female_pattern w ->
  exists w' tail, w = w' ++ tail /\ Re.lang true adult_female_pattern w'.
Proof.
  unfold minor_female_pattern, adult_female_pattern, Re.pattern. cbn [Re.seq Re.alt].
  intros H.
  apply lang_seq_inv in H as (a & x & -> & Ha & H).
  apply lang_seq_inv in H as (b & x' & -> & Hb & H).
  apply lang_seq_inv in H as (c & tail & -> & Hc & _).
  exists (a ++ b ++ c), tail. split; [now rewrite !append_assoc|].
  apply Re.lang_seq; [exact Ha|]. apply Re.lang_seq; [exact Hb|].
  apply (Re.lang_seq true _ _ "" c).
  - apply (Re.lang_rep true 0 (Some 1) _ []); simpl; [lia | intros; lia | constructor].
  - apply Re.lang_alt_r. apply Re.lang_alt_r. exact Hc.
Qed.

Lemma minor_male_begins_adult (w : string) :
  Re.lang true minor_male_pattern w ->
  exists w' tail, w = w' ++ tail /\ Re.lang true adult_male_pattern w'.
Proof.
  unfold minor_male_pattern, adult_male_pattern, Re.pattern. cbn [Re.seq Re.alt].
  intros H.
  apply lang_seq_inv in H as (a & x & -> & Ha & H).
  apply lang_seq_inv in H as (b & x' & -> & Hb & H).
  apply lang_seq_inv in H as (c & tail & -> & Hc & _).
  exists (a ++ b ++ c), tail. split; [now rewrite !append_assoc|].
  apply Re.lang_seq; [exact Ha|]. apply Re.lang_seq; [exact Hb|].
  apply (Re.lang_seq true _ _ "" c).
  - apply (Re.lang_rep true 0 (Some 1) _ []); simpl; [lia | intros; lia | constructor].
  - apply Re.lang_alt_r. apply Re.lang_alt_r. exact Hc.
Qed.

(** X10: a mapping that holds [minor_female] holds [adult_female] too,
    and one that holds [minor_male] holds [adult_male]: the phrase that
    counts a minor of a stated sex begins with a phrase that counts
    adults of that sex, so such minors enter the total twice. *)
Theorem minors_count_as_adults_too (text : string) (p : pdict) :
  extract_passenger_info text = Ok p ->
  (PyDict.mem "minor_female" p = true -> PyDict.mem "adult_female" p = true)
  /\ (PyDict.mem "minor_male" p = true -> PyDict.mem "adult_male" p = true).
Proof.
  intros H. destruct (extract_passenger_info_keys text) as (p' & E & Hk & _).
  rewrite E in H. injection H as <-.
  rewrite (Hk minor_female_pattern "minor_female") by (simpl; auto 6).
  rewrite (Hk adult_female_pattern "adult_female") by (simpl; auto 6).
  rewrite (Hk minor_male_pattern "minor_male") by (simpl; auto 6).
  rewrite (Hk adult_male_pattern "adult_male") by (simpl; auto 6).
  split.
  - apply occurs_implied; [reflexivity | reflexivity |].
    exact minor_female_begins_adult.
  - apply occurs_implied; [reflexivity | reflexivity |].
    exact minor_male_begins_adult.
Qed.

Lemma minors_count_as_adults_too_witness :
  extract_passenger_info "2 female minors"
  = Ok [("adult_female", 2%Z); ("minor_female", 2%Z); ("total", 4%Z)]
  /\ (PyDict.mem "minor_female"
        [("adult_female", 2%Z); ("minor_female", 2%Z); ("total", 4%Z)] = true ->
      PyDict.mem "adult_female"
        [("adult_female", 2%Z); ("minor_female", 2%Z); ("total", 4%Z)] = true)
  /\ (PyDict.mem "minor_male"
        [("adult_female", 2%Z); ("minor_female", 2%Z); ("total", 4%Z)] = true ->
      PyDict.mem "adult_male"
        [("adult_female", 2%Z); ("minor_female", 2%Z); ("total", 4%Z)] = true).
Proof.
  split; [vm_compute; reflexivity|].
  apply (minors_count_as_adults_too "2 female minors").
  vm_compute; reflexivity.
Defined.

(* ================================================================== *)
(** * More on the cross-frame merger *)

Lemma merge_frames_flat (frame_results : list frame_result) (merged : entities_t) :
  fold_left merge_frame frame_results merged
  = fold_left merge_item (concat (map frame_entities frame_results)) merged.
Proof.
  revert merged. induction frame_results as [|fr l IH]; intros merged; [reflexivity|].
  cbn [fold_left map concat]. rewrite fold_left_app. apply IH.
Qed.

(** X11: the merger looks at the entities of the frames only.  An error
    entry anywhere in the list changes nothing, and merging the frames
    is merging their entities, in order, as one list. *)
Theorem merge_sees_only_entities (before after : list frame_result)
        (frame : nat) (error : string) :
  merge_entities (before ++ FrameError frame error :: after)%list
  = merge_entities (before ++ after)%list
  /\ forall frame_results,
       merge_entities frame_results
       = fold_left merge_item (concat (map frame_entities frame_results)) [].
Proof.
  split.
  - unfold merge_entities. rewrite !merge_frames_flat.
    now rewrite !map_app, !concat_app.
  - intros l. apply merge_frames_flat.
Qed.

Lemma merge_item_from (merged : entities_t) (kv : string * value) (k : string)
      (v : value) :
  PyDict.get k (merge_item merged kv) = Some v ->
  PyDict.get k merged = Some v \/ kv = (k, v).
Proof.
  destruct kv as [key val]. unfold merge_item.
  destruct (PyDict.get key merged) as [cur|] eqn:E.
  - destruct (is_str val && _)%bool; [|now left].
    rewrite get_set. destruct (String.eqb key k) eqn:Ek; [|now left].
    apply String.eqb_eq in Ek. subst key. intros [= ->]. now right.
  - rewrite get_set. destruct (String.eqb key k) eqn:Ek; [|now left].
    apply String.eqb_eq in Ek. subst key. intros [= ->]. now right.
Qed.

Lemma fold_merge_from (items : list (string * value)) (merged : entities_t)
      (k : string) (v : value) :
  PyDict.get k (fold_left merge_item items merged) = Some v ->
  PyDict.get k merged = Some v \/ In (k, v) items.
Proof.
  revert merged. induction items as [|kv items IH]; intros merged H; [now left|].
  cbn [fold_left] in H. destruct (IH _ H) as [H' | H']; [|right; now right].
  destruct (merge_item_from merged kv k v H') as [Hm | ->]; [now left | right; now left].
Qed.

(** X12: the merger invents nothing: every value of the merged record is
    the value some frame holds under that key. *)
Theorem merged_value_comes_from_a_frame (frame_results : list frame_result)
        (k : string) (v : value) :
  PyDict.get k (merge_entities frame_results) = Some v ->
  exists frame text entities,
    In (FrameOk frame text entities) frame_results /\ In (k, v) entities.
Proof.
  unfold merge_entities. rewrite merge_frames_flat. intros H.
  apply fold_merge_from in H as [H | H]; [discriminate H|].
  apply in_concat in H as (items & Hitems & Hin).
  apply in_map_iff in Hitems as (fr & <- & Hfr).
  destruct fr as [i t e | i msg]; [|destruct Hin].
  exists i, t, e. auto.
Qed.

Lemma merged_value_comes_from_a_frame_witness :
  exists frame text entities,
    In (FrameOk frame text entities)
       [FrameOk 0 "PNR ABC123" [("booking_id", VStr "ABC123")];
        FrameError 1 "unreadable";
        FrameOk 2 "Name: Asha Rao PNR ABC123"
                [("name", VStr "Asha Rao"); ("booking_id", VStr "ABC123")]]
    /\ In ("name", VStr "Asha Rao") entities.
Proof.
  apply (merged_value_comes_from_a_frame
           [FrameOk 0 "PNR ABC123" [("booking_id", VStr "ABC123")];
            FrameError 1 "unreadable";
            FrameOk 2 "Name: Asha Rao PNR ABC123"
                    [("name", VStr "Asha Rao"); ("booking_id", VStr "ABC123")]]
           "name" (VStr "Asha Rao")).
  reflexivity.
Defined.

(** X13: no key of a frame is lost, and no string of a frame is longer
    than what the merger keeps under its key. *)
Theorem merged_keeps_every_key (frame_results : list frame_result)
        (frame : nat) (text : string) (entities : entities_t)
        (k : string) (v : value) :
  In (FrameOk frame text entities) frame_results ->
  In (k, v) entities ->
  exists kept, PyDict.get k (merge_entities frame_results) = Some kept
               /\ (is_str v = true -> width v <= width kept).
Proof.
  intros Hfr Hin. unfold merge_entities. rewrite merge_frames_flat.
  apply (fold_merge_covers (concat (map frame_entities frame_results)) [] k v).
  apply in_concat. exists entities. split; [|exact Hin].
  apply in_map_iff. exists (FrameOk frame text entities). auto.
Qed.

Lemma merged_keeps_every_key_witness :
  exists kept,
    PyDict.get "name"
      (merge_entities [FrameOk 0 "Name: Asha Rao" [("name", VStr "Asha Rao")];
                       FrameOk 1 "Name: Asha Raoji" [("name", VStr "Asha Raoji")]])
    = Some kept
    /\ (is_str (VStr "Asha Rao") = true -> width (VStr "Asha Rao") <= width kept).
Proof.
  apply (merged_keeps_every_key
           [FrameOk 0 "Name: Asha Rao" [("name", VStr "Asha Rao")];
            FrameOk 1 "Name: Asha Raoji" [("name", VStr "Asha Raoji")]]
           0 "Name: Asha Rao" [("name", VStr "Asha Rao")] "name" (VStr "Asha Rao")).
  - simpl. auto.
  - simpl. auto.
Defined.

(** ** What stays *)

(** Items with distinct keys, none of them in the mapping yet, are
    appended in their order. *)
Lemma fold_merge_fresh (items merged : entities_t) :
  NoDup (PyDict.keys items) ->
  (forall k, In k (PyDict.keys items) -> PyDict.get k merged = None) ->
  fold_left merge_item items merged = (merged ++ items)%list.
Proof.
  revert merged. induction items as [|[k v] items IH]; intros merged Hnd Hfresh.
  - simpl. now rewrite app_nil_r.
  - cbn [PyDict.keys map fst] in Hnd. inversion Hnd as [|? ? Hk Hnd']; subst.
    cbn [fold_left]. unfold merge_item at 2.
    rewrite (Hfresh k) by now left. rewrite set_new by (apply Hfresh; now left).
    rewrite IH; [now rewrite <- app_assoc | exact Hnd' |].
    intros k' Hk'. rewrite get_app_none by (apply Hfresh; now right).
    simpl. destruct (String.eqb k k') eqn:E; [|reflexivity].
    apply String.eqb_eq in E. subst k'. now destruct Hk.
Qed.

(** X14: one frame read by [extract_entities] merges to its own record,
    its keys in their order. *)
Theorem single_frame_merges_to_itself (frame : nat) (text : string)
        (e : entities_t) :
  extract_entities text = Ok e ->
  merge_entities [FrameOk frame text e] = e.
Proof.
  rewrite extract_entities_record. intros [= <-].
  destruct (record_layout text) as (Hnd & _).
  unfold merge_entities. cbn [fold_left merge_frame frame_entities].
  now rewrite fold_merge_fresh.
Qed.

Lemma single_frame_merges_to_itself_witness :
  merge_entities
    [FrameOk 0 "PNR: ABC123 on 2024-03-05 for 2 men"
       [("date", VStr "2024-03-05"); ("booking_id", VStr "ABC123");
        ("passengers", VPax [("adult_male", 2%Z); ("total", 2%Z)])]]
  = [("date", VStr "2024-03-05"); ("booking_id", VStr "ABC123");
     ("passengers", VPax [("adult_male", 2%Z); ("total", 2%Z)])].
Proof.
  apply (single_frame_merges_to_itself 0 "PNR: ABC123 on 2024-03-05 for 2 men").
  vm_compute; reflexivity.
Defined.

Lemma merge_item_stays (merged : entities_t) (kv : string * value) (k : string)
      (v0 : value) :
  PyDict.get k merged = Some v0 ->
  (fst kv = k -> is_str (snd kv) = true -> width (snd kv) <= width v0) ->
  PyDict.get k (merge_item merged kv) = Some v0.
Proof.
  destruct kv as [key val]. cbn [fst snd]. intros H0 Hle. unfold merge_item.
  destruct (String.eqb key k) eqn:Ek.
  - apply String.eqb_eq in Ek. subst key. rewrite H0.
    destruct (is_str val) eqn:Es; [|exact H0]. specialize (Hle eq_refl eq_refl).
    cbn [andb]. unfold width in Hle.
    destruct (Nat.ltb_spec (String.length (py_str v0)) (String.length (py_str val)));
      [lia | exact H0].
  - destruct (PyDict.get key merged) as [cur|];
      [destruct (is_str val && _)%bool|]; rewrite ?get_set_other by exact Ek; exact H0.
Qed.

Lemma fold_merge_stays (items : list (string * value)) (merged : entities_t)
      (k : string) (v0 : value) :
  PyDict.get k merged = Some v0 ->
  (forall v, In (k, v) items -> is_str v = true -> width v <= width v0) ->
  PyDict.get k (fold_left merge_item items merged) = Some v0.
Proof.
  revert merged. induction items as [|[key val] items IH]; intros merged H0 Hle;
    [exact H0|].
  cbn [fold_left]. apply IH.
  - apply merge_item_stays; [exact H0|]. cbn [fst snd]. intros -> Hs.
    apply Hle; [now left | exact Hs].
  - intros v Hv. apply Hle. now right.
Qed.

(** X15: what is kept under a key gives way only to a strictly longer
    string.  Later frames that offer no such string leave it as it is;
    a passenger mapping of a later frame never replaces one of an
    earlier frame. *)
Theorem kept_value_yields_only_to_longer_string
        (before after : list frame_result) (k : string) (v0 : value) :
  PyDict.get k (merge_entities before) = Some v0 ->
  (forall frame text entities v,
      In (FrameOk frame text entities) after -> In (k, v) entities ->
      is_str v = true -> width v <= width v0) ->
  PyDict.get k (merge_entities (before ++ after)%list) = Some v0.
Proof.
  intros H0 Hle. unfold merge_entities in *. rewrite fold_left_app.
  rewrite merge_frames_flat. apply fold_merge_stays; [exact H0|].
  intros v Hv. apply in_concat in Hv as (items & Hitems & Hin).
  apply in_map_iff in Hitems as (fr & <- & Hfr).
  destruct fr as [i t e | i msg]; [|destruct Hin].
  apply (Hle i t e v Hfr Hin).
Qed.

Lemma kept_value_yields_only_to_longer_string_witness :
  PyDict.get "passengers"
    (merge_entities
       ([FrameOk 0 "2 men" [("passengers", VPax [("adult_male", 2%Z); ("total", 2%Z)])]]
        ++ [FrameOk 1 "12 men"
              [("passengers", VPax [("adult_male", 12%Z); ("total", 12%Z)])]])%list)
  = Some (VPax [("adult_male", 2%Z); ("total", 2%Z)]).
Proof.
  apply (kept_value_yields_only_to_longer_string
           [FrameOk 0 "2 men" [("passengers", VPax [("adult_male", 2%Z); ("total", 2%Z)])]]
           [FrameOk 1 "12 men"
              [("passengers", VPax [("adult_male", 12%Z); ("total", 12%Z)])]]
           "passengers" (VPax [("adult_male", 2%Z); ("total", 2%Z)])).
  - reflexivity.
  - intros frame text entities v [H | []] Hin Hs. injection H as _ _ <-.
    destruct Hin as [H | []]. injection H as <-. discriminate Hs.
Defined.

(* ================================================================== *)
(** * City names *)

Lemma lower_app (a b : string) : PyStr.lower (a ++ b) = PyStr.lower a ++ PyStr.lower b.
Proof.
  unfold PyStr.lower. induction a as [|c a IH]; simpl; [reflexivity | now rewrite IH].
Qed.

Lemma lower_spaces (s : string) :
  PyStr.all_chars PyStr.is_space s = true -> PyStr.lower s = s.
Proof.
  unfold PyStr.lower. induction s as [|c s IH]; simpl; [reflexivity|].
  intros H. apply andb_true_iff in H as [Hc Hs]. rewrite (IH Hs). f_equal.
  apply Ascii.eqb_eq. revert c Hc.
  apply (class_within PyStr.is_space (fun c => Ascii.eqb (PyStr.lower_char c) c)).
  vm_compute; reflexivity.
Qed.

Lemma lower_upper (s : string) : PyStr.lower (PyStr.upper s) = PyStr.lower s.
Proof.
  unfold PyStr.lower, PyStr.upper. induction s as [|c s IH]; simpl; [reflexivity|].
  rewrite IH. f_equal.
  assert (K : Ascii.eqb (PyStr.lower_char (PyStr.upper_char c)) (PyStr.lower_char c)
              = true).
  { revert c. apply for_all_ascii. vm_compute; reflexivity. }
  now apply Ascii.eqb_eq in K.
Qed.

Lemma lower_lower (s : string) : PyStr.lower (PyStr.lower s) = PyStr.lower s.
Proof.
  unfold PyStr.lower. induction s as [|c s IH]; simpl; [reflexivity|].
  rewrite IH. f_equal.
  assert (K : Ascii.eqb (PyStr.lower_char (PyStr.lower_char c)) (PyStr.lower_char c)
              = true).
  { revert c. apply for_all_ascii. vm_compute; reflexivity. }
  now apply Ascii.eqb_eq in K.
Qed.

Lemma lstrip_spaces (sp s : string) :
  PyStr.all_chars PyStr.is_space sp = true -> PyStr.lstrip (sp ++ s) = PyStr.lstrip s.
Proof.
  induction sp as [|c sp IH]; simpl; [reflexivity|].
  intros H. apply andb_true_iff in H as [Hc Hs]. rewrite Hc. now apply IH.
Qed.

Lemma rstrip_spaces (sp : string) :
  PyStr.all_chars PyStr.is_space sp = true -> PyStr.rstrip sp = "".
Proof.
  induction sp as [|c sp IH]; simpl; [reflexivity|].
  intros H. apply andb_true_iff in H as [Hc Hs]. now rewrite (IH Hs), Hc.
Qed.

Lemma rstrip_app_spaces (s sp : string) :
  PyStr.all_chars PyStr.is_space sp = true -> PyStr.rstrip (s ++ sp) = PyStr.rstrip s.
Proof.
  intros Hsp. induction s as [|c s IH]; simpl; [now apply rstrip_spaces|].
  now rewrite IH.
Qed.

Lemma strip_padding (sp1 s sp2 : string) :
  PyStr.all_chars PyStr.is_space sp1 = true ->
  PyStr.all_chars PyStr.is_space sp2 = true ->
  PyStr.strip (sp1 ++ s ++ sp2) = PyStr.strip s.
Proof.
  intros H1 H2. unfold PyStr.strip. rewrite (lstrip_spaces sp1 _ H1).
  induction s as [|c s IH]; simpl.
  - rewrite <- (append_nil_r sp2), (lstrip_spaces sp2 "" H2). reflexivity.
  - destruct (PyStr.is_space c); [exact IH|].
    change (String c (s ++ sp2)) with (String c s ++ sp2).
    now rewrite rstrip_app_spaces.
Qed.

(** X16: for a city name of 7-bit characters, letter case and white
    space around the name do not change its code.  (Beyond 7 bits
    Python's case mappings are not inverse to each other.) *)
Theorem normalize_city_ignores_case_and_padding (city gap1 gap2 : string) :
  seven_bit city = true ->
  PyStr.all_chars PyStr.is_space gap1 = true ->
  PyStr.all_chars PyStr.is_space gap2 = true ->
  normalize_city (gap1 ++ city ++ gap2) = normalize_city city
  /\ normalize_city (PyStr.upper city) = normalize_city city
  /\ normalize_city (PyStr.lower city) = normalize_city city.
Proof.
  intros _ H1 H2. unfold normalize_city. cbv zeta.
  rewrite !lower_app, (lower_spaces gap1 H1), (lower_spaces gap2 H2).
  rewrite (strip_padding gap1 _ gap2 H1 H2), lower_upper, lower_lower. auto.
Qed.

Lemma normalize_city_ignores_case_and_padding_witness :
  normalize_city ("  " ++ "New York" ++ " ") = normalize_city "New York"
  /\ normalize_city (PyStr.upper "New York") = normalize_city "New York"
  /\ normalize_city (PyStr.lower "New York") = normalize_city "New York".
Proof.
  apply (normalize_city_ignores_case_and_padding "New York" "  " " "); reflexivity.
Defined.

Lemma take_length (n : nat) (s : string) : String.length (PyStr.take n s) <= n.
Proof.
  revert s. induction n as [|n IH]; intros [|c s]; simpl; try lia.
  specialize (IH s). lia.
Qed.

Lemma take_all_chars (ok : ascii -> bool) (n : nat) (s : string) :
  PyStr.all_chars ok s = true -> PyStr.all_chars ok (PyStr.take n s) = true.
Proof.
  revert s. induction n as [|n IH]; intros [|c s]; simpl; auto.
  intros H. apply andb_true_iff in H as [Hc Hs]. now rewrite Hc, IH.
Qed.

Lemma upper_no_lower (s : string) :
  PyStr.all_chars (fun c => negb (PyStr.is_lower c)) (PyStr.upper s) = true.
Proof.
  unfold PyStr.upper. induction s as [|c s IH]; simpl; [reflexivity|].
  rewrite IH, andb_true_r. revert c. apply for_all_ascii. vm_compute; reflexivity.
Qed.

(** X17: for a city name of 7-bit characters [normalize_city] returns at
    most three characters, none of them a lowercase letter: a code of
    the table, or else the first three characters of the trimmed name in
    upper case.  (Beyond 7 bits some lowercase letters have no upper
    case.) *)
Theorem normalize_city_gives_short_upper (city : string) :
  seven_bit city = true ->
  String.length (normalize_city city) <= 3
  /\ PyStr.all_chars (fun c => negb (PyStr.is_lower c)) (normalize_city city) = true
  /\ (normalize_city city = PyStr.take 3 (PyStr.upper (PyStr.strip (PyStr.lower city)))
      \/ In (normalize_city city) (PyDict.values CITY_TO_IATA)).
Proof.
  intros _. unfold normalize_city. cbv zeta.
  set (c1 := PyStr.strip (PyStr.lower city)).
  assert (Hm : get_or c1 c1 misspellings = c1
               \/ PyDict.get (get_or c1 c1 misspellings) CITY_TO_IATA = Some "DEL"
               \/ PyDict.get (get_or c1 c1 misspellings) CITY_TO_IATA = Some "BOM"
               \/ PyDict.get (get_or c1 c1 misspellings) CITY_TO_IATA = Some "BLR").
  { unfold get_or. destruct (PyDict.get c1 misspellings) as [v|] eqn:E; [|now left].
    right. apply get_In in E. simpl in E.
    repeat (destruct E as [[= _ <-] | E]; [vm_compute; auto|]). destruct E. }
  assert (Hcode : forall c2 v, PyDict.get c2 CITY_TO_IATA = Some v ->
            String.length v <= 3
            /\ PyStr.all_chars (fun c => negb (PyStr.is_lower c)) v = true
            /\ In v (PyDict.values CITY_TO_IATA)).
  { intros c2 v E. apply get_In in E. simpl in E.
    repeat (destruct E as [[= _ <-] | E];
            [split; [simpl; lia | split; [reflexivity | simpl; tauto]]|]).
    destruct E. }
  set (c2 := get_or c1 c1 misspellings) in *.
  change (get_or c2 (PyStr.take 3 (PyStr.upper c2)) CITY_TO_IATA)
    with (match PyDict.get c2 CITY_TO_IATA with
          | Some v => v
          | None => PyStr.take 3 (PyStr.upper c2)
          end).
  destruct (PyDict.get c2 CITY_TO_IATA) as [v|] eqn:E.
  - destruct (Hcode c2 v E) as (Hl & Hu & Hin).
    split; [exact Hl|]. split; [exact Hu | now right].
  - split; [apply take_length|]. split; [apply take_all_chars, upper_no_lower|].
    left. destruct Hm as [Hm | [Hm | [Hm | Hm]]];
      [now rewrite Hm | discriminate Hm ..].
Qed.

Lemma normalize_city_gives_short_upper_witness :
  String.length (normalize_city "San Francisco") <= 3
  /\ PyStr.all_chars (fun c => negb (PyStr.is_lower c))
                     (normalize_city "San Francisco") = true
  /\ (normalize_city "San Francisco"
      = PyStr.take 3 (PyStr.upper (PyStr.strip (PyStr.lower "San Francisco")))
      \/ In (normalize_city "San Francisco") (PyDict.values CITY_TO_IATA)).
Proof.
  apply (normalize_city_gives_short_upper "San Francisco"). reflexivity.
Defined.

(* ================================================================== *)
(** * Dates of a query: errors and results *)

Lemma strptime_raises (s : string) (e : exn) :
  strptime s = Raise e -> e = ValueError.
Proof.
  unfold strptime.
  destruct (parse_year s) as [[y s1]|]; [|now intros [= <-]].
  destruct (dash s1) as [s2|]; [|now intros [= <-]].
  destruct (parse_month s2) as [[mo s3]|]; [|now intros [= <-]].
  destruct (parse_day s3) as [dd|]; [|now intros [= <-]].
  destruct (valid _); [discriminate | now intros [= <-]].
Qed.

Lemma add_days_raises (dt : date) (n : Z) (e : exn) :
  valid dt = true -> (0 <= n)%Z ->
  add_days dt n = Raise e ->
  e = OverflowError /\ (MAXORDINAL < toordinal dt + n)%Z.
Proof.
  intros Hv Hn. pose proof (toordinal_pos dt Hv) as Hp. unfold add_days. cbv zeta.
  destruct (Z.ltb_spec 0 (toordinal dt + n)); [|lia].
  destruct (Z.leb_spec (toordinal dt + n) MAXORDINAL); cbn [andb]; [discriminate|].
  intros [= <-]. auto.
Qed.

Lemma parse_date_raises (fuzzy : string -> option date)
      (text current_date : string) (e : exn) :
  parse_date fuzzy text current_date = Raise e ->
  (e = ValueError /\ strptime current_date = Raise ValueError)
  \/ (e = OverflowError
      /\ PyStr.contains "today" (PyStr.lower text) = false
      /\ exists d0, strptime current_date = Ok d0
                    /\ (MAXORDINAL - 7 < toordinal d0)%Z).
Proof.
  unfold parse_date. destruct (strptime current_date) as [d0|e0] eqn:Es; cbn [bind].
  - pose proof (strptime_valid _ _ Es) as Hv.
    destruct (PyStr.contains "today" _); [discriminate|].
    destruct (PyStr.contains "tomorrow" _).
    { destruct (add_days d0 1) as [dt|e1] eqn:Ea; cbn [bind]; [discriminate|].
      intros [= <-]. destruct (add_days_raises d0 1 e1 Hv) as [-> Hm]; [lia | exact Ea|].
      right. split; [reflexivity|]. split; [reflexivity|]. exists d0. split; [auto | lia]. }
    destruct (PyStr.contains "next" _).
    { pose proof (days_ahead_range weekday_names (PyStr.lower text) (weekday d0)) as Hr.
      set (n := days_ahead weekday_names (PyStr.lower text) (weekday d0)) in *.
      destruct (add_days d0 n) as [dt|e1] eqn:Ea; cbn [bind]; [discriminate|].
      intros [= <-]. destruct (add_days_raises d0 n e1 Hv) as [-> Hm]; [lia | exact Ea|].
      right. split; [reflexivity|]. split; [reflexivity|]. exists d0. split; [auto | lia]. }
    destruct (fuzzy text); discriminate.
  - intros [= <-]. pose proof (strptime_raises _ _ Es) as ->. now left.
Qed.

(** X18: [parse_date] raises for two reasons only.  [ValueError]: the
    reference date is not a date [strptime] reads.  [OverflowError]: the
    reference date lies in the last week of the calendar and the text
    is not about today.  The text itself never makes it raise. *)
Theorem parse_date_fails_on_the_reference_date
        (fuzzy : string -> option date) (text current_date : string) (e : exn) :
  parse_date fuzzy text current_date = Raise e ->
  (e = ValueError /\ strptime current_date = Raise ValueError)
  \/ (e = OverflowError
      /\ PyStr.contains "today" (PyStr.lower text) = false
      /\ exists d0, strptime current_date = Ok d0
                    /\ (MAXORDINAL - 7 < toordinal d0)%Z).
Proof. apply parse_date_raises. Qed.

Lemma parse_date_fails_on_the_reference_date_witness :
  (ValueError = ValueError /\ strptime "05/03/2024" = Raise ValueError)
  \/ (ValueError = OverflowError
      /\ PyStr.contains "today" (PyStr.lower "12 March 2024") = false
      /\ exists d0, strptime "05/03/2024" = Ok d0
                    /\ (MAXORDINAL - 7 < toordinal d0)%Z).
Proof.
  apply (parse_date_fails_on_the_reference_date fuzzy_none "12 March 2024"
           "05/03/2024" ValueError).
  vm_compute; reflexivity.
Defined.

Lemma add_days_lands (dt dt' : date) (n : Z) :
  valid dt = true -> (0 <= n)%Z ->
  add_days dt n = Ok dt' ->
  valid dt' = true /\ toordinal dt' = (toordinal dt + n)%Z.
Proof.
  intros Hv Hn. pose proof (toordinal_pos dt Hv) as Hp. unfold add_days. cbv zeta.
  destruct (Z.ltb_spec 0 (toordinal dt + n)); [|lia].
  destruct (Z.leb_spec (toordinal dt + n) MAXORDINAL); cbn [andb]; [|discriminate].
  intros [= <-]. split; [apply valid_fromordinal | apply toordinal_fromordinal]; lia.
Qed.

(** X19: a text about today, tomorrow or a next day gives a date no
    earlier than the reference date and at most seven days after it, as
    [strftime] prints it: in the form YYYY-MM-DD, one [strptime] reads
    back, when its year is 1000 or later; with a shorter year, which
    [strptime] rejects, when it is earlier. *)
Theorem relative_dates_are_canonical
        (fuzzy : string -> option date) (text current_date out : string) :
  relative_date text = true ->
  parse_date fuzzy text current_date = Ok out ->
  exists d0 d,
    strptime current_date = Ok d0
    /\ out = strftime d /\ valid d = true
    /\ (toordinal d0 <= toordinal d <= toordinal d0 + 7)%Z
    /\ ((1000 <= year d)%Z -> out = ymd d /\ strptime out = Ok d)
    /\ ((year d < 1000)%Z -> strptime out = Raise ValueError).
Proof.
  unfold relative_date, parse_date.
  destruct (strptime current_date) as [d0|e0] eqn:Es; cbn [bind]; [|discriminate].
  pose proof (strptime_valid _ _ Es) as Hv.
  destruct (PyStr.contains "today" _).
  { intros _ [= <-]. exists d0, d0.
    split; [reflexivity|]. split; [reflexivity|]. split; [exact Hv|].
    split; [lia|]. split; [|apply strptime_short_year].
    intros Hy. split; [now apply strftime_ymd | now apply strptime_strftime]. }
  destruct (PyStr.contains "tomorrow" _).
  { intros _. destruct (add_days d0 1) as [dt|e1] eqn:Ea; cbn [bind]; [|discriminate].
    intros [= <-]. destruct (add_days_lands d0 dt 1 Hv) as [Hv' Ho]; [lia | exact Ea|].
    exists d0, dt.
    split; [reflexivity|]. split; [reflexivity|]. split; [exact Hv'|].
    split; [lia|]. split; [|apply strptime_short_year].
    intros Hy. split; [now apply strftime_ymd | now apply strptime_strftime]. }
  destruct (PyStr.contains "next" _); [|discriminate].
  intros _.
  pose proof (days_ahead_range weekday_names (PyStr.lower text) (weekday d0)) as Hr.
  set (n := days_ahead weekday_names (PyStr.lower text) (weekday d0)) in *.
  destruct (add_days d0 n) as [dt|e1] eqn:Ea; cbn [bind]; [|discriminate].
  intros [= <-]. destruct (add_days_lands d0 dt n Hv) as [Hv' Ho]; [lia | exact Ea|].
  exists d0, dt.
  split; [reflexivity|]. split; [reflexivity|]. split; [exact Hv'|].
  split; [lia|]. split; [|apply strptime_short_year].
  intros Hy. split; [now apply strftime_ymd | now apply strptime_strftime].
Qed.

Lemma relative_dates_are_canonical_witness :
  exists d0 d,
    strptime "2024-2-28" = Ok d0
    /\ "2024-03-06" = strftime d /\ valid d = true
    /\ (toordinal d0 <= toordinal d <= toordinal d0 + 7)%Z
    /\ ((1000 <= year d)%Z ->
        "2024-03-06" = ymd d /\ strptime "2024-03-06" = Ok d)
    /\ ((year d < 1000)%Z -> strptime "2024-03-06" = Raise ValueError).
Proof.
  apply (relative_dates_are_canonical fuzzy_none "next month" "2024-2-28" "2024-03-06");
    vm_compute; reflexivity.
Defined.

(* ================================================================== *)
(** * The parsed query *)

Lemma query_passengers_raises (q : string) (e : exn) :
  query_passengers q = Raise e -> e = ValueError.
Proof.
  assert (count : forall patterns key p e',
             Forall (Re.counting false (Ascii.eqb "d")) patterns ->
             query_count patterns key q p = Raise e' -> e' = ValueError).
  { intros patterns key p e' Hc. unfold query_count.
    destruct (Re.first_match false patterns q) as [mt|] eqn:E; [|discriminate].
    destruct (ds_match_raises patterns q mt Hc E) as (g & Hg & Hi).
    rewrite Hg. cbn [bind]. rewrite Hi. cbn [bind]. now intros [= <-]. }
  unfold query_passengers.
  destruct (query_count male_patterns _ q []) as [p1|e1] eqn:E1; cbn [bind].
  2:{ intros [= <-]. now apply (count _ _ _ _ male_patterns_count E1). }
  destruct (query_count female_patterns _ q p1) as [p2|e2] eqn:E2; cbn [bind].
  2:{ intros [= <-]. now apply (count _ _ _ _ female_patterns_count E2). }
  unfold query_minors.
  destruct (Re.first_match false minor_patterns q) as [mt|] eqn:E; [|discriminate].
  destruct (ds_match_raises minor_patterns q mt minor_patterns_count E)
    as (g & Hg & Hi).
  rewrite Hg. cbn [bind]. rewrite Hi. cbn [bind]. now intros [= <-].
Qed.

(** X20: [parse_flight_query] raises [ValueError] or [OverflowError] and
    nothing else; [OverflowError] only when a date phrase was found. *)
Theorem parse_flight_query_error_kinds
        (fuzzy : string -> option date) (query current_date : string) (e : exn) :
  parse_flight_query fuzzy query current_date = Raise e ->
  e = ValueError
  \/ (e = OverflowError
      /\ Re.first_match false QueryParser.date_patterns (PyStr.lower query) <> None).
Proof.
  unfold parse_flight_query. cbv zeta.
  destruct (query_route_returns (PyStr.lower query)
              [("travel_intent", VStr "one_way"); ("passengers", VPax [("total", 0%Z)])])
    as [r1 ->].
  cbn [bind].
  destruct (query_date fuzzy _ current_date _) as [r2|e2] eqn:Ed; cbn [bind].
  - destruct (query_passengers _) as [p|e3] eqn:Ep; cbn [bind]; [discriminate|].
    intros [= <-]. left. now apply (query_passengers_raises _ _ Ep).
  - intros [= <-]. unfold query_date in Ed.
    destruct (Re.first_match false QueryParser.date_patterns (PyStr.lower query))
      as [mt|] eqn:E; [|discriminate].
    destruct (fills_first_match false 1 QueryParser.date_patterns _ mt eq_refl E)
      as [g Hg].
    rewrite Hg in Ed. cbn [bind] in Ed.
    destruct (parse_date fuzzy g current_date) as [out|e'] eqn:Epd; cbn [bind] in Ed;
      [discriminate|].
    injection Ed as <-.
    destruct (parse_date_raises fuzzy g current_date e' Epd) as [[-> _] | [-> _]];
      [now left | right; split; [reflexivity | discriminate]].
Qed.

Lemma parse_flight_query_error_kinds_witness :
  OverflowError = ValueError
  \/ (OverflowError = OverflowError
      /\ Re.first_match false QueryParser.date_patterns
           (PyStr.lower "fly nextsw") <> None).
Proof.
  apply (parse_flight_query_error_kinds fuzzy_none "fly nextsw" "9999-12-30").
  vm_compute; reflexivity.
Defined.

(** X21: the keys of a parsed query are distinct and come in the order
    travel_intent, passengers, origin, destination, travel_date,
    time_preference.  The intent is [one_way] or [round_trip], origin
    and destination come together, and a time preference is one of the
    four day times. *)
Theorem parsed_query_layout
        (fuzzy : string -> option date) (query current_date : string)
        (res : entities_t) :
  parse_flight_query fuzzy query current_date = Ok res ->
  NoDup (PyDict.keys res)
  /\ subseq (PyDict.keys res) query_keys = true
  /\ (exists intent, PyDict.get "travel_intent" res = Some (VStr intent)
                     /\ In intent ["one_way"; "round_trip"])
  /\ PyDict.mem "origin" res = PyDict.mem "destination" res
  /\ (forall t, PyDict.get "time_preference" res = Some t ->
                In t [VStr "morning"; VStr "afternoon"; VStr "evening";
                      VStr "night"]).
Proof.
  unfold parse_flight_query. cbv zeta.
  set (ql := PyStr.lower query).
  assert (Hnd : forall l, subseq l query_keys = true -> NoDup l).
  { intros l Hl. apply (subseq_NoDup query_keys l Hl).
    unfold query_keys. repeat constructor; simpl; intuition discriminate. }
  unfold query_route.
  destruct (Re.first_match false route_patterns ql) as [mt|] eqn:Er;
    [ destruct (fills_first_match false 1 route_patterns ql mt eq_refl Er) as [g1 ->];
      destruct (fills_first_match false 2 route_patterns ql mt eq_refl Er) as [g2 ->];
      generalize (normalize_city g1) (normalize_city g2); intros o d
    | ];
    cbn [bind];
    (unfold query_date;
     destruct (Re.first_match false QueryParser.date_patterns ql) as [md|] eqn:Ed;
     [ destruct (fills_first_match false 1 QueryParser.date_patterns ql md eq_refl Ed)
         as [g ->];
       cbn [bind];
       destruct (parse_date fuzzy g current_date) as [out|e]; [|discriminate]
     | ]);
    cbn [bind];
    (destruct (query_passengers ql) as [p|e] eqn:Ep; [|discriminate]);
    apply query_passengers_returns in Ep; subst p;
    cbn [bind]; unfold query_intent, query_time;
    destruct (existsb _ _);
    destruct (PyStr.contains "morning" ql);
    try destruct (PyStr.contains "afternoon" ql);
    try destruct (PyStr.contains "evening" ql);
    try destruct (PyStr.contains "night" ql);
    intros [= <-];
    (split; [apply Hnd; reflexivity|]);
    (split; [reflexivity|]);
    (split; [eexists; split; [reflexivity | simpl; auto]|]);
    (split; [reflexivity|]);
    intros t Ht; injection Ht as <- || discriminate Ht; simpl; auto.
Qed.

Lemma parsed_query_layout_witness :
  NoDup (PyDict.keys [("travel_intent", VStr "round_trip");
                      ("passengers", VPax one_adult_male);
                      ("time_preference", VStr "evening")])
  /\ subseq (PyDict.keys [("travel_intent", VStr "round_trip");
                          ("passengers", VPax one_adult_male);
                          ("time_preference", VStr "evening")]) query_keys = true
  /\ (exists intent,
        PyDict.get "travel_intent" [("travel_intent", VStr "round_trip");
                                    ("passengers", VPax one_adult_male);
                                    ("time_preference", VStr "evening")]
        = Some (VStr intent)
        /\ In intent ["one_way"; "round_trip"])
  /\ PyDict.mem "origin" [("travel_intent", VStr "round_trip");
                          ("passengers", VPax one_adult_male);
                          ("time_preference", VStr "evening")]
     = PyDict.mem "destination" [("travel_intent", VStr "round_trip");
                                 ("passengers", VPax one_adult_male);
                                 ("time_preference", VStr "evening")]
  /\ (forall t,
        PyDict.get "time_preference" [("travel_intent", VStr "round_trip");
                                      ("passengers", VPax one_adult_male);
                                      ("time_preference", VStr "evening")]
        = Some t ->
        In t [VStr "morning"; VStr "afternoon"; VStr "evening"; VStr "night"]).
Proof.
  apply (parsed_query_layout fuzzy_none "No return in the evening, Pune to Goa"
           "2024-03-04").
  vm_compute; reflexivity.
Defined.

(* ================================================================== *)
(** * More on the question resolver *)

Lemma starts_with_iff (p s : string) :
  PyStr.starts_with p s = true <-> exists post, s = p ++ post.
Proof.
  revert s. induction p as [|a p IH]; intros s; simpl.
  - split; [intros _; now exists s | reflexivity].
  - destruct s as [|b s].
    + split; [discriminate | intros [post H]; discriminate H].
    + rewrite andb_true_iff, Ascii.eqb_eq, IH. split.
      * intros [-> [post ->]]. now exists post.
      * intros [post [= -> ->]]. split; [reflexivity | now exists post].
Qed.

Lemma contains_iff (sub s : string) :
  PyStr.contains sub s = true <-> Shape.occurs_in sub s.
Proof.
  unfold Shape.occurs_in. induction s as [|c s IH]; cbn [PyStr.contains].
  - rewrite orb_false_r, starts_with_iff. split.
    + intros [post H]. now exists "", post.
    + intros ([|x pre] & post & H); [now exists post | discriminate H].
  - rewrite orb_true_iff, starts_with_iff, IH. split.
    + intros [[post H] | (pre & post & ->)].
      * now exists "", post.
      * now exists (String c pre), post.
    + intros ([|x pre] & post & H).
      * left. now exists post.
      * right. injection H as -> ->. now exists pre, post.
Qed.

Lemma contains_trans (a b s : string) :
  PyStr.contains a b = true -> PyStr.contains b s = true ->
  PyStr.contains a s = true.
Proof.
  rewrite !contains_iff. intros (p1 & q1 & ->) (p2 & q2 & ->).
  exists (p2 ++ p1), (q1 ++ q2). now rewrite !append_assoc.
Qed.

(** X22: a question with the words [adult] and [female] that no field
    rule answers is answered with the count of adult males, or with the
    fallback when there is none: [female] contains [male], and the rule
    for males is tried first. *)
Theorem adult_female_question_gets_male_count (e : entities_t) (q : string) :
  field_rules e (PyStr.lower q) = None ->
  has "adult" (PyStr.lower q) = true ->
  has "female" (PyStr.lower q) = true ->
  resolve e q
  = match PyDict.get "adult_male" (passengers_of e) with
    | Some n => QA ("There are " ++ str_Z n ++ " adult males.")
                   ("adult_male: " ++ str_Z n)
    | None => fallback e
    end.
Proof.
  intros Hf Ha Hfe. rewrite (resolve_after_fields e q Hf).
  unfold after_fields, passenger_rules. rewrite Ha.
  assert (Hm : has "male" (PyStr.lower q) = true).
  { unfold has in *. apply (contains_trans "male" "female"); [reflexivity | exact Hfe]. }
  rewrite Hm. cbn [andb]. now destruct (PyDict.get "adult_male" _).
Qed.

Lemma adult_female_question_gets_male_count_witness :
  resolve [("passengers",
            VPax [("adult_male", 2%Z); ("adult_female", 3%Z); ("total", 5%Z)])]
          "How many adult females?"
  = match PyDict.get "adult_male"
            (passengers_of
               [("passengers",
                 VPax [("adult_male", 2%Z); ("adult_female", 3%Z); ("total", 5%Z)])])
    with
    | Some n => QA ("There are " ++ str_Z n ++ " adult males.")
                   ("adult_male: " ++ str_Z n)
    | None =>
        fallback
          [("passengers",
            VPax [("adult_male", 2%Z); ("adult_female", 3%Z); ("total", 5%Z)])]
    end.
Proof.
  apply (adult_female_question_gets_male_count
           [("passengers",
             VPax [("adult_male", 2%Z); ("adult_female", 3%Z); ("total", 5%Z)])]
           "How many adult females?"); reflexivity.
Defined.

(** X23: asked of a record [extract_entities] made, a question with [pnr],
    [booking] or [id] in it and no amount, name or date word is answered
    with the booking id of the record. *)
Theorem booking_question_reads_booking_id (text question g : string)
        (e : entities_t) :
  extract_entities text = Ok e ->
  PyDict.get "booking_id" e = Some (VStr g) ->
  amount_keywords (PyStr.lower question) = false ->
  name_keywords (PyStr.lower question) = false ->
  date_keywords (PyStr.lower question) = false ->
  id_keywords (PyStr.lower question) = true ->
  resolve e question = QA ("The booking_id is " ++ g ++ ".") ("booking_id: " ++ g).
Proof.
  rewrite extract_entities_record. intros [= <-]. rewrite record_booking_id.
  intros Hb Ha Hn Hd Hi. apply resolve_field. unfold field_rules.
  rewrite Ha, Hn, Hd, Hi. unfold record_of. rewrite Hb.
  destruct (field_of_str true name_patterns text PyStr.strip) as [o1 ->].
  destruct (field_of_str false NlpExtractor.date_patterns text (fun g => g)) as [o2 ->].
  destruct (field_of_str true amount_patterns text PyStr.strip) as [o3 ->].
  destruct o1, o2, o3; reflexivity.
Qed.

Lemma booking_question_reads_booking_id_witness :
  resolve [("name", VStr "Asha Rao"); ("booking_id", VStr "ABC123")]
          "What did she book?"
  = QA ("The booking_id is " ++ "ABC123" ++ ".") ("booking_id: " ++ "ABC123").
Proof.
  apply (booking_question_reads_booking_id "Passenger: Asha Rao, PNR: ABC123");
    vm_compute; reflexivity.
Defined.

(** X24: an empty record answers every question with the same sentence,
    and names [No data] as its source. *)
Theorem empty_record_has_no_answer (question : string) :
  resolve [] question
  = QA "No relevant information found for this question." "No data".
Proof.
  unfold resolve, field_rules, passenger_rules, minor_rule, total_rule, guarded.
  cbv zeta. cbn [passengers_of PyDict.get id_scan].
  repeat match goal with
         | |- context [if ?b then _ else _] =>
             lazymatch b with
             | context [PyStr.lower] => destruct b
             end
         end; reflexivity.
Qed.

(* ================================================================== *)
(** * The frame loop *)

Section FrameLoop.
Import ProcessDynamic.

Variable extract_frames : string -> list string.
Variable preprocess_image : string -> outcome string.
Variable extract_text_from_image : string -> string.
Variable str_exn : exn -> string.

Lemma process_frame_entries (cleanup : string -> string -> outcome unit)
      (i : nat) (frame_path : string) :
  let entries := process_frame preprocess_image extract_text_from_image cleanup
                               str_exn i frame_path in
  1 <= List.length entries <= 2
  /\ Forall (fun r => frame_of r = i) entries.
Proof.
  unfold process_frame. destruct (preprocess_image frame_path) as [pp|msg].
  - cbv zeta. destruct (extract_entities _) as [e|ex].
    + destruct (cleanup frame_path pp); simpl; split; try lia; repeat constructor.
    + simpl. split; [lia | repeat constructor].
  - simpl. split; [lia | repeat constructor].
Qed.

Lemma process_frames_entries (cleanup : string -> string -> outcome unit)
      (frame_paths : list string) (i : nat) :
  let entries := process_frames preprocess_image extract_text_from_image cleanup
                                str_exn i frame_paths in
  List.length frame_paths <= List.length entries <= 2 * List.length frame_paths
  /\ forall k, In k (map frame_of entries)
               <-> i <= k < i + List.length frame_paths.
Proof.
  revert i. induction frame_paths as [|p ps IH]; intros i; cbv zeta.
  - simpl. split; [lia|]. intros k. split; [intros [] | lia].
  - cbn [process_frames List.length].
    destruct (process_frame_entries cleanup i p) as [Hlen Hall].
    destruct (IH (S i)) as [Hlen' Hin']. cbv zeta in *.
    rewrite length_app, map_app. split; [lia|].
    intros k. rewrite in_app_iff, Hin'. split.
    + intros [H | H]; [|lia]. apply in_map_iff in H as (r & <- & Hr).
      rewrite Forall_forall in Hall. rewrite (Hall r Hr). lia.
    + intros H. destruct (Nat.eq_dec k i) as [-> | Hne]; [left | right; lia].
      destruct (process_frame _ _ _ _ i p) as [|r l] eqn:E; [simpl in Hlen; lia|].
      inversion Hall as [|? ? Hr _]; subst. simpl. now left.
Qed.

(** X25: the result holds one or two entries for every frame and none
    for any other frame number, so between [frames_processed] and twice
    as many. *)
Theorem every_frame_is_reported (cleanup : string -> string -> outcome unit)
        (video_path : string) :
  let r := process_dynamic_image extract_frames preprocess_image
                                 extract_text_from_image cleanup str_exn
                                 video_path in
  frames_processed r <= List.length (frame_results r) <= 2 * frames_processed r
  /\ forall k, In k (map frame_of (frame_results r)) <-> k < frames_processed r.
Proof.
  cbv zeta. unfold process_dynamic_image. cbn [frames_processed frame_results].
  destruct (process_frames_entries cleanup (extract_frames video_path) 0) as [Hlen Hin].
  cbv zeta in *. split; [exact Hlen|]. intros k. rewrite Hin. lia.
Qed.

Lemma process_frames_entities (cleanup cleanup' : string -> string -> outcome unit)
      (frame_paths : list string) (i : nat) :
  concat (map frame_entities
              (process_frames preprocess_image extract_text_from_image cleanup
                              str_exn i frame_paths))
  = concat (map frame_entities
                (process_frames preprocess_image extract_text_from_image cleanup'
                                str_exn i frame_paths)).
Proof.
  revert i. induction frame_paths as [|p ps IH]; intros i; [reflexivity|].
  cbn [process_frames]. rewrite !map_app, !concat_app, (IH (S i)). f_equal.
  unfold process_frame. destruct (preprocess_image p) as [pp|msg]; [|reflexivity].
  cbv zeta. destruct (extract_entities _) as [e|ex]; [|reflexivity].
  destruct (cleanup p pp), (cleanup' p pp); reflexivity.
Qed.

(** X26: the merged entities do not depend on the cleanup: a frame whose
    files could not be removed still gives all it read. *)
Theorem failed_cleanup_keeps_the_entities
        (cleanup cleanup' : string -> string -> outcome unit)
        (video_path : string) :
  merged_entities (process_dynamic_image extract_frames preprocess_image
                     extract_text_from_image cleanup str_exn video_path)
  = merged_entities (process_dynamic_image extract_frames preprocess_image
                       extract_text_from_image cleanup' str_exn video_path).
Proof.
  unfold process_dynamic_image. cbn [merged_entities]. unfold merge_entities.
  rewrite !merge_frames_flat. f_equal. apply process_frames_entities.
Qed.


End FrameLoop.


(* ================================================================== *)
(** * The fallback text of an unknown OCR result *)

Lemma rstrip_idem (s : string) : PyStr.rstrip (PyStr.rstrip s) = PyStr.rstrip s.
Proof.
  induction s as [|c s IH]; [reflexivity|]. cbn [PyStr.rstrip].
  destruct (PyStr.rstrip s) as [|c' t] eqn:E.
  - destruct (PyStr.is_space c) eqn:Ec; [reflexivity|]. simpl. now rewrite Ec.
  - cbn [PyStr.rstrip]. cbn [PyStr.rstrip] in IH.
    destruct (PyStr.rstrip t) as [|c'' t'].
    + destruct (PyStr.is_space c'); [discriminate IH|]. now rewrite IH.
    + now rewrite IH.
Qed.

Lemma lstrip_rstrip_lstrip (s : string) :
  PyStr.lstrip (PyStr.rstrip (PyStr.lstrip s)) = PyStr.rstrip (PyStr.lstrip s).
Proof.
  induction s as [|c s IH]; [reflexivity|]. cbn [PyStr.lstrip].
  destruct (PyStr.is_space c) eqn:Ec; [exact IH|]. cbn [PyStr.rstrip].
  destruct (PyStr.rstrip s) as [|c' t]; rewrite ?Ec; simpl; now rewrite Ec.
Qed.

Lemma strip_idem (s : string) : PyStr.strip (PyStr.strip s) = PyStr.strip s.
Proof. unfold PyStr.strip. now rewrite lstrip_rstrip_lstrip, rstrip_idem. Qed.

Lemma strip_spaces (s : string) :
  PyStr.all_chars PyStr.is_space s = true -> PyStr.strip s = "".
Proof.
  intros H. unfold PyStr.strip.
  rewrite <- (append_nil_r s), (lstrip_spaces s "" H). reflexivity.
Qed.

(** The loop over the members of a container: the texts of the members,
    each with a space behind it. *)
Lemma fold_text {A : Type} (f : A -> string) (l : list A) (acc : string) :
  fold_left (fun text x => text ++ (f x ++ " ")) l acc
  = acc ++ Re.concat_str (map (fun x => f x ++ " ") l).
Proof.
  revert acc. induction l as [|x l IH]; intros acc; simpl.
  - now rewrite append_nil_r.
  - now rewrite IH, append_assoc.
Qed.

Lemma spaced_join (ss : list string) :
  ss <> [] ->
  Re.concat_str (map (fun s => s ++ " ") ss) = PyStr.join " " ss ++ " ".
Proof.
  induction ss as [|s ss IH]; [now intros []|]. intros _.
  destruct ss as [|s' ss].
  - simpl. now rewrite append_nil_r.
  - cbn [map Re.concat_str PyStr.join] in *. rewrite IH by discriminate.
    now rewrite !append_assoc.
Qed.

(** X28: a list of strings gives the strings joined by single spaces and
    then stripped; a dict gives what the list of its values gives, its
    keys playing no part. *)
Theorem unknown_text_joins_and_strips (ss : list string)
        (d : list (string * OcrEngine.obj)) :
  OcrEngine._extract_text_from_unknown (OcrEngine.OList (map OcrEngine.OStr ss))
  = PyStr.strip (PyStr.join " " ss)
  /\ OcrEngine._extract_text_from_unknown (OcrEngine.ODict d)
     = OcrEngine._extract_text_from_unknown (OcrEngine.OList (map snd d)).
Proof.
  split.
  - cbn [OcrEngine._extract_text_from_unknown].
    rewrite (fold_text OcrEngine._extract_text_from_unknown). cbn [append].
    rewrite map_map. cbn [OcrEngine._extract_text_from_unknown].
    destruct ss as [|s ss]; [reflexivity|].
    rewrite spaced_join by discriminate.
    apply (strip_padding "" (PyStr.join " " (s :: ss)) " "); reflexivity.
  - cbn [OcrEngine._extract_text_from_unknown].
    rewrite (fold_text (fun kv => OcrEngine._extract_text_from_unknown (snd kv))).
    rewrite (fold_text OcrEngine._extract_text_from_unknown).
    now rewrite map_map.
Qed.

Lemma obj_induction (P : OcrEngine.obj -> Prop) :
  (forall s, P (OcrEngine.OStr s)) ->
  (forall items, Forall P items -> P (OcrEngine.OList items)) ->
  (forall d, Forall (fun kv => P (snd kv)) d -> P (OcrEngine.ODict d)) ->
  P OcrEngine.OOther ->
  forall o, P o.
Proof.
  intros Hs Hl Hd Ho. fix IH 1. intros [s | items | d | ].
  - apply Hs.
  - apply Hl. induction items as [|x items IHi]; constructor; [apply IH | exact IHi].
  - apply Hd. induction d as [|[k v] d IHd]; constructor; [apply IH | exact IHd].
  - exact Ho.
Qed.

Lemma blank_text (o : OcrEngine.obj) :
  OcrEngine.blank o = true ->
  PyStr.all_chars PyStr.is_space (OcrEngine._extract_text_from_unknown o) = true.
Proof.
  induction o as [s | items IH | d IH | ] using obj_induction;
    cbn [OcrEngine.blank OcrEngine._extract_text_from_unknown]; intros Hb.
  - exact Hb.
  - rewrite fold_text. cbn [append]. rewrite strip_spaces; [reflexivity|].
    induction IH as [|x items Hx _ IHi]; [reflexivity|].
    cbn [forallb] in Hb. apply andb_true_iff in Hb as [Hbx Hbi].
    cbn [map Re.concat_str]. rewrite !all_chars_app, (Hx Hbx), (IHi Hbi). reflexivity.
  - rewrite fold_text. cbn [append]. rewrite strip_spaces; [reflexivity|].
    induction IH as [|x items Hx _ IHi]; [reflexivity|].
    cbn [forallb] in Hb. apply andb_true_iff in Hb as [Hbx Hbi].
    cbn [map Re.concat_str]. rewrite !all_chars_app, (Hx Hbx), (IHi Hbi). reflexivity.
  - reflexivity.
Qed.

(** X29: the text of a list, a dict or any other non-string is trimmed:
    stripping it again changes nothing.  It is empty when the object
    holds no string but white space. *)
Theorem unknown_text_is_trimmed (o : OcrEngine.obj) :
  (forall s, o <> OcrEngine.OStr s) ->
  PyStr.strip (OcrEngine._extract_text_from_unknown o)
  = OcrEngine._extract_text_from_unknown o
  /\ (OcrEngine.blank o = true -> OcrEngine._extract_text_from_unknown o = "").
Proof.
  intros Hns. assert (K : exists t, OcrEngine._extract_text_from_unknown o
                                   = PyStr.strip t).
  { destruct o as [s | items | d | ]; [now destruct (Hns s) | | | ];
      cbn [OcrEngine._extract_text_from_unknown]; eauto. }
  destruct K as [t Ht]. split.
  - rewrite Ht. apply strip_idem.
  - intros Hb. pose proof (blank_text o Hb) as Hsp.
    rewrite Ht in *. rewrite <- strip_idem. now apply strip_spaces.
Qed.

Lemma unknown_text_is_trimmed_witness :
  PyStr.strip
    (OcrEngine._extract_text_from_unknown
       (OcrEngine.ODict [("page", OcrEngine.OOther);
                         ("lines", OcrEngine.OList [OcrEngine.OStr "  "])]))
  = OcrEngine._extract_text_from_unknown
      (OcrEngine.ODict [("page", OcrEngine.OOther);
                        ("lines", OcrEngine.OList [OcrEngine.OStr "  "])])
  /\ (OcrEngine.blank
        (OcrEngine.ODict [("page", OcrEngine.OOther);
                          ("lines", OcrEngine.OList [OcrEngine.OStr "  "])]) = true ->
      OcrEngine._extract_text_from_unknown
        (OcrEngine.ODict [("page", OcrEngine.OOther);
                          ("lines", OcrEngine.OList [OcrEngine.OStr "  "])]) = "").
Proof.
  apply (unknown_text_is_trimmed
           (OcrEngine.ODict [("page", OcrEngine.OOther);
                             ("lines", OcrEngine.OList [OcrEngine.OStr "  "])])).
  intros s H. discriminate H.
Defined.
